(** * oicb: an ICB chat client -- wire codec, protocol state machine, output queues

    A shallow embedding of [oicb.c].  Bytes are [ascii] characters, buffers and
    C strings are [list ascii], sizes and offsets are [nat]; the places where
    the C code narrows to [unsigned char] are written out with [uchar].
    Functions that end the process ([err], [errx]) return a [Fatal] outcome
    that carries the session as it was at that moment. *)

From Stdlib Require Import Ascii String List Arith Bool ZArith Lia.
Import ListNotations.

(** ** Bytes and the pieces of libc the program calls *)

Definition bytes := list ascii.

Definition NUL : ascii := "000"%char.
Definition SOH : ascii := "001"%char.
Definition NL : ascii := "010"%char.

(** A string literal of the source, without its terminator. *)
Definition lit (s : string) : bytes := list_ascii_of_string s.

(** Conversion to [unsigned char]. *)
Definition uchar (n : nat) : nat := n mod 256.
Definition ucharZ (z : Z) : nat := Z.to_nat (z mod 256).

Definition byte_of (n : nat) : ascii := ascii_of_nat (uchar n).

(** <ctype.h> in the "C" locale (the program never calls setlocale). *)
Definition isblank (c : ascii) : bool :=
  let n := nat_of_ascii c in (n =? 32) || (n =? 9).

Definition isspace (c : ascii) : bool :=
  let n := nat_of_ascii c in (n =? 32) || ((9 <=? n) && (n <=? 13)).

Definition ispunct (c : ascii) : bool :=
  let n := nat_of_ascii c in
  ((33 <=? n) && (n <=? 47)) || ((58 <=? n) && (n <=? 64)) ||
  ((91 <=? n) && (n <=? 96)) || ((123 <=? n) && (n <=? 126)).

(** The bytes of a C string: everything before the first NUL.  A buffer of
    [len] bytes is always followed by a NUL in this program, so running off
    the end of the list is running into that terminator. *)
Fixpoint cstr (s : bytes) : bytes :=
  match s with
  | [] => []
  | c :: r => if Ascii.eqb c NUL then [] else c :: cstr r
  end.

Definition strlen (s : bytes) : nat := length (cstr s).

(** [strchr s c] for [c <> NUL]: the offset of the first [c] in the string. *)
Fixpoint strchr (s : bytes) (c : ascii) : option nat :=
  match s with
  | [] => None
  | x :: r =>
      if Ascii.eqb x NUL then None
      else if Ascii.eqb x c then Some 0
      else option_map S (strchr r c)
  end.

(** [strcspn s " \t"]. *)
Fixpoint strcspn_blank (s : bytes) : nat :=
  match s with
  | [] => 0
  | x :: r =>
      if Ascii.eqb x NUL || Ascii.eqb x " " || Ascii.eqb x "009" then 0
      else S (strcspn_blank r)
  end.

Fixpoint bytes_eqb (a b : bytes) : bool :=
  match a, b with
  | [], [] => true
  | x :: a', y :: b' => Ascii.eqb x y && bytes_eqb a' b'
  | _, _ => false
  end.

(** [strcmp a b == 0]. *)
Definition strcmp0 (a b : bytes) : bool := bytes_eqb (cstr a) (cstr b).

(** The leading white space [proceed_user_input] skips. *)
Fixpoint skip_space (s : bytes) : bytes :=
  match s with
  | c :: r => if isspace c then skip_space r else s
  | [] => []
  end.

(** ** Output tasks and their queues *)

(** [struct icb_task]: [it_data] holds the [it_len] bytes to deliver,
    [it_ndone] counts the bytes already written, [it_cb] is the optional
    completion callback (a code pointer, here a number naming it). *)
Record icb_task := mk_task {
  it_len : nat;
  it_ndone : nat;
  it_cb : option nat;
  it_data : bytes
}.

Definition icb_task_queue := list icb_task.

(** A task as calloc leaves it, once length and data are filled in. *)
Definition new_task (data : bytes) : icb_task :=
  {| it_len := length data; it_ndone := 0; it_cb := None; it_data := data |}.

(** [push_stdout_msg]: the text and its terminator, [strlen(text) + 1] bytes. *)
Definition push_stdout_msg (text : bytes) (q : icb_task_queue) : icb_task_queue :=
  q ++ [new_task (cstr text ++ [NUL])].

(** ** Writing queued tasks *)

(** What the kernel answers to the next [write(2)] on a non-blocking
    descriptor: it takes up to [n] of the bytes offered, or fails with
    EAGAIN, or fails with another error. *)
Inductive wr_answer :=
| WrRoom (n : nat)
| WrAgain
| WrError.

(** A descriptor: the answers still to come (EAGAIN once they are used up)
    and the bytes delivered so far. *)
Record fdesc := mk_fd {
  fd_script : list wr_answer;
  fd_sink : bytes
}.

(** [push_data]: write until everything went out or the kernel refuses.
    [Some total] is the normal return, [None] stands for [err(2, "write")]. *)
Fixpoint push_data (script : list wr_answer) (sink data : bytes)
  : option nat * fdesc :=
  match data with
  | [] => (Some 0, mk_fd script sink)
  | _ :: _ =>
      match script with
      | [] => (Some 0, mk_fd [] sink)
      | WrAgain :: script' => (Some 0, mk_fd script' sink)
      | WrError :: script' => (None, mk_fd script' sink)
      | WrRoom n :: script' =>
          let nwritten := Nat.min n (length data) in
          let (r, fd') := push_data script' (sink ++ firstn nwritten data)
                                    (skipn nwritten data) in
          (option_map (Nat.add nwritten) r, fd')
      end
  end.

(** The result of [proceed_output]: the queue and descriptor afterwards and
    the callbacks that ran, each with the task it was called on. *)
Inductive flushed :=
| Flushed (q : icb_task_queue) (fd : fdesc) (called : list (nat * icb_task))
| WriteFailed (q : icb_task_queue) (fd : fdesc).

Definition run_cb (it : icb_task) : list (nat * icb_task) :=
  match it_cb it with
  | Some cb => [(cb, it)]
  | None => []
  end.

(** The bytes of a task that are still to be written:
    [it_len - it_ndone] bytes at [it_data + it_ndone]. *)
Definition task_rest (it : icb_task) : bytes :=
  firstn (it_len it - it_ndone it) (skipn (it_ndone it) (it_data it)).

(** [it->it_ndone += nwritten] *)
Definition task_advance (nwritten : nat) (it : icb_task) : icb_task :=
  {| it_len := it_len it;
     it_ndone := it_ndone it + nwritten;
     it_cb := it_cb it;
     it_data := it_data it |}.

(** [proceed_output] *)
Fixpoint proceed_output (q : icb_task_queue) (fd : fdesc) : flushed :=
  match q with
  | [] => Flushed [] fd []
  | it :: q' =>
      match push_data (fd_script fd) (fd_sink fd) (task_rest it) with
      | (None, fd') => WriteFailed q fd'
      | (Some nwritten, fd') =>
          let it' := task_advance nwritten it in
          if it_ndone it' <? it_len it' then Flushed (it' :: q') fd' []
          else
            match proceed_output q' fd' with
            | Flushed q'' fd'' called => Flushed q'' fd'' (run_cb it' ++ called)
            | WriteFailed q'' fd'' => WriteFailed q'' fd''
            end
      end
  end.

Definition queue_rest (q : icb_task_queue) : bytes :=
  concat (map task_rest q).

(** A task as the program builds them: the buffer holds [it_len] bytes and
    the done-counter is within it. *)
Definition task_ok (it : icb_task) : Prop :=
  length (it_data it) = it_len it /\ it_ndone it <= it_len it.

(** The callbacks a queue still owes: one call for each task that has a
    callback, on the task with all its bytes done. *)
Definition queue_cbs (q : icb_task_queue) : list (nat * icb_task) :=
  concat (map (fun it => run_cb (task_advance (it_len it - it_ndone it) it)) q).


(** What the platform headers and libc leave open. *)
Class Platform := {
  (** <limits.h> *)
  LOGIN_NAME_MAX : nat;
  (** strvis/strvisx with VIS_SAFE|VIS_NOSLASH on a byte sequence *)
  strvis : bytes -> bytes;
  (** the display text [proceed_user_list] queues for a record *)
  user_list_text : bytes -> list bytes;
  (** the display text [proceed_group_list] queues, given the room *)
  group_list_text : bytes -> bytes -> list bytes
}.

Section Model.
Context {P : Platform}.

Definition NICKNAME_MAX : nat :=
  if 64 <? LOGIN_NAME_MAX then 64 else LOGIN_NAME_MAX.

(** ** Outbound encoding, standard mode *)

(** [type == 'h' && memcmp(msg, "m\001", 2) == 0] *)
Definition is_privmsg (type : ascii) (msg : bytes) : bool :=
  Ascii.eqb type "h" &&
  match msg with
  | a :: b :: _ => Ascii.eqb a "m" && Ascii.eqb b SOH
  | _ => false
  end.

(** The length of the addressing prefix repeated in every chunk. *)
Definition ws_commonlen (type : ascii) (msg : bytes) : nat :=
  if is_privmsg type msg then
    match strchr msg " " with
    | Some off => if off <? NICKNAME_MAX + 3 then uchar (uchar off + 1) else 0
    | None => 0
    end
  else 0.

(** [maxlen = 253 - ((unsigned char)strlen(nick) + 1) - commonlen] *)
Definition ws_maxlen (nick : bytes) (commonlen : nat) : nat :=
  ucharZ (253 - (Z.of_nat (uchar (strlen nick)) + 1) - Z.of_nat commonlen).

(** The backwards scan [for (p = src + msglen - 1; p > src; p--)]: [i] is
    [p - src], [msglen] the value kept when no break character is met. *)
Fixpoint ws_scan (src : bytes) (i : nat) (msglen : nat) : nat :=
  match i with
  | O => msglen
  | S j =>
      let c := nth i src NUL in
      if isblank c || ispunct c then uchar (i + 1) else ws_scan src j msglen
  end.

(** The length of the next chunk. *)
Definition ws_msglen (split_ws : bool) (src : bytes) (maxlen : nat) : nat :=
  if maxlen <? length src then
    if split_ws then ws_scan src (maxlen - 1) maxlen else maxlen
  else uchar (length src).

(** One packet: length byte, type, common prefix, chunk, and the NUL that
    calloc left behind; [msglen + commonlen + 3] bytes. *)
Definition ws_packet (type : ascii) (msg : bytes) (commonlen : nat)
    (src : bytes) (msglen : nat) : icb_task :=
  {| it_len := msglen + commonlen + 3;
     it_ndone := 0;
     it_cb := None;
     it_data := byte_of (uchar msglen + commonlen + 2) :: type ::
                firstn commonlen msg ++ firstn msglen src ++ [NUL] |}.

(** The do-while loop; [src] holds the [len] bytes still to send.  [None]
    when the fuel runs out: with [maxlen = 0] the loop makes no progress and
    never leaves. *)
Fixpoint ws_loop (fuel : nat) (type : ascii) (split_ws : bool)
    (msg : bytes) (commonlen : nat) (src : bytes) (maxlen : nat)
  : option (list icb_task) :=
  match fuel with
  | O => None
  | S fuel' =>
      let msglen := ws_msglen split_ws src maxlen in
      let it := ws_packet type msg commonlen src msglen in
      let src' := skipn msglen src in
      if length src' =? 0 then Some [it]
      else option_map (cons it)
             (ws_loop fuel' type split_ws msg commonlen src' maxlen)
  end.

(** [push_icb_msg_ws]: the tasks appended to [tasks_net]. *)
Definition push_icb_msg_ws (nick : bytes) (type : ascii) (msg : bytes)
  : option (list icb_task) :=
  let privmsg := is_privmsg type msg in
  let commonlen := ws_commonlen type msg in
  let src := skipn commonlen msg in
  let maxlen := ws_maxlen nick commonlen in
  ws_loop (S (length src)) type (Ascii.eqb type "b" || privmsg)
          msg commonlen src maxlen.

(** ** Outbound encoding, extended mode *)

(** The [while (msgcnt-- > 1)] loop: [n] full slots, each a zero length byte,
    the type and 254 bytes of the source.  Returns the bytes written and the
    source that is left. *)
Fixpoint ext_slots (n : nat) (type : ascii) (src : bytes) : bytes * bytes :=
  match n with
  | O => ([], src)
  | S n' =>
      let (out, rest) := ext_slots n' type (skipn 254 src) in
      (NUL :: type :: firstn 254 src ++ out, rest)
  end.

(** [push_icb_msg_extended]: one task of [len + 2 * msgcnt] bytes, [len]
    counting the trailing NUL.  The buffer comes zeroed from calloc, so what
    the copies do not reach is NUL. *)
Definition push_icb_msg_extended (type : ascii) (msg : bytes) : icb_task :=
  let src := msg ++ [NUL] in
  let len := length msg + 1 in
  let msgcnt := (len + 253) / 254 in
  let total := len + msgcnt * 2 in
  let (out, rest) := ext_slots (msgcnt - 1) type src in
  let szfinal := uchar (len mod 254) in
  let written := out ++ byte_of (szfinal + 1) :: type :: firstn szfinal rest in
  {| it_len := total;
     it_ndone := 0;
     it_cb := None;
     it_data := firstn total (written ++ repeat NUL total) |}.

(** ** The session: the program's global variables *)

Inductive conn_state :=
| Connecting
| Connected
| LoginSent
| Chat
| CommandSent.

Definition conn_state_eqb (a b : conn_state) : bool :=
  match a, b with
  | Connecting, Connecting | Connected, Connected | LoginSent, LoginSent
  | Chat, Chat | CommandSent, CommandSent => true
  | _, _ => false
  end.

(** [enum SrvFeature] *)
Definition Ping : Z := 1.
Definition ExtPkt : Z := 2.

Record session := mk_session {
  state : conn_state;
  srv_features : Z;
  want_exit : bool;
  want_info : bool;
  pings_sent : nat;
  last_cmd_has_nl : bool;
  enable_history : bool;
  nick : bytes;
  hostname : bytes;
  room : bytes;
  tasks_stdout : icb_task_queue;
  tasks_net : icb_task_queue;
  (** what [save_history] was handed: type, author, text *)
  history : list (ascii * bytes * bytes)
}.

Definition set_state (st : conn_state) (s : session) : session :=
  mk_session st (srv_features s) (want_exit s) (want_info s) (pings_sent s)
    (last_cmd_has_nl s) (enable_history s) (nick s) (hostname s) (room s)
    (tasks_stdout s) (tasks_net s) (history s).

Definition set_srv_features (f : Z) (s : session) : session :=
  mk_session (state s) f (want_exit s) (want_info s) (pings_sent s)
    (last_cmd_has_nl s) (enable_history s) (nick s) (hostname s) (room s)
    (tasks_stdout s) (tasks_net s) (history s).

Definition set_want_exit (b : bool) (s : session) : session :=
  mk_session (state s) (srv_features s) b (want_info s) (pings_sent s)
    (last_cmd_has_nl s) (enable_history s) (nick s) (hostname s) (room s)
    (tasks_stdout s) (tasks_net s) (history s).

Definition set_want_info (b : bool) (s : session) : session :=
  mk_session (state s) (srv_features s) (want_exit s) b (pings_sent s)
    (last_cmd_has_nl s) (enable_history s) (nick s) (hostname s) (room s)
    (tasks_stdout s) (tasks_net s) (history s).

Definition set_pings_sent (n : nat) (s : session) : session :=
  mk_session (state s) (srv_features s) (want_exit s) (want_info s) n
    (last_cmd_has_nl s) (enable_history s) (nick s) (hostname s) (room s)
    (tasks_stdout s) (tasks_net s) (history s).

Definition set_last_cmd_has_nl (b : bool) (s : session) : session :=
  mk_session (state s) (srv_features s) (want_exit s) (want_info s)
    (pings_sent s) b (enable_history s) (nick s) (hostname s) (room s)
    (tasks_stdout s) (tasks_net s) (history s).

Definition set_tasks_stdout (q : icb_task_queue) (s : session) : session :=
  mk_session (state s) (srv_features s) (want_exit s) (want_info s)
    (pings_sent s) (last_cmd_has_nl s) (enable_history s) (nick s)
    (hostname s) (room s) q (tasks_net s) (history s).

Definition set_tasks_net (q : icb_task_queue) (s : session) : session :=
  mk_session (state s) (srv_features s) (want_exit s) (want_info s)
    (pings_sent s) (last_cmd_has_nl s) (enable_history s) (nick s)
    (hostname s) (room s) (tasks_stdout s) q (history s).

Definition set_history (h : list (ascii * bytes * bytes)) (s : session)
  : session :=
  mk_session (state s) (srv_features s) (want_exit s) (want_info s)
    (pings_sent s) (last_cmd_has_nl s) (enable_history s) (nick s)
    (hostname s) (room s) (tasks_stdout s) (tasks_net s) h.

(** The globals as their initialisers and the start of [main] leave them. *)
Definition initial_session (history_on : bool) (nick0 hostname0 room0 : bytes)
  : session :=
  {| state := Connecting;
     srv_features := Ping;
     want_exit := false;
     want_info := false;
     pings_sent := 0;
     last_cmd_has_nl := false;
     enable_history := history_on;
     nick := nick0;
     hostname := hostname0;
     room := room0;
     tasks_stdout := [];
     tasks_net := [];
     history := [] |}.

(** The check [main] makes before it connects:
    [strlen(nick) >= NICKNAME_MAX] ends in [usage]. *)
Definition nick_ok (nick0 : bytes) : bool := strlen nick0 <? NICKNAME_MAX.

(** [(srv_features & f) == f] *)
Definition has_feature (f : Z) (s : session) : bool :=
  (Z.land (srv_features s) f =? f)%Z.

(** How the process can end through [err] or [errx].  [EncoderStuck] is the
    loop of [push_icb_msg_ws] that makes no progress: it goes on allocating
    until calloc fails. *)
Inductive fatal :=
| UnexpectedMsg (type : ascii)
| InvalidMsg (type : ascii) (desc : bytes)
| UnsupportedVersion
| InternalError
| EncoderStuck
| TooLongMessage
| ReadFailed
| TypesMessedUp
| WriteFailure
| PollFailed
| StreamError.

Inductive outcome :=
| Ok (s : session)
| Fatal (e : fatal) (s : session).

Definition bind (o : outcome) (k : session -> outcome) : outcome :=
  match o with
  | Ok s => k s
  | Fatal e s => Fatal e s
  end.

Definition final_session (o : outcome) : session :=
  match o with
  | Ok s => s
  | Fatal _ s => s
  end.

(** [push_stdout_msg(text)] on the session's display queue. *)
Definition say (text : bytes) (s : session) : session :=
  set_tasks_stdout (push_stdout_msg text (tasks_stdout s)) s.

(** [save_history], as far as the session sees it: a record is handed to the
    history files unless they are switched off. *)
Definition save_history (type : ascii) (who msg : bytes) (s : session)
  : session :=
  if enable_history s
  then set_history (history s ++ [(type, cstr who, cstr msg)]) s
  else s.

(** [push_icb_msg] *)
Definition push_icb_msg (type : ascii) (src : bytes) (s : session) : outcome :=
  if has_feature ExtPkt s then
    Ok (set_tasks_net (tasks_net s ++ [push_icb_msg_extended type src]) s)
  else
    match push_icb_msg_ws (nick s) type src with
    | Some its => Ok (set_tasks_net (tasks_net s ++ its) s)
    | None => Fatal EncoderStuck s
    end.

(** ** User input *)

(** Overwrite the byte at offset [n] when the string has one there. *)
Definition mark_args (line : bytes) (n : nat) : bytes :=
  match skipn n line with
  | [] => line
  | _ :: rest => firstn n line ++ SOH :: rest
  end.

(** [proceed_user_input]; [None] is the NULL line readline hands over at end
    of input.  [l] is the memory at [line]: the string, its terminator and
    what follows it.  For the command m the text saved is read at
    [&line[n + 1]], which for a line without arguments lies one byte past
    the terminator: the model takes what [l] holds there, and nothing when
    [l] ends before. *)
Definition proceed_user_input (line0 : option bytes) (s : session) : outcome :=
  match line0 with
  | None => Ok (set_want_exit true s)
  | Some l =>
      let line := cstr l in
      match skip_space line with
      | [] => Ok s
      | _ :: _ =>
          match line with
          | c0 :: c1 :: rest =>
              if Ascii.eqb c0 "/" then
                let cmd := c1 :: rest in
                let n := strcspn_blank cmd in
                let cmd' := mark_args cmd n in
                let s1 := if (n =? 1) && Ascii.eqb c1 "m"
                          then save_history "c" (lit "me") (skipn (n + 2) l) s
                          else s in
                bind (push_icb_msg "h" cmd' s1)
                     (fun s2 => Ok (set_state CommandSent s2))
              else
                push_icb_msg "b" line (save_history "b" (lit "me") line s)
          | _ =>
              push_icb_msg "b" line (save_history "b" (lit "me") line s)
          end
      end
  end.

(** ** Incoming messages *)

(** [proceed_chat_msg]; [ts] is what strftime wrote for "[%H:%M:%S]". *)
Definition proceed_chat_msg (ts : bytes) (type : ascii) (author text : bytes)
    (s : session) : outcome :=
  let s1 := save_history type author text s in
  let '(preuser, postuser) :=
    if Ascii.eqb type "c" then (lit " *", lit "* ")
    else if Ascii.eqb type "d" then (lit " [=", lit "=] ")
    else if Ascii.eqb type "e" || Ascii.eqb type "k" then (lit " !", lit "! ")
    else if Ascii.eqb type "f" then (lit " {", lit "} ")
    else (lit " <", lit "> ") in
  let szbuf := 12 + length preuser + strlen author * 4 +
               length postuser + strlen text * 4 in
  let line := ts ++ preuser ++ strvis (cstr author) ++
              postuser ++ strvis (cstr text) ++ [NL] in
  if szbuf <=? length line then Fatal InternalError s1
  else Ok (say line s1).

(** [proceed_cmd_result]; [msg] holds the [len] bytes after the output tag. *)
Definition proceed_cmd_result (msg : bytes) (s : session) : outcome :=
  Ok (say (strvis msg)
          (set_last_cmd_has_nl (Ascii.eqb (last msg NUL) NL) s)).

(** [proceed_cmd_result_end] *)
Definition proceed_cmd_result_end (msg : bytes) (s : session) : outcome :=
  let s1 := if last_cmd_has_nl s then set_last_cmd_has_nl false s
            else say [NL] s in
  Ok (set_state Chat s1).

(** [proceed_user_list] and [proceed_group_list] queue display text and
    touch nothing else of the session; the text is left to the platform. *)
Definition proceed_user_list (msg : bytes) (s : session) : outcome :=
  Ok (fold_left (fun acc t => say t acc) (user_list_text msg) s).

Definition proceed_group_list (msg : bytes) (s : session) : outcome :=
  Ok (fold_left (fun acc t => say t acc) (group_list_text (room s) msg) s).

(** The type of the handlers in [cmd_handlers]. *)
Definition icb_msg_handler := bytes -> session -> outcome.

(** [cmd_handlers]: output tag and handler, NULL for the ignored ones. *)
Definition cmd_handlers : list (bytes * option icb_msg_handler) :=
  [ (lit "co", Some proceed_cmd_result);
    (lit "ec", Some proceed_cmd_result_end);
    (lit "wl", Some proceed_user_list);
    (lit "wg", Some proceed_group_list);
    (lit "wh", None);
    (lit "gh", None);
    (lit "ch", None);
    (lit "c", None) ].

(** The loop over [cmd_handlers] in the 'i' case. *)
Fixpoint dispatch_cmd (table : list (bytes * option icb_msg_handler))
    (type : ascii) (outtype msg : bytes) (s : session) : outcome :=
  match table with
  | [] => Fatal (InvalidMsg type (lit "unsupported output type")) s
  | (tag, handler) :: table' =>
      if strcmp0 outtype tag then
        match handler with
        | Some h => h msg s
        | None => Ok s
        end
      else dispatch_cmd table' type outtype msg s
  end.

(** The text the server answers a ping with when it knows no pings. *)
Definition ping_unsupported : bytes := lit "Undefined message type 108".

(** [proceed_icb_msg]; [msg] holds the [len] bytes of the message, the type
    byte first.  An empty [msg] is the decoder's zero-length message, whose
    type byte reads as NUL. *)
Definition proceed_icb_msg (ts : bytes) (msg : bytes) (s : session) : outcome :=
  let type := hd NUL msg in
  let msg := tl msg in
  if Ascii.eqb type "a" then
    if negb (conn_state_eqb (state s) LoginSent) then Fatal (UnexpectedMsg type) s
    else
      Ok (set_state Chat
            (say [NL] (say (nick s) (say (lit " as ")
              (say (room s) (say (lit "Logged in to room ") s))))))
  else if Ascii.eqb type "b" || Ascii.eqb type "c" ||
          Ascii.eqb type "d" || Ascii.eqb type "f" then
    bind (if conn_state_eqb (state s) CommandSent then Ok (set_state Chat s)
          else if negb (conn_state_eqb (state s) Chat)
               then Fatal (UnexpectedMsg type) s
               else Ok s)
         (fun s1 =>
            match strchr msg SOH with
            | None => Fatal (InvalidMsg type (lit "missing text")) s1
            | Some i =>
                proceed_chat_msg ts type (firstn i msg) (skipn (S i) msg) s1
            end)
  else if Ascii.eqb type "e" then
    let s1 := if negb (conn_state_eqb (state s) Chat) &&
                 negb (conn_state_eqb (state s) CommandSent)
              then set_want_exit true s else s in
    if strcmp0 msg ping_unsupported then
      Ok (set_srv_features (Z.land (srv_features s1) (Z.lnot Ping)) s1)
    else proceed_chat_msg ts type (hostname s1) msg s1
  else if Ascii.eqb type "g" then
    if negb (conn_state_eqb (state s) Chat) then Fatal (UnexpectedMsg type) s
    else Ok (set_want_exit true (say (lit "ICB: server said bye-bye" ++ [NL]) s))
  else if Ascii.eqb type "i" then
    if negb (conn_state_eqb (state s) CommandSent)
    then Fatal (UnexpectedMsg type) s
    else
      match strchr msg SOH with
      | None => Fatal (InvalidMsg type (lit "missing output type")) s
      | Some i =>
          dispatch_cmd cmd_handlers type (firstn i msg) (skipn (S i) msg) s
      end
  else if Ascii.eqb type "j" then
    if negb (conn_state_eqb (state s) Connected) then Fatal (UnexpectedMsg type) s
    else
      let version := match strchr msg SOH with
                     | Some i => firstn i msg
                     | None => msg
                     end in
      if negb (strcmp0 version (lit "1")) then Fatal UnsupportedVersion s
      else
        let p := cstr (nick s) ++ SOH :: cstr (nick s) ++ SOH ::
                 cstr (room s) ++ SOH :: lit "login" ++ [SOH] in
        bind (push_icb_msg "a" (cstr p) s)
             (fun s1 => Ok (set_state LoginSent s1))
  else if Ascii.eqb type "k" then
    if negb (conn_state_eqb (state s) Chat) then Fatal (UnexpectedMsg type) s
    else proceed_chat_msg ts type (lit "SERVER") (lit "BEEP!") s
  else if Ascii.eqb type "l" then
    push_icb_msg "m" msg s
  else if Ascii.eqb type "m" then
    Ok s
  else if Ascii.eqb type "n" then
    if negb (conn_state_eqb (state s) Chat) then Fatal (UnexpectedMsg type) s
    else Ok s
  else
    Ok (say (lit "unsupported message of type '" ++ type ::
             lit "', ignored" ++ [NL]) s).

(** ** Inbound decoding *)

(** The socket as one pass of the main loop finds it: the bytes the kernel
    holds, and what a read meets once they are taken. *)
Inductive sock_end :=
| StillOpen
| PeerClosed
| SockFailed.

Record socket := mk_sock {
  sk_avail : bytes;
  sk_end : sock_end
}.

Inductive rd_answer :=
| RdBytes (d : bytes)
| RdAgain
| RdError.

(** [read(sock, ., n)] *)
Definition sock_read (sk : socket) (n : nat) : rd_answer * socket :=
  match sk_avail sk with
  | [] =>
      match sk_end sk with
      | StillOpen => (RdAgain, sk)
      | PeerClosed => (RdBytes [], sk)
      | SockFailed => (RdError, sk)
      end
  | _ :: _ =>
      (RdBytes (firstn n (sk_avail sk)),
       mk_sock (skipn n (sk_avail sk)) (sk_end sk))
  end.

(** The static variables of [get_next_icb_msg].  [buf] holds the [bufread]
    bytes received and not yet given up; the rest of the allocation is not
    modelled, and a step that looks at it ends in [Unreceived]. *)
Record inbuf := mk_inbuf {
  buf : bytes;
  msgend : option nat;
  bufsize : nat
}.

Definition inbuf0 : inbuf := mk_inbuf [] None 1024.

Definition BUF_MAX : nat := 1024 * 1024.

Inductive decoded :=
| NoMessage
| Message (msg : bytes)
| DecodeFatal (e : fatal)
| Unreceived.

Record rd_state := mk_rd {
  rs_buf : bytes;
  rs_bufsize : nat;
  rs_roundread : nat;
  rs_sock : socket;
  rs_session : session
}.

Inductive rd_end :=
| RdDone (st : rd_state)
| RdFatal (e : fatal) (st : rd_state)
| RdFuel.

(** [nread == 0]: the peer closed the connection. *)
Definition peer_closed (s : session) : session :=
  set_want_exit true
    (say (lit " closed connection, exiting..." ++ [NL])
       (say (hostname s) (say (lit "Server ") s))).

(** The [for (;;)] loop around [read]. *)
Fixpoint read_loop (fuel : nat) (st : rd_state) : rd_end :=
  match fuel with
  | O => RdFuel
  | S fuel' =>
      let bufread := length (rs_buf st) in
      let size := rs_bufsize st in
      if (bufread =? size - 1) && (BUF_MAX <=? size)
      then RdFatal TooLongMessage st
      else
        let size' := if bufread =? size - 1 then 2 * size else size in
        match sock_read (rs_sock st) (size' - bufread - 1) with
        | (RdError, sk') =>
            RdFatal ReadFailed
              (mk_rd (rs_buf st) size' (rs_roundread st) sk' (rs_session st))
        | (RdAgain, sk') =>
            RdDone (mk_rd (rs_buf st) size' (rs_roundread st) sk' (rs_session st))
        | (RdBytes [], sk') =>
            RdDone (mk_rd (rs_buf st) size' (rs_roundread st) sk'
                          (peer_closed (rs_session st)))
        | (RdBytes d, sk') =>
            read_loop fuel'
              (mk_rd (rs_buf st ++ d) size' (rs_roundread st + length d) sk'
                     (rs_session st))
        end
  end.

(** [for (lastpkt = buf; lastpkt[0] == 0; lastpkt += 256)]: [Some None] is
    the early [return NULL], [None] a look at a byte not received. *)
Fixpoint find_lastpkt (fuel : nat) (b : bytes) (lastpkt : nat)
  : option (option nat) :=
  match fuel with
  | O => None
  | S fuel' =>
      match nth_error b lastpkt with
      | None => None
      | Some c =>
          if Ascii.eqb c NUL then
            if length b <? lastpkt + 256 then Some None
            else find_lastpkt fuel' b (lastpkt + 256)
          else Some (Some lastpkt)
      end
  end.

Inductive compacted :=
| Compacted (b : bytes)
| MessedUp
| Outside.

(** [for (pkt = buf; pkt <= lastpkt; pkt += 256)]: the slots are joined by
    moving the tail of the buffer over each inner length and type byte. *)
Fixpoint compact (fuel : nat) (b : bytes) (lastpkt pkt : nat) : compacted :=
  match fuel with
  | O => Outside
  | S fuel' =>
      if lastpkt <? pkt then Compacted b
      else
        match nth_error b (pkt + 1), nth_error b (lastpkt + 1) with
        | Some t, Some tlast =>
            if negb (Ascii.eqb t tlast) then MessedUp
            else if pkt =? 0 then compact fuel' b lastpkt (pkt + 256)
            else
              match nth_error b (pkt - 1) with
              | None => Outside
              | Some prev =>
                  let shift := if Ascii.eqb prev NUL then 3 else 2 in
                  if length b <? pkt + 2 then Outside
                  else
                    compact fuel'
                      (firstn (pkt + 2 - shift) b ++ skipn (pkt + 2) b)
                      (lastpkt - shift) (pkt - shift + 256)
              end
        | _, _ => Outside
        end
  end.

(** The part of [get_next_icb_msg] after the read loop. *)
Definition extract_msg (b : bytes) (size : nat) : decoded * inbuf :=
  match find_lastpkt (S (length b)) b 0 with
  | None => (Unreceived, mk_inbuf b None size)
  | Some None => (NoMessage, mk_inbuf b None size)
  | Some (Some lastpkt) =>
      let plen := nat_of_ascii (nth lastpkt b NUL) in
      if length b <? lastpkt + plen then (NoMessage, mk_inbuf b None size)
      else
        let mend := lastpkt + 1 + plen in
        match compact (S (length b)) b lastpkt 0 with
        | Outside => (Unreceived, mk_inbuf b (Some mend) size)
        | MessedUp => (DecodeFatal TypesMessedUp, mk_inbuf b (Some mend) size)
        | Compacted b1 =>
            match nth_error b1 (mend - 1) with
            | None => (Unreceived, mk_inbuf b1 (Some mend) size)
            | Some c =>
                let (b2, mend') :=
                  if negb (Ascii.eqb c NUL)
                  then (firstn (length b1)
                          (firstn mend b1 ++ NUL :: skipn mend b1), mend + 1)
                  else (b1, mend) in
                (Message (firstn (mend' - 2) (skipn 1 b2)),
                 mk_inbuf b2 (Some mend') size)
            end
        end
  end.

(** [get_next_icb_msg].  A call entered with [msgend] beyond the bytes
    held, the state an unterminated last packet leaves, makes the code
    subtract past zero in size_t: it moves (size_t)-1 bytes and leaves
    [bufread] at SIZE_MAX.  The model does not follow the code there: the
    answer is [Unreceived], as for every step that looks at a byte not
    received, and the buffer returned with that answer stands for nothing
    in the code. *)
Definition get_next_icb_msg (ib : inbuf) (sk : socket) (s : session)
  : decoded * inbuf * socket * session :=
  let kept :=
    match msgend ib with
    | None => Some (buf ib)
    | Some e => if e <=? length (buf ib) then Some (skipn e (buf ib)) else None
    end in
  match kept with
  | None => (Unreceived, ib, sk, s)
  | Some b0 =>
      match read_loop (S (length (sk_avail sk)))
                      (mk_rd b0 (bufsize ib) 0 sk s) with
      | RdFuel => (Unreceived, mk_inbuf b0 None (bufsize ib), sk, s)
      | RdFatal e st =>
          (DecodeFatal e, mk_inbuf (rs_buf st) None (rs_bufsize st),
           rs_sock st, rs_session st)
      | RdDone st =>
          if (length (rs_buf st) =? 0) && (rs_roundread st =? 0)
          then (NoMessage, mk_inbuf (rs_buf st) None (rs_bufsize st),
                rs_sock st, rs_session st)
          else
            let (d, ib') := extract_msg (rs_buf st) (rs_bufsize st) in
            (d, ib', rs_sock st, rs_session st)
      end
  end.

(** Calling the decoder until it has no further message: the messages in
    the order they came out, and the answer that ended the loop. *)
Fixpoint receive_all (fuel : nat) (ib : inbuf) (sk : socket) (s : session)
  : list bytes * decoded :=
  match fuel with
  | O => ([], Unreceived)
  | S fuel' =>
      match get_next_icb_msg ib sk s with
      | (Message m, ib', sk', s') =>
          let (ms, d) := receive_all fuel' ib' sk' s' in (m :: ms, d)
      | (d, _, _, _) => ([], d)
      end
  end.

(** The bytes a queue puts on the wire once it is flushed. *)
Definition wire (q : icb_task_queue) : bytes := concat (map it_data q).

(** A fresh decoder fed everything a queue sends. *)
Definition decode_wire (q : icb_task_queue) (s : session) : list bytes * decoded :=
  receive_all (S (length (wire q))) inbuf0 (mk_sock (wire q) StillOpen) s.

(** ** The main loop *)

(** The process between two passes of [while (!want_exit)]: the globals, the
    decoder's buffer, what went out on the socket and on stdout so far, and
    (for the proofs only) the messages handed to [proceed_icb_msg]. *)
Record client := mk_client {
  cl_session : session;
  cl_inbuf : inbuf;
  cl_sent : bytes;
  cl_shown : bytes;
  cl_received : list bytes
}.

Definition with_session (s : session) (c : client) : client :=
  mk_client s (cl_inbuf c) (cl_sent c) (cl_shown c) (cl_received c).

Inductive poll_answer :=
| PollReady
| PollEintr
| PollError
| PollStreamError.

(** What one pass meets from outside: signals, the clock compared with the
    deadlines, the answers of poll, read and write, a line from readline. *)
Record pass_input := mk_pass {
  in_siginfo : bool;
  in_net_write : list wr_answer;
  in_watchdog : bool;
  in_poll : poll_answer;
  in_line : option (option bytes);
  in_net_readable : bool;
  in_socket : socket;
  in_timed_out : bool;
  in_clock : bytes;
  in_stdout_write : list wr_answer
}.

Inductive pass_end :=
| Continue (c : client)
| Exited (e : fatal) (c : client)
| Lost (c : client).

Definition and_then (r : pass_end) (k : client -> pass_end) : pass_end :=
  match r with
  | Continue c => k c
  | Exited e c => Exited e c
  | Lost c => Lost c
  end.

Definition lift (c : client) (o : outcome) : pass_end :=
  match o with
  | Ok s => Continue (with_session s c)
  | Fatal e s => Exited e (with_session s c)
  end.

(** The answer to SIGINFO or control-T. *)
Definition report_info (port : option bytes) (s : session) : session :=
  let s1 := say (hostname s) (say (lit " at ")
              (say (room s) (say (lit "sitting in room ") s))) in
  let s2 := match port with
            | Some p => say p (say (lit ":") s1)
            | None => s1
            end in
  set_want_info false (say [NL] (say (nick s) (say (lit " as ") s2))).

(** The watchdog: a ping while the server is believed to answer pings, a
    no-op otherwise. *)
Definition keepalive (s : session) : outcome :=
  if has_feature Ping s then
    bind (push_icb_msg "l" [] s)
         (fun s1 => Ok (set_pings_sent (pings_sent s1 + 1) s1))
  else push_icb_msg "n" [] s.

(** [while (!want_exit && (msg = get_next_icb_msg(&msglen)) != NULL)
        proceed_icb_msg(msg, msglen);] *)
Fixpoint proceed_network (fuel : nat) (ts : bytes) (sk : socket) (c : client)
  : pass_end :=
  match fuel with
  | O => Lost c
  | S fuel' =>
      if want_exit (cl_session c) then Continue c
      else
        match get_next_icb_msg (cl_inbuf c) sk (cl_session c) with
        | (NoMessage, ib, _, s) =>
            Continue (mk_client s ib (cl_sent c) (cl_shown c) (cl_received c))
        | (Message m, ib, sk', s) =>
            let c1 := mk_client s ib (cl_sent c) (cl_shown c)
                                (cl_received c ++ [m]) in
            and_then (lift c1 (proceed_icb_msg ts m s))
                     (proceed_network fuel' ts sk')
        | (DecodeFatal e, ib, _, s) =>
            Exited e (mk_client s ib (cl_sent c) (cl_shown c) (cl_received c))
        | (Unreceived, ib, _, s) =>
            Lost (mk_client s ib (cl_sent c) (cl_shown c) (cl_received c))
        end
  end.

(** [proceed_output(&tasks_net, sock)] *)
Definition flush_net (script : list wr_answer) (c : client) : pass_end :=
  let s := cl_session c in
  match proceed_output (tasks_net s) (mk_fd script (cl_sent c)) with
  | Flushed q fd _ =>
      Continue (mk_client (set_tasks_net q s) (cl_inbuf c) (fd_sink fd)
                          (cl_shown c) (cl_received c))
  | WriteFailed q fd =>
      Exited WriteFailure
        (mk_client s (cl_inbuf c) (fd_sink fd) (cl_shown c) (cl_received c))
  end.

(** [proceed_output(&tasks_stdout, STDOUT_FILENO)] *)
Definition flush_stdout (script : list wr_answer) (c : client) : pass_end :=
  let s := cl_session c in
  match proceed_output (tasks_stdout s) (mk_fd script (cl_shown c)) with
  | Flushed q fd _ =>
      Continue (mk_client (set_tasks_stdout q s) (cl_inbuf c) (cl_sent c)
                          (fd_sink fd) (cl_received c))
  | WriteFailed q fd =>
      Exited WriteFailure
        (mk_client s (cl_inbuf c) (cl_sent c) (fd_sink fd) (cl_received c))
  end.

(** The body of the loop in [main]. *)
Definition main_pass (port : option bytes) (i : pass_input) (c : client)
  : pass_end :=
  let s := cl_session c in
  let c := if in_siginfo i || want_info s
           then with_session (report_info port s) c else c in
  and_then (flush_net (in_net_write i) c) (fun c =>
  and_then (if in_watchdog i then lift c (keepalive (cl_session c))
            else Continue c) (fun c =>
  match in_poll i with
  | PollEintr => Continue c
  | PollError => Exited PollFailed c
  | PollStreamError => Exited StreamError c
  | PollReady =>
      let s := cl_session c in
      if conn_state_eqb (state s) Connecting then
        Continue (with_session
                    (say (lit "connected" ++ [NL]) (set_state Connected s)) c)
      else
        and_then (match in_line i with
                  | Some line => lift c (proceed_user_input line s)
                  | None => Continue c
                  end) (fun c =>
        and_then (if in_net_readable i then
                    let c := with_session (set_pings_sent 0 (cl_session c)) c in
                    proceed_network
                      (S (length (buf (cl_inbuf c)) +
                          length (sk_avail (in_socket i))))
                      (in_clock i) (in_socket i) c
                  else if in_timed_out i then
                    Continue (with_session
                      (set_want_exit true
                         (say (lit "Server timed out, exiting" ++ [NL])
                              (cl_session c))) c)
                  else Continue c)
                 (flush_stdout (in_stdout_write i)))
  end)).

(** [while (!want_exit)]: the passes a run makes on the inputs it meets. *)
Fixpoint main_loop (port : option bytes) (inputs : list pass_input)
    (c : client) : pass_end :=
  match inputs with
  | [] => Continue c
  | i :: inputs' =>
      if want_exit (cl_session c) then Continue c
      else and_then (main_pass port i c) (main_loop port inputs')
  end.

(** The process when [main] enters the loop: [icb_connect] left the state
    at [Connecting] or [Connected] and queued its announcement. *)
Definition initial_client (history_on connected : bool)
    (nick0 hostname0 room0 : bytes) : client :=
  let s := initial_session history_on nick0 hostname0 room0 in
  let s1 := if connected
            then say [NL] (say hostname0 (say (lit "Connected to ")
                   (set_state Connected s)))
            else say (lit "... ") (say hostname0 (say (lit "Connecting to ") s)) in
  mk_client s1 inbuf0 [] [] [].

End Model.

(** ** A platform and inputs to evaluate the model on *)

(** OpenBSD, for which the program was written: LOGIN_NAME_MAX is 32.  The
    display encoding is taken to leave text as it is. *)
Definition openbsd : Platform :=
  {| LOGIN_NAME_MAX := 32;
     strvis := fun b => b;
     user_list_text := fun _ => [];
     group_list_text := fun _ _ => [] |}.

Definition demo_session (st : conn_state) : session :=
  set_state st
    (@initial_session true (lit "alice") (lit "icb.example.org") (lit "lobby")).

(** ** Notions the statements below are written with *)

(** A packet as both encoders build it when a message fits in one: the
    length byte, the type, the body and the terminating NUL. *)
Definition packet (type : ascii) (body : bytes) : bytes :=
  byte_of (length body + 2) :: type :: body ++ [NUL].

(** The bytes the decoder still holds when it is entered. *)
Definition ready (ib : inbuf) (k : bytes) : Prop :=
  match msgend ib with
  | None => buf ib = k
  | Some e => e <= length (buf ib) /\ skipn e (buf ib) = k
  end.

(** Both queues of a session hold well-formed tasks. *)
Definition queues_ok (s : session) : Prop :=
  Forall task_ok (tasks_stdout s) /\ Forall task_ok (tasks_net s).

(** [s'] comes after [s] with the server features and the nickname
    untouched. *)
Definition quiet (s s' : session) : Prop :=
  srv_features s' = srv_features s /\
  (queues_ok s -> queues_ok s') /\
  nick s' = nick s.

(** The one message that changes the server features: an error whose text
    is the refusal of pings. *)
Definition refuses_ping (msg : bytes) : bool :=
  Ascii.eqb (hd NUL msg) "e" && strcmp0 (tl msg) ping_unsupported.

(** The process as a pass or a run left it, however it ended. *)
Definition end_client (r : pass_end) : client :=
  match r with
  | Continue c => c
  | Exited _ c => c
  | Lost c => c
  end.

(** [c'] comes after [c]: the messages handed to [proceed_icb_msg] in
    between are [ms]; the queues stay well formed; the nickname is the
    same; the server features are the same, or the Ping bit was cleared and
    a refusal is among [ms]. *)
Definition follows (c c' : client) : Prop :=
  exists ms,
    cl_received c' = cl_received c ++ ms /\
    (queues_ok (cl_session c) -> queues_ok (cl_session c')) /\
    nick (cl_session c') = nick (cl_session c) /\
    (srv_features (cl_session c') = srv_features (cl_session c) \/
     srv_features (cl_session c') =
       Z.land (srv_features (cl_session c)) (Z.lnot Ping) /\
     existsb refuses_ping ms = true).

(** The process ended in [err_unexpected_msg]. *)
Definition is_unexpected (o : outcome) : bool :=
  match o with
  | Fatal (UnexpectedMsg _) _ => true
  | _ => false
  end.

(** A private message to bob, longer than one packet. *)
Definition private_demo : bytes :=
  lit "m" ++ SOH :: lit "bob " ++ repeat "a"%char 300.

(** A public message whose only blank is its first byte. *)
Definition blank_first_demo : bytes := " "%char :: repeat "x"%char 300.

(** A public message with one blank, after its first word. *)
Definition words_demo : bytes := lit "hello " ++ repeat "x"%char 300.

(** A task of 100 bytes, nothing written yet. *)
Definition demo_task : icb_task := new_task (repeat "x"%char 100).

(** One pass in which only the socket has something: [sk]. *)
Definition net_pass (sk : socket) : pass_input :=
  {| in_siginfo := false;
     in_net_write := [];
     in_watchdog := false;
     in_poll := PollReady;
     in_line := None;
     in_net_readable := true;
     in_socket := sk;
     in_timed_out := false;
     in_clock := lit "[12:00:00]";
     in_stdout_write := [] |}.

Definition demo_client (st : conn_state) : client :=
  mk_client (demo_session st) inbuf0 [] [] [].

(** * More of the program *)

(** The receive buffer is within its allocation with one byte to spare, and
    the allocation is the first 1024 bytes doubled at most ten times. *)
Definition inbuf_ok (ib : inbuf) : Prop :=
  length (buf ib) + 1 <= bufsize ib /\
  exists k, k <= 10 /\ bufsize ib = 1024 * 2 ^ k.


(** A packet whose last byte is not NUL: the length byte counts the type and
    the body only. *)
Definition bare_packet (type : ascii) (body : bytes) : bytes :=
  byte_of (length body + 1) :: type :: body.

(** The states in which the switch of [proceed_icb_msg] takes a message of
    the given type; in any other it calls [err_unexpected_msg]. *)
Definition expected_in (type : ascii) (st : conn_state) : bool :=
  if Ascii.eqb type "a" then conn_state_eqb st LoginSent
  else if Ascii.eqb type "b" || Ascii.eqb type "c" ||
          Ascii.eqb type "d" || Ascii.eqb type "f"
       then conn_state_eqb st CommandSent || conn_state_eqb st Chat
  else if Ascii.eqb type "e" then true
  else if Ascii.eqb type "g" then conn_state_eqb st Chat
  else if Ascii.eqb type "i" then conn_state_eqb st CommandSent
  else if Ascii.eqb type "j" then conn_state_eqb st Connected
  else if Ascii.eqb type "k" then conn_state_eqb st Chat
  else if Ascii.eqb type "n" then conn_state_eqb st Chat
  else true.

(** The login request of the 'j' case:
    [asprintf(&p, "%1$s\001%1$s\001%2$s\001login\001", nick, room)]. *)
Definition login_text (nick0 room0 : bytes) : bytes :=
  cstr nick0 ++ SOH :: cstr nick0 ++ SOH :: cstr room0 ++ SOH ::
  lit "login" ++ [SOH].

(** The output tags of [cmd_handlers]. *)
Definition known_tags : list bytes :=
  [lit "co"; lit "ec"; lit "wl"; lit "wg"; lit "wh"; lit "gh"; lit "ch"; lit "c"].

(** The tags [cmd_handlers] lists with a NULL handler. *)
Definition ignored_tags : list bytes :=
  [lit "wh"; lit "gh"; lit "ch"; lit "c"].

(** A byte that can stand in the name of a command: not the terminator and
    not one of the two blanks [strcspn(line, " \t")] stops at. *)
Definition name_byte (c : ascii) : bool :=
  negb (Ascii.eqb c NUL || Ascii.eqb c " " || Ascii.eqb c "009").

(** How far a session has come: the order of [enum state] up to Chat;
    CommandSent is Chat with a command outstanding. *)
Definition phase (st : conn_state) : nat :=
  match st with
  | Connecting => 0
  | Connected => 1
  | LoginSent => 2
  | Chat => 3
  | CommandSent => 3
  end.

(** [s'] comes after [s] in a run: what is never taken back or rewritten. *)
Definition advances (s s' : session) : Prop :=
  (want_exit s = true -> want_exit s' = true) /\
  phase (state s) <= phase (state s') /\
  hostname s' = hostname s /\
  room s' = room s /\
  enable_history s' = enable_history s /\
  pings_sent s' = pings_sent s.

(** With pings refused by the server, none is counted as outstanding. *)
Definition ping_inv (s : session) : Prop :=
  has_feature Ping s = false -> pings_sent s = 0.

(** The same between two points of the main loop, where the count of pings
    does change. *)
Definition onward (c c' : client) : Prop :=
  (want_exit (cl_session c) = true -> want_exit (cl_session c') = true) /\
  phase (state (cl_session c)) <= phase (state (cl_session c')) /\
  hostname (cl_session c') = hostname (cl_session c) /\
  room (cl_session c') = room (cl_session c) /\
  enable_history (cl_session c') = enable_history (cl_session c) /\
  (ping_inv (cl_session c) -> ping_inv (cl_session c')).





(** Inputs to evaluate the model on. *)

(** A session whose server has refused pings: the handshake up to the login
    request, then the error that answers the first ping. *)
Definition refused_run : list pass_input :=
  [net_pass (mk_sock (packet "e" ping_unsupported) StillOpen)].

(** ** The history files *)

Module HistoryFiles.

(** [strrchr(s, c)] for [c <> NUL]: the offset of the last [c] in the
    string. *)
Fixpoint strrchr (s : bytes) (c : ascii) : option nat :=
  match s with
  | [] => None
  | x :: r =>
      if Ascii.eqb x NUL then None
      else
        match strrchr r c with
        | Some i => Some (S i)
        | None => if Ascii.eqb x c then Some 0 else None
        end
  end.

(** [strlcat(dst, src, size)] on the strings held: the result has at most
    [size - 1] bytes, and [dst] is left alone when it already fills the
    buffer. *)
Definition strlcat (dst src : bytes) (size : nat) : bytes :=
  if size <=? length dst then dst
  else dst ++ firstn (size - 1 - length dst) src.

(** [get_save_path_for]; [home] is what getenv("HOME") returns, [host] and
    [room0] are the globals [hostname] and [room]. *)
Definition get_save_path_for (home host room0 : bytes) (type : ascii)
    (who : bytes) : bytes :=
  let '(who, prefix) :=
    if negb (Ascii.eqb type "c") then (room0, lit "room-")
    else (who, lit "private-") in
  cstr home ++ lit "/.oicb/logs/" ++ cstr host ++ lit "/" ++
  prefix ++ cstr who ++ lit ".log".

(** The directories that exist, by the path they were made under, and the
    paths under which mkdir(2) fails for another reason than the two the
    program looks at.  The root and the working directory always exist. *)
Record filesys := mk_fs {
  fs_dirs : list bytes;
  fs_denied : list bytes
}.

Inductive mkdir_answer :=
| MkDone
| MkExist
| MkNoEnt
| MkOther.

Definition mem (p : bytes) (l : list bytes) : bool := existsb (bytes_eqb p) l.

(** The directory a new entry [p] goes into is there. *)
Definition parent_exists (p : bytes) (dirs : list bytes) : bool :=
  match strrchr p "/" with
  | None => true
  | Some O => true
  | Some i => mem (firstn i p) dirs
  end.

(** [mkdir(p, 0777)] *)
Definition mkdir (p : bytes) (fs : filesys) : mkdir_answer * filesys :=
  if mem p (fs_denied fs) then (MkOther, fs)
  else if mem p (fs_dirs fs) then (MkExist, fs)
  else
    match p with
    | [] => (MkNoEnt, fs)
    | _ :: _ =>
        if parent_exists p (fs_dirs fs)
        then (MkDone, mk_fs (p :: fs_dirs fs) (fs_denied fs))
        else (MkNoEnt, fs)
    end.

(** The buffer with the byte at offset [i] replaced by [c]. *)
Definition poke (buffer : bytes) (i : nat) (c : ascii) : bytes :=
  firstn i buffer ++ c :: skipn (S i) buffer.

(** [create_dir_for]: the result ([true] for 0, [false] for -1), the file
    system and the buffer [path] points to as the call leaves them.  The
    recursion is on a string that got shorter, [fuel] bounds its depth. *)
Fixpoint create_dir_for (fuel : nat) (path : bytes) (fs : filesys)
  : option (bool * filesys * bytes) :=
  match fuel with
  | O => None
  | S fuel' =>
      match strrchr path "/" with
      | None => Some (false, fs, path)
      | Some i =>
          let path1 := poke path i NUL in
          match mkdir (cstr path1) fs with
          | (MkDone, fs1) | (MkExist, fs1) => Some (true, fs1, poke path1 i "/")
          | (MkOther, fs1) => Some (false, fs1, poke path1 i "/")
          | (MkNoEnt, fs1) =>
              match create_dir_for fuel' path1 fs1 with
              | None => None
              | Some (false, fs2, path2) => Some (false, fs2, poke path2 i "/")
              | Some (true, fs2, path2) =>
                  let (a, fs3) := mkdir (cstr path2) fs2 in
                  Some (match a with MkDone => true | _ => false end,
                        fs3, poke path2 i "/")
              end
          end
      end
  end.

(** [struct history_file] *)
Record history_file := mk_hf {
  hf_tasks : icb_task_queue;
  hf_path : bytes;
  hf_ntasks : nat;
  hf_fd : option nat;
  hf_permerr : bool;
  hf_last_access : Z
}.

(** The strings of [path] and of the file's path are the same. *)
Definition same_path (path : bytes) (hf : history_file) : bool :=
  strcmp0 (hf_path hf) path.

(** [get_history_file]: the list and the file system afterwards, and whether
    a file was returned; the file returned is the first of the list whose
    path is [path]. *)
Definition get_history_file (path : bytes) (files : list history_file)
    (fs : filesys) : bool * list history_file * filesys :=
  if existsb (same_path path) files then (true, files, fs)
  else
    match create_dir_for (S (length (cstr path))) (cstr path) fs with
    | Some (true, fs', path') =>
        (true,
         {| hf_tasks := []; hf_path := path'; hf_ntasks := 0; hf_fd := None;
            hf_permerr := false; hf_last_access := 0 |} :: files,
         fs')
    | Some (false, fs', _) => (false, files, fs')
    | None => (false, files, fs)
    end.

Definition datelen : nat := 20.

(** The task [save_history] builds; [date] is what strftime writes for
    "%Y-%m-%d %H:%M:%S ".  [None] when that does not fit in the buffer and
    strftime leaves its contents undefined. *)
Definition history_task (date who msg : bytes) : option icb_task :=
  let datasz := datelen + strlen who + 2 + strlen msg + 1 in
  if datasz <=? length (cstr date) then None
  else
    let text := strlcat (strlcat (strlcat (cstr date) (cstr who) datasz)
                                 (lit ": ") datasz)
                        (cstr msg) datasz in
    Some {| it_len := datasz;
            it_ndone := 0;
            it_cb := None;
            it_data := firstn (datasz - 1) (text ++ repeat NUL datasz) ++ [NL] |}.

(** [SIMPLEQ_INSERT_TAIL(&hf->hf_tasks, it, it_entry)] on the file
    [get_history_file] returned. *)
Fixpoint queue_on (path : bytes) (it : icb_task) (files : list history_file)
  : list history_file :=
  match files with
  | [] => []
  | hf :: files' =>
      if same_path path hf
      then {| hf_tasks := hf_tasks hf ++ [it]; hf_path := hf_path hf;
              hf_ntasks := hf_ntasks hf; hf_fd := hf_fd hf;
              hf_permerr := hf_permerr hf;
              hf_last_access := hf_last_access hf |} :: files'
      else hf :: queue_on path it files'
  end.

(** [save_history], on the list of history files and the file system.
    [None] stands for the record whose contents strftime left undefined. *)
Definition save_history (enabled : bool) (home host room0 date : bytes)
    (type : ascii) (who msg : bytes) (files : list history_file)
    (fs : filesys) : option (list history_file * filesys) :=
  if negb enabled then Some (files, fs)
  else
    let path := get_save_path_for home host room0 type who in
    match get_history_file path files fs with
    | (false, files', fs') => Some (files', fs')
    | (true, files', fs') =>
        match history_task date who msg with
        | Some it => Some (queue_on path it files', fs')
        | None => None
        end
    end.

(** What [proceed_history] meets from outside: the paths open(2) refuses,
    the descriptors that are open with the path of each, the number open(2)
    hands out next, the answers of write(2) still to come, and what was
    appended so far, path by path in the order of the writes. *)
Record hist_os := mk_os {
  os_refused : list bytes;
  os_fds : list (nat * bytes);
  os_next : nat;
  os_script : list wr_answer;
  os_log : list (bytes * bytes)
}.

(** [open(path, O_WRONLY|O_CREAT|O_APPEND|O_NONBLOCK, 0666)] *)
Definition os_open (path : bytes) (os : hist_os) : option nat * hist_os :=
  if mem (cstr path) (os_refused os) then (None, os)
  else (Some (os_next os),
        mk_os (os_refused os) ((os_next os, cstr path) :: os_fds os)
              (S (os_next os)) (os_script os) (os_log os)).

(** [close(fd)] *)
Definition os_close (fd : nat) (os : hist_os) : hist_os :=
  mk_os (os_refused os)
        (filter (fun e => negb (fst e =? fd)) (os_fds os))
        (os_next os) (os_script os) (os_log os).

Inductive write_end :=
| WroteAll
| WriteAgain
| WriteError.

(** The do-while loop around write(2) for one task: [out] collects what the
    kernel took. *)
Fixpoint write_task (script : list wr_answer) (it : icb_task) (out : bytes)
  : write_end * icb_task * bytes * list wr_answer :=
  match script with
  | [] => (WriteAgain, it, out, [])
  | WrAgain :: script' => (WriteAgain, it, out, script')
  | WrError :: script' => (WriteError, it, out, script')
  | WrRoom n :: script' =>
      let nwritten := Nat.min n (it_len it - it_ndone it) in
      let it' := task_advance nwritten it in
      let out' := out ++ firstn nwritten (task_rest it) in
      if it_ndone it' <? it_len it' then write_task script' it' out'
      else (WroteAll, it', out', script')
  end.

(** The while loop over the tasks of one file. *)
Fixpoint write_tasks (script : list wr_answer) (q : icb_task_queue) (out : bytes)
  : write_end * icb_task_queue * bytes * list wr_answer :=
  match q with
  | [] => (WroteAll, [], out, script)
  | it :: q' =>
      match write_task script it out with
      | (WroteAll, _, out', script') => write_tasks script' q' out'
      | (e, it', out', script') => (e, it' :: q', out', script')
      end
  end.

Definition with_script (script : list wr_answer) (os : hist_os) : hist_os :=
  mk_os (os_refused os) (os_fds os) (os_next os) script (os_log os).

Definition logged (path data : bytes) (os : hist_os) : hist_os :=
  mk_os (os_refused os) (os_fds os) (os_next os) (os_script os)
        (os_log os ++ [(cstr path, data)]).

(** [if (hf->hf_fd == -1)]: the file is opened, and when that fails its
    tasks are dropped and the error is marked permanent. *)
Definition reopen (hf : history_file) (os : hist_os) : history_file * hist_os :=
  match hf_fd hf with
  | Some _ => (hf, os)
  | None =>
      match os_open (hf_path hf) os with
      | (Some fd, os') =>
          (mk_hf (hf_tasks hf) (hf_path hf) (hf_ntasks hf) (Some fd)
                 (hf_permerr hf) (hf_last_access hf), os')
      | (None, os') =>
          (mk_hf [] (hf_path hf) 0 None true (hf_last_access hf), os')
      end
  end.

(** The body of the loop of [proceed_history] for one file: the file as it
    stays in the list, or [None] when it was removed from it. *)
Definition proceed_history_file (now : Z) (hf : history_file) (os : hist_os)
  : option history_file * hist_os :=
  if hf_permerr hf then (Some hf, os)
  else
    let (hf1, os1) := reopen hf os in
    match write_tasks (os_script os1) (hf_tasks hf1) [] with
    | (WroteAll, q, out, script) =>
        let os2 := logged (hf_path hf1) out (with_script script os1) in
        if (hf_last_access hf1 <? now)%Z then (None, os2)
        else (Some (mk_hf q (hf_path hf1) (hf_ntasks hf1) (hf_fd hf1)
                          (hf_permerr hf1) (hf_last_access hf1)), os2)
    | (WriteAgain, q, out, script) =>
        (Some (mk_hf q (hf_path hf1) (hf_ntasks hf1) (hf_fd hf1)
                     (hf_permerr hf1) (hf_last_access hf1)),
         logged (hf_path hf1) out (with_script script os1))
    | (WriteError, q, out, script) =>
        let os2 := logged (hf_path hf1) out (with_script script os1) in
        (Some (mk_hf q (hf_path hf1) (hf_ntasks hf1) None
                     (hf_permerr hf1) (hf_last_access hf1)),
         match hf_fd hf1 with
         | Some fd => os_close fd os2
         | None => os2
         end)
    end.

(** [proceed_history]: the files in the order of the list. *)
Fixpoint proceed_history (now : Z) (files : list history_file) (os : hist_os)
  : list history_file * hist_os :=
  match files with
  | [] => ([], os)
  | hf :: files' =>
      let (kept, os1) := proceed_history_file now hf os in
      let (rest, os2) := proceed_history now files' os1 in
      (match kept with
       | Some hf' => hf' :: rest
       | None => rest
       end, os2)
  end.

End HistoryFiles.

(** The path of a history file, as a string. *)
Definition path_of (hf : HistoryFiles.history_file) : bytes :=
  cstr (HistoryFiles.hf_path hf).

(** No two history files of the list have the same path. *)
Definition unique_paths (files : list HistoryFiles.history_file) : Prop :=
  NoDup (map path_of files).

(** A history file as the program keeps it between two passes: never
    accessed, no task counted, no permanent error, well-formed tasks. *)
Definition hf_sound (hf : HistoryFiles.history_file) : Prop :=
  HistoryFiles.hf_last_access hf = 0%Z /\
  HistoryFiles.hf_ntasks hf = 0 /\
  HistoryFiles.hf_permerr hf = false /\
  Forall task_ok (HistoryFiles.hf_tasks hf).

(** What was appended to [path], in the order of the writes. *)
Definition appended (path : bytes) (log : list (bytes * bytes)) : bytes :=
  concat (map snd (filter (fun e => bytes_eqb (fst e) (cstr path)) log)).

(** What is still queued for [path]. *)
Definition pending (path : bytes) (files : list HistoryFiles.history_file)
  : bytes :=
  queue_rest (concat (map HistoryFiles.hf_tasks
                        (filter (HistoryFiles.same_path path) files))).



(** A file system with nothing in the way and nothing made yet, and the
    outside of [proceed_history] with nothing open and one write to come
    that takes up to [n] bytes. *)
Definition empty_fs : HistoryFiles.filesys := HistoryFiles.mk_fs [] [].

Definition quiet_os (n : nat) : HistoryFiles.hist_os :=
  HistoryFiles.mk_os [] [] 3 [WrRoom n] [].

(** The date of a record, 20 bytes. *)
Definition demo_date : bytes := lit "2020-01-02 03:04:05 ".

(** A history file with one record queued and no descriptor. *)
Definition demo_file : HistoryFiles.history_file :=
  HistoryFiles.mk_hf [new_task (lit "a line" ++ [NL])]
    (lit "/home/u/.oicb/logs/h/room-r.log") 0 None false 0.

(** ** The start of [main] *)

Section Startup.
Context {P : Platform}.

(** How the process ends between getopt and the connection: one of the
    three calls of [usage], or [strlen] applied to the null pointer that
    getlogin() returned. *)
Inductive usage_error :=
| BadArguments
| InvalidHostname
| TooLongNickname
| NoLoginName.

(** What [main] takes from its two arguments: the globals [nick],
    [hostname] and [room], and the local [port]. *)
Record target := mk_target {
  tg_nick : bytes;
  tg_hostname : bytes;
  tg_port : option bytes;
  tg_room : bytes
}.

(** [main] from [if (argc != 2)] to the call of [icb_connect]; [args] is
    argv after the options, [login] what getlogin() returns, [None] for
    the null pointer. *)
Definition parse_target (args : list bytes) (login : option bytes)
  : target + usage_error :=
  match args with
  | [arg0; arg1] =>
      let arg := cstr arg0 in
      let named :=
        match strchr arg "@" with
        | Some i =>
            match skipn (S i) arg with
            | [] => inr InvalidHostname
            | host => inl (firstn i arg, host)
            end
        | None =>
            match login with
            | Some name => inl (cstr name, arg)
            | None => inr NoLoginName
            end
        end in
      match named with
      | inr e => inr e
      | inl (nick0, host) =>
          if NICKNAME_MAX <=? length nick0 then inr TooLongNickname
          else
            match strchr host ":" with
            | Some j =>
                inl (mk_target nick0 (firstn j host) (Some (skipn (S j) host))
                               (cstr arg1))
            | None => inl (mk_target nick0 host None (cstr arg1))
            end
      end
  | _ => inr BadArguments
  end.

End Startup.

(** ** Connecting *)

(** What connect(2) answers on the non-blocking socket. *)
Inductive connect_answer :=
| ConnDone
| ConnInProgress
| ConnFailed.

(** One address of the list getaddrinfo returns, with what the kernel will
    answer for it: the descriptor socket(2) hands out, if any, and the
    answer of connect(2). *)
Record addrinfo := mk_ai {
  ai_socket : option nat;
  ai_connect : connect_answer
}.

(** How [icb_connect] ends: it returns with the global [sock] set, or the
    process ends in "could not resolve hostname" or "could not connect".
    [open] lists the sockets created and not closed. *)
Inductive connect_end :=
| Linked (s : session) (sock : nat) (open : list nat)
| Unresolved
| NoConnection (open : list nat).

(** The loop over the addresses. *)
Fixpoint connect_loop (res : list addrinfo) (s : session) (open : list nat)
  : connect_end :=
  match res with
  | [] => NoConnection open
  | p :: res' =>
      match ai_socket p with
      | None => connect_loop res' s open
      | Some fd =>
          match ai_connect p with
          | ConnFailed => connect_loop res' s open
          | ConnInProgress =>
              Linked (say (lit "... ") (say (hostname s)
                        (say (lit "Connecting to ") (set_state Connecting s))))
                     fd (fd :: open)
          | ConnDone =>
              Linked (say [NL] (say (hostname s)
                        (say (lit "Connected to ") (set_state Connected s))))
                     fd (fd :: open)
          end
      end
  end.

(** [icb_connect]; [res] is the answer of getaddrinfo, [None] its failure. *)
Definition icb_connect (res : option (list addrinfo)) (s : session)
  : connect_end :=
  match res with
  | None => Unresolved
  | Some l => connect_loop l s []
  end.

(** The port [icb_connect] asks getaddrinfo for. *)
Definition connect_port (port : option bytes) : bytes :=
  match port with
  | Some p => p
  | None => lit "7326"
  end.

(** ** The line being typed, around output *)

(** The variables of readline the program touches and its own copies of
    them; [rl_line_buffer] is the whole buffer, the line being the string
    at its start; [rl_shown] is what [rl_redisplay] was called on, line and
    point. *)
Record rl_state := mk_rl {
  rl_line_buffer : bytes;
  rl_point : nat;
  rl_mark : nat;
  o_rl_buf : option bytes;
  o_rl_point : nat;
  o_rl_mark : nat;
  rl_shown : list (bytes * nat)
}.

(** [prepare_stdout]; [None] is the internal error. *)
Definition prepare_stdout (r : rl_state) : option rl_state :=
  match o_rl_buf r with
  | Some _ => None
  | None =>
      let line := cstr (rl_line_buffer r) in
      let blank := map (fun _ => " "%char) line in
      Some {| rl_line_buffer := blank ++ skipn (length line) (rl_line_buffer r);
              rl_point := 0;
              rl_mark := 0;
              o_rl_buf := Some line;
              o_rl_point := rl_point r;
              o_rl_mark := rl_mark r;
              rl_shown := rl_shown r ++ [(blank, 0)] |}
  end.

(** [restore_rl]; [None] when there is no copy to take the line from.
    [strlcpy] writes the copy and its terminator over the start of the
    buffer, which [rl_extend_line_buffer] made long enough. *)
Definition restore_rl (r : rl_state) : option rl_state :=
  match o_rl_buf r with
  | None => None
  | Some saved =>
      let line := cstr saved in
      Some {| rl_line_buffer :=
                line ++ NUL :: skipn (S (length line)) (rl_line_buffer r);
              rl_point := o_rl_point r;
              rl_mark := o_rl_mark r;
              o_rl_buf := None;
              o_rl_point := o_rl_point r;
              o_rl_mark := o_rl_mark r;
              rl_shown := rl_shown r ++ [(line, o_rl_point r)] |}
  end.

(** An address [icb_connect] can use: a socket was made for it and connect
    did not fail outright. *)
Definition usable (p : addrinfo) : bool :=
  match ai_socket p, ai_connect p with
  | Some _, ConnDone | Some _, ConnInProgress => true
  | _, _ => false
  end.

(** ** Passes of the main loop *)

(** One pass in which only the socket takes something: up to [n] bytes. *)
Definition write_pass (n : nat) : pass_input :=
  {| in_siginfo := false;
     in_net_write := [WrRoom n];
     in_watchdog := false;
     in_poll := PollReady;
     in_line := None;
     in_net_readable := false;
     in_socket := mk_sock [] StillOpen;
     in_timed_out := false;
     in_clock := lit "[12:00:00]";
     in_stdout_write := [] |}.

(** A client between two passes with nothing half-read and no request
    to leave or to report. *)
Definition at_rest (c : client) : Prop :=
  want_exit (cl_session c) = false /\
  want_info (cl_session c) = false /\
  ready (cl_inbuf c) [] /\
  1 <= bufsize (cl_inbuf c).

(** ** What the loop waits for *)

(** An entry of the array given to poll(2): the descriptor and, of the
    events asked for, POLLIN and POLLOUT.  [memset] leaves descriptor 0 and
    no event. *)
Record pollfd := mk_pollfd {
  pfd_fd : Z;
  pfd_in : bool;
  pfd_out : bool
}.

Definition MainFDCount : nat := 3.

(** [hf_fd] as the integer it is: -1 while the file is not open. *)
Definition fd_number (fd : option nat) : Z :=
  match fd with
  | Some n => Z.of_nat n
  | None => (-1)%Z
  end.

Definition nonempty {A} (l : list A) : bool :=
  match l with
  | [] => false
  | _ :: _ => true
  end.

(** [update_pollfds]: [npfd] is the length of the array so far, [sock] the
    socket; the result is the new length and the array, whose first three
    entries are Network, Stdout and Stdin. *)
Definition update_pollfds (npfd : nat) (sock : Z) (s : session)
    (files : list HistoryFiles.history_file) : nat * list pollfd :=
  let newnpfd := MainFDCount + length files in
  let npfd' := if npfd <? newnpfd then newnpfd else npfd in
  (npfd',
   [ mk_pollfd sock true (nonempty (tasks_net s));
     mk_pollfd 1 false (nonempty (tasks_stdout s));
     mk_pollfd 0 (negb (conn_state_eqb (state s) Connecting)) false ] ++
   map (fun hf => mk_pollfd (fd_number (HistoryFiles.hf_fd hf)) false
                    (negb (HistoryFiles.hf_ntasks hf =? 0))) files ++
   repeat (mk_pollfd 0 false false) (npfd' - newnpfd)).

(** * Properties of the model *)

Section Proofs.
Context {P : Platform}.

(** ** Bytes and the standard encoder *)

Lemma uchar_small n : n < 256 -> uchar n = n.
Proof. intro H. unfold uchar. now apply Nat.mod_small. Qed.

Lemma uchar_lt n : uchar n < 256.
Proof. unfold uchar. apply Nat.mod_upper_bound. discriminate. Qed.

Lemma byte_of_val n : n < 256 -> nat_of_ascii (byte_of n) = n.
Proof.
  intro H. unfold byte_of. rewrite (uchar_small _ H).
  now apply nat_ascii_embedding.
Qed.

Lemma byte_of_not_NUL n : 0 < n < 256 -> Ascii.eqb (byte_of n) NUL = false.
Proof.
  intros [H0 H1]. apply Ascii.eqb_neq. intro E.
  apply (f_equal nat_of_ascii) in E. rewrite byte_of_val in E by assumption.
  cbn in E. lia.
Qed.

Lemma NICKNAME_MAX_le : NICKNAME_MAX <= 64.
Proof.
  unfold NICKNAME_MAX. destruct (64 <? LOGIN_NAME_MAX) eqn:E.
  - lia.
  - apply Nat.ltb_ge in E. exact E.
Qed.

Lemma strchr_lt s c off : strchr s c = Some off -> off < length s.
Proof.
  revert off. induction s as [|x r IH]; intros off H; simpl in H.
  - discriminate.
  - destruct (Ascii.eqb x NUL); [discriminate|].
    destruct (Ascii.eqb x c).
    + inversion H. simpl. lia.
    + destruct (strchr r c) as [k|]; simpl in H; [|discriminate].
      inversion H. simpl. specialize (IH k eq_refl). lia.
Qed.

Lemma ws_commonlen_bound type msg :
  ws_commonlen type msg <= NICKNAME_MAX + 3 /\ ws_commonlen type msg <= length msg.
Proof.
  unfold ws_commonlen. pose proof NICKNAME_MAX_le as HN.
  destruct (is_privmsg type msg); [|lia].
  destruct (strchr msg " ") as [off|] eqn:E; [|lia].
  destruct (off <? NICKNAME_MAX + 3) eqn:L; [|lia].
  apply Nat.ltb_lt in L. apply strchr_lt in E.
  rewrite (uchar_small off) by lia. rewrite uchar_small by lia. lia.
Qed.

Lemma ws_maxlen_eq nick c :
  nick_ok nick = true -> c <= NICKNAME_MAX + 3 ->
  ws_maxlen nick c = 252 - strlen nick - c /\ 122 <= ws_maxlen nick c.
Proof.
  intros Hn Hc. pose proof NICKNAME_MAX_le as HN.
  unfold nick_ok in Hn. apply Nat.ltb_lt in Hn.
  unfold ws_maxlen, ucharZ. rewrite uchar_small by lia.
  rewrite Z.mod_small by lia. lia.
Qed.

Lemma ws_scan_spec src i m :
  i < 255 ->
  (ws_scan src i m = m /\ forall j, 1 <= j <= i -> isblank (nth j src NUL) || ispunct (nth j src NUL) = false)
  \/ (exists k, 1 <= k <= i /\ ws_scan src i m = k + 1 /\
        isblank (nth k src NUL) || ispunct (nth k src NUL) = true /\
        forall j, k < j <= i -> isblank (nth j src NUL) || ispunct (nth j src NUL) = false).
Proof.
  induction i as [|i IH]; intro Hi.
  - left. split; [reflexivity|]. intros j Hj. lia.
  - simpl. destruct (isblank (nth (S i) src NUL) || ispunct (nth (S i) src NUL)) eqn:E.
    + right. exists (S i). split; [lia|]. split; [|split].
      * rewrite uchar_small by lia. reflexivity.
      * exact E.
      * intros j Hj. lia.
    + destruct IH as [[H1 H2]|[k [Hk [H1 [H2 H3]]]]]; [lia| |].
      * left. split; [exact H1|]. intros j Hj.
        destruct (Nat.eq_dec j (S i)) as [->|Hne]; [exact E|apply H2; lia].
      * right. exists k. split; [lia|]. split; [exact H1|]. split; [exact H2|].
        intros j Hj. destruct (Nat.eq_dec j (S i)) as [->|Hne]; [exact E|apply H3; lia].
Qed.

Lemma ws_msglen_bound split src maxlen :
  1 <= maxlen <= 255 ->
  ws_msglen split src maxlen <= maxlen /\
  ws_msglen split src maxlen <= length src /\
  (src <> [] -> 1 <= ws_msglen split src maxlen).
Proof.
  intros Hm. unfold ws_msglen.
  destruct (maxlen <? length src) eqn:L.
  - apply Nat.ltb_lt in L. destruct split.
    + destruct (ws_scan_spec src (maxlen - 1) maxlen) as [[H1 _]|[k [Hk [H1 _]]]]; [lia| |];
        rewrite H1; lia.
    + lia.
  - apply Nat.ltb_ge in L. rewrite uchar_small by lia.
    repeat split; try lia. intro Hs. destruct src; [congruence|simpl; lia].
Qed.

Lemma ws_packet_chunk type msg c src msglen :
  msglen <= length src ->
  ws_packet type msg c src msglen =
  ws_packet type msg c (firstn msglen src) (length (firstn msglen src)).
Proof.
  intro H. unfold ws_packet.
  assert (L : length (firstn msglen src) = msglen)
    by (rewrite length_firstn; apply Nat.min_l; exact H).
  rewrite L, firstn_firstn, Nat.min_id. reflexivity.
Qed.

Lemma ws_loop_spec type split msg c maxlen :
  1 <= maxlen <= 255 ->
  forall fuel src, length src < fuel ->
  exists chunks,
    ws_loop fuel type split msg c src maxlen =
      Some (map (fun ch => ws_packet type msg c ch (length ch)) chunks) /\
    concat chunks = src /\
    chunks <> [] /\
    Forall (fun ch => length ch <= maxlen) chunks /\
    length chunks <= S (length src) /\
    hd [] chunks = firstn (ws_msglen split src maxlen) src.
Proof.
  intros Hm. induction fuel as [|fuel IH]; intros src Hf; [lia|].
  destruct (ws_msglen_bound split src maxlen Hm) as [B1 [B2 B3]].
  cbn [ws_loop]. set (msglen := ws_msglen split src maxlen) in *.
  rewrite (ws_packet_chunk type msg c _ _ B2).
  destruct (length (skipn msglen src) =? 0) eqn:E.
  - apply Nat.eqb_eq in E. apply length_zero_iff_nil in E.
    exists [firstn msglen src]. cbn [map concat hd length].
    split; [reflexivity|]. split.
    + rewrite app_nil_r. rewrite <- (firstn_skipn msglen src) at 2.
      rewrite E, app_nil_r. reflexivity.
    + split; [discriminate|]. split.
      * constructor; [|constructor]. rewrite length_firstn. lia.
      * split; [lia|reflexivity].
  - apply Nat.eqb_neq in E. rewrite length_skipn in E.
    assert (Hs : src <> []) by (intro; subst src; simpl in E; lia).
    specialize (B3 Hs).
    destruct (IH (skipn msglen src)) as [chunks [H1 [H2 [H3 [H4 [H5 _]]]]]].
    { rewrite length_skipn. lia. }
    exists (firstn msglen src :: chunks). rewrite H1. cbn [option_map map concat hd length].
    split; [reflexivity|]. split.
    + rewrite H2. apply firstn_skipn.
    + split; [discriminate|]. split.
      * constructor; [rewrite length_firstn; lia|exact H4].
      * split; [|reflexivity]. rewrite length_skipn in H5. lia.
Qed.

(** The shape of what [push_icb_msg_ws] queues. *)
Lemma push_icb_msg_ws_spec nick type msg :
  nick_ok nick = true ->
  let c := ws_commonlen type msg in
  let maxlen := ws_maxlen nick c in
  exists chunks,
    push_icb_msg_ws nick type msg =
      Some (map (fun ch => ws_packet type msg c ch (length ch)) chunks) /\
    concat chunks = skipn c msg /\
    chunks <> [] /\
    Forall (fun ch => length ch <= maxlen) chunks /\
    length chunks <= S (length msg) /\
    hd [] chunks =
      firstn (ws_msglen (Ascii.eqb type "b" || is_privmsg type msg)
                        (skipn c msg) maxlen) (skipn c msg).
Proof.
  intros Hn c maxlen.
  destruct (ws_commonlen_bound type msg) as [C1 C2].
  destruct (ws_maxlen_eq nick _ Hn C1) as [M1 M2].
  fold c in C1, C2, M1, M2. fold maxlen in M1, M2.
  assert (Hm : 1 <= maxlen <= 255) by lia.
  destruct (ws_loop_spec type (Ascii.eqb type "b" || is_privmsg type msg) msg c maxlen Hm
              (S (length (skipn c msg))) (skipn c msg)) as [chunks [H1 [H2 [H3 [H4 [H5 H6]]]]]];
    [lia|].
  exists chunks. unfold push_icb_msg_ws. fold c. fold maxlen.
  split; [exact H1|]. split; [exact H2|]. split; [exact H3|]. split; [exact H4|].
  split; [|exact H6]. rewrite length_skipn in H5. lia.
Qed.

(** ** The decoder on well-formed packets *)

Lemma BUF_MAX_big : 150 * 1024 < BUF_MAX.
Proof. unfold BUF_MAX. lia. Qed.

Lemma read_loop_all fuel :
  forall b size rr avail s,
  length avail < fuel ->
  length b + length avail + 1 < BUF_MAX ->
  length b + 1 <= size ->
  exists size',
    read_loop fuel (mk_rd b size rr (mk_sock avail StillOpen) s) =
      RdDone (mk_rd (b ++ avail) size' (rr + length avail)
                    (mk_sock [] StillOpen) s) /\
    length (b ++ avail) + 1 <= size'.
Proof.
  induction fuel as [|fuel IH]; intros b size rr avail s Hf Hmax Hsz; [lia|].
  cbn [read_loop rs_buf rs_bufsize rs_roundread rs_sock rs_session].
  assert (G : (length b =? size - 1) && (BUF_MAX <=? size) = false).
  { destruct (length b =? size - 1) eqn:E1; [|reflexivity].
    destruct (BUF_MAX <=? size) eqn:E2; [|reflexivity].
    apply Nat.eqb_eq in E1. apply Nat.leb_le in E2. lia. }
  rewrite G.
  set (size' := if length b =? size - 1 then 2 * size else size).
  assert (Hs' : length b + 2 <= size').
  { unfold size'. destruct (length b =? size - 1) eqn:E1.
    - apply Nat.eqb_eq in E1. lia.
    - apply Nat.eqb_neq in E1. lia. }
  destruct avail as [|a r].
  - cbn [sock_read sk_avail sk_end]. exists size'.
    rewrite app_nil_r. cbn [length]. rewrite Nat.add_0_r. split; [reflexivity|lia].
  - unfold sock_read. cbn [sk_avail sk_end].
    destruct (size' - length b - 1) as [|n] eqn:En; [lia|].
    cbn [firstn skipn].
    destruct (IH (b ++ a :: firstn n r) size' (rr + length (a :: firstn n r))
                 (skipn n r) s) as [size'' [H1 H2]].
    + rewrite length_skipn. cbn [length] in Hf. lia.
    + rewrite length_app, length_skipn. cbn [length] in *.
      rewrite length_firstn. lia.
    + rewrite length_app. cbn [length]. rewrite length_firstn. lia.
    + exists size''. rewrite H1.
      replace ((b ++ a :: firstn n r) ++ skipn n r) with (b ++ a :: r) in *.
      2:{ rewrite <- app_assoc. cbn [app]. rewrite firstn_skipn. reflexivity. }
      split; [|exact H2]. f_equal. f_equal.
      cbn [length]. rewrite length_firstn, length_skipn. lia.
Qed.

Lemma find_lastpkt_head fuel c r :
  Ascii.eqb c NUL = false -> find_lastpkt (S fuel) (c :: r) 0 = Some (Some 0).
Proof. intro H. cbn [find_lastpkt nth_error]. rewrite H. reflexivity. Qed.

Lemma compact_single fuel c t r :
  compact (S (S fuel)) (c :: t :: r) 0 0 = Compacted (c :: t :: r).
Proof.
  cbn [compact]. change (0 <? 0) with false. cbv iota.
  change (nth_error (c :: t :: r) (0 + 1)) with (Some t).
  cbv iota. rewrite Ascii.eqb_refl. cbn [negb]. change (0 =? 0) with true. cbv iota.
  change (0 <? 0 + 256) with true. reflexivity.
Qed.

Lemma extract_msg_packet type body rest size :
  length body + 2 <= 255 ->
  extract_msg (packet type body ++ rest) size =
    (Message (type :: body),
     mk_inbuf (packet type body ++ rest) (Some (length body + 3)) size).
Proof.
  intro Hb. unfold extract_msg, packet. cbn [app length].
  rewrite find_lastpkt_head by (apply byte_of_not_NUL; lia).
  cbn [nth]. rewrite byte_of_val by lia.
  replace (S (S (length ((body ++ [NUL]) ++ rest))) <? 0 + (length body + 2)) with false.
  2:{ symmetry. apply Nat.ltb_ge. rewrite !length_app. cbn [length]. lia. }
  rewrite compact_single.
  replace (0 + 1 + (length body + 2) - 1) with (S (S (length body))) by lia.
  cbn [nth_error]. rewrite <- app_assoc.
  rewrite nth_error_app2 by lia. rewrite Nat.sub_diag. cbn [app nth_error].
  rewrite Ascii.eqb_refl. cbn [negb skipn].
  replace (0 + 1 + (length body + 2) - 2) with (S (length body)) by lia.
  cbn [firstn]. rewrite firstn_app, Nat.sub_diag, firstn_all. cbn [firstn].
  rewrite app_nil_r.
  replace (0 + 1 + (length body + 2)) with (length body + 3) by lia.
  reflexivity.
Qed.

Lemma ready_kept ib k :
  ready ib k ->
  match msgend ib with
  | None => Some (buf ib)
  | Some e => if e <=? length (buf ib) then Some (skipn e (buf ib)) else None
  end = Some k.
Proof.
  unfold ready. destruct (msgend ib) as [e|].
  - intros [H1 H2]. apply Nat.leb_le in H1. rewrite H1, H2. reflexivity.
  - intros ->. reflexivity.
Qed.

Lemma get_next_packet ib avail s k type body rest :
  ready ib k ->
  k ++ avail = packet type body ++ rest ->
  length body + 2 <= 255 ->
  length (k ++ avail) + 1 < BUF_MAX ->
  length k + 1 <= bufsize ib ->
  exists ib',
    get_next_icb_msg ib (mk_sock avail StillOpen) s =
      (Message (type :: body), ib', mk_sock [] StillOpen, s) /\
    ready ib' rest /\ length rest + 1 <= bufsize ib'.
Proof.
  intros Hr Hk Hb Hmax Hsz. unfold get_next_icb_msg. cbv zeta.
  rewrite (ready_kept ib k Hr). cbn [sk_avail].
  rewrite length_app in Hmax.
  destruct (read_loop_all (S (length avail)) k (bufsize ib) 0 avail s)
    as [size' [H1 H2]]; [lia|lia|lia|].
  rewrite H1. cbn [rs_buf rs_bufsize rs_roundread rs_sock rs_session].
  rewrite Hk in *.
  replace (length (packet type body ++ rest) =? 0) with false.
  2:{ symmetry. apply Nat.eqb_neq. unfold packet. cbn [app length]. lia. }
  cbn [andb]. rewrite extract_msg_packet by exact Hb.
  eexists. split; [reflexivity|]. unfold ready. cbn [msgend buf bufsize].
  assert (L : length (packet type body) = length body + 3).
  { unfold packet. cbn [length]. rewrite length_app. cbn [length]. lia. }
  split; [split|].
  - rewrite length_app. lia.
  - rewrite skipn_app, <- L, skipn_all, Nat.sub_diag. reflexivity.
  - rewrite length_app in H2. lia.
Qed.

Lemma get_next_drained ib s :
  ready ib [] -> 1 <= bufsize ib -> 1 < BUF_MAX ->
  exists ib',
    get_next_icb_msg ib (mk_sock [] StillOpen) s =
      (NoMessage, ib', mk_sock [] StillOpen, s).
Proof.
  intros Hr Hsz Hmax. unfold get_next_icb_msg. cbv zeta.
  rewrite (ready_kept ib [] Hr). cbn [sk_avail].
  destruct (read_loop_all 1 [] (bufsize ib) 0 [] s) as [size' [H1 H2]];
    cbn [length]; try lia.
  cbn [length] in H1. rewrite H1.
  cbn [rs_buf rs_bufsize rs_roundread rs_sock rs_session app length Nat.eqb andb].
  eexists. reflexivity.
Qed.

(** The decoder on a stream of packets, whether still in the socket or
    already in its buffer: it hands them out one by one and then reports
    that no message is left. *)
Lemma receive_all_stream pkts :
  forall fuel ib avail s k,
  ready ib k ->
  k ++ avail = concat (map (fun p => packet (fst p) (snd p)) pkts) ->
  Forall (fun p => length (snd p) + 2 <= 255) pkts ->
  length (k ++ avail) + 1 < BUF_MAX ->
  length k + 1 <= bufsize ib ->
  length pkts < fuel ->
  receive_all fuel ib (mk_sock avail StillOpen) s =
    (map (fun p => fst p :: snd p) pkts, NoMessage).
Proof.
  induction pkts as [|[type body] pkts IH]; intros fuel ib avail s k Hr Hk Hf Hmax Hsz Hfuel.
  - cbn [map concat] in *. apply app_eq_nil in Hk. destruct Hk as [-> ->].
    destruct fuel as [|fuel]; [cbn [length] in Hfuel; lia|].
    cbn [receive_all].
    destruct (get_next_drained ib s Hr) as [ib' H1]; [lia|cbn [app length] in Hmax; lia|].
    rewrite H1. reflexivity.
  - destruct fuel as [|fuel]; [lia|].
    cbn [map concat fst snd] in *. inversion Hf as [|? ? Hb Hf']; subst.
    cbn [snd] in Hb.
    destruct (get_next_packet ib avail s k type body _ Hr Hk Hb Hmax Hsz)
      as [ib' [H1 [H2 H3]]].
    cbn [receive_all]. rewrite H1.
    rewrite (IH fuel ib' [] s _ H2).
    + reflexivity.
    + apply app_nil_r.
    + exact Hf'.
    + rewrite app_nil_r. rewrite Hk in Hmax. rewrite length_app in Hmax. lia.
    + exact H3.
    + cbn [length] in Hfuel. lia.
Qed.


Lemma ws_packet_data type msg c ch :
  c <= length msg -> length ch < 256 ->
  it_data (ws_packet type msg c ch (length ch)) = packet type (firstn c msg ++ ch).
Proof.
  intros Hc Hl. unfold ws_packet, packet. cbn [it_data].
  rewrite firstn_all, uchar_small by exact Hl.
  rewrite length_app, length_firstn, Nat.min_l by exact Hc.
  rewrite <- app_assoc.
  replace (length ch + c + 2) with (c + length ch + 2) by lia. reflexivity.
Qed.

Lemma ws_wire type msg c chunks :
  c <= length msg -> Forall (fun ch => length ch < 256) chunks ->
  wire (map (fun ch => ws_packet type msg c ch (length ch)) chunks) =
  concat (map (fun p => packet (fst p) (snd p))
              (map (fun ch => (type, firstn c msg ++ ch)) chunks)).
Proof.
  intros Hc. unfold wire. induction 1 as [|ch chunks Hl _ IH]; [reflexivity|].
  cbn [map concat fst snd]. rewrite IH, ws_packet_data by assumption. reflexivity.
Qed.

Lemma packets_length type pre chunks :
  length (concat (map (fun p => packet (fst p) (snd p))
                      (map (fun ch => (type, pre ++ ch)) chunks))) =
  length (concat chunks) + (length pre + 3) * length chunks.
Proof.
  induction chunks as [|ch chunks IH]; [cbn; lia|].
  cbn [map concat fst snd length]. rewrite !length_app, IH.
  unfold packet. cbn [length]. rewrite !length_app. cbn [length]. lia.
Qed.

Lemma push_icb_msg_extended_small type msg :
  length msg <= 252 ->
  push_icb_msg_extended type msg =
    {| it_len := length msg + 3; it_ndone := 0; it_cb := None;
       it_data := packet type msg |}.
Proof.
  intro H. unfold push_icb_msg_extended.
  replace ((length msg + 1 + 253) / 254) with 1.
  2:{ apply Nat.div_unique with (r := length msg); lia. }
  cbn [Nat.sub ext_slots].
  rewrite (Nat.mod_small (length msg + 1) 254) by lia.
  rewrite uchar_small by lia.
  replace (firstn (length msg + 1) (msg ++ [NUL])) with (msg ++ [NUL]).
  2:{ symmetry. apply firstn_all2. rewrite length_app. cbn [length]. lia. }
  replace (length msg + 1 + 1 * 2) with (length msg + 3) by lia.
  replace (length msg + 1 + 1) with (length msg + 2) by lia.
  f_equal. change ([] ++ ?x) with x. 
  change (byte_of (length msg + 2) :: type :: msg ++ [NUL]) with (packet type msg).
  assert (L : length (packet type msg) = length msg + 3).
  { unfold packet. cbn [length]. rewrite length_app. cbn [length]. lia. }
  rewrite <- L. rewrite firstn_app, Nat.sub_diag, firstn_all. cbn [firstn].
  apply app_nil_r.
Qed.

Lemma ready_inbuf0 : ready inbuf0 [].
Proof. reflexivity. Qed.

(** C1, as the code has it.  With a nickname that passed the length check
    of [main] and a payload of at most 2000 bytes, the packets queued by the
    standard encoder, fed to a fresh decoder, come out as one or more
    messages, after which the decoder has nothing left.  Every message is
    the type byte, then the addressing prefix of the payload (empty unless
    the message is a private one), then a chunk; the prefix followed by the
    chunks in order is the payload, so without a prefix the payloads
    concatenated are the original.  In extended mode a payload of at most
    252 bytes comes out as exactly one message, type and payload as sent. *)
Theorem roundtrip_by_chunks nick type payload s :
  nick_ok nick = true ->
  length payload <= 2000 ->
  let c := ws_commonlen type payload in
  (exists its msgs,
     push_icb_msg_ws nick type payload = Some its /\
     decode_wire its s = (msgs, NoMessage) /\
     msgs <> [] /\
     Forall (fun m => exists chunk, m = type :: firstn c payload ++ chunk) msgs /\
     firstn c payload ++ concat (map (skipn (S c)) msgs) = payload /\
     (c = 0 -> concat (map (@tl ascii) msgs) = payload)) /\
  (length payload <= 252 ->
     decode_wire [push_icb_msg_extended type payload] s =
       ([type :: payload], NoMessage)).
Proof.
  intros Hn Hlen c. split.
  - destruct (push_icb_msg_ws_spec nick type payload Hn)
      as [chunks [H1 [H2 [H3 [H4 [H5 _]]]]]].
    fold c in H1, H2, H4.
    destruct (ws_commonlen_bound type payload) as [C1 C2]. fold c in C1, C2.
    destruct (ws_maxlen_eq nick c Hn C1) as [M1 M2].
    pose proof NICKNAME_MAX_le as HN.
    assert (Hch : Forall (fun ch => length ch < 256) chunks).
    { eapply Forall_impl; [|exact H4]. cbv beta. intros ch Hc. lia. }
    assert (Lc : length (firstn c payload) = c)
      by (rewrite length_firstn; lia).
    exists (map (fun ch => ws_packet type payload c ch (length ch)) chunks).
    exists (map (fun p => fst p :: snd p)
                (map (fun ch => (type, firstn c payload ++ ch)) chunks)).
    split; [exact H1|]. split.
    + unfold decode_wire. rewrite (ws_wire type payload c chunks C2 Hch).
      pose proof (packets_length type (firstn c payload) chunks) as L.
      rewrite H2, length_skipn, Lc in L.
      apply receive_all_stream with (k := []).
      * exact ready_inbuf0.
      * reflexivity.
      * rewrite Forall_map. eapply Forall_impl; [|exact H4].
        cbv beta. intros ch Hc. cbn [snd]. rewrite length_app, Lc. lia.
      * cbn [app]. rewrite L. pose proof BUF_MAX_big.
        assert ((c + 3) * length chunks <= 70 * 2001)
          by (apply Nat.mul_le_mono; lia).
        unfold bytes in *. lia.
      * cbn. lia.
      * rewrite !length_map. rewrite L. lia.
    + split.
      { destruct chunks; [congruence|discriminate]. }
      split.
      { rewrite !Forall_map. apply Forall_forall. intros ch _. cbn [fst snd].
        exists ch. reflexivity. }
      assert (E : forall f, (forall ch, f (type :: firstn c payload ++ ch) = ch) ->
                  concat (map f (map (fun p => fst p :: snd p)
                    (map (fun ch => (type, firstn c payload ++ ch)) chunks))) =
                  concat chunks).
      { intros f Hf. rewrite !map_map. cbn [fst snd]. f_equal.
        rewrite <- (map_id chunks) at 2. apply map_ext. exact Hf. }
      split.
      { rewrite E.
        - rewrite H2. apply firstn_skipn.
        - intro ch. cbn [skipn]. rewrite skipn_app, Lc, Nat.sub_diag.
          rewrite <- Lc at 1. rewrite skipn_all. reflexivity. }
      intro Hc0. rewrite (E (@tl ascii)).
      * rewrite H2, Hc0. reflexivity.
      * intro ch. rewrite Hc0. reflexivity.
  - intro H252. unfold decode_wire, wire. cbn [map concat].
    rewrite push_icb_msg_extended_small by exact H252. cbn [it_data].
    apply receive_all_stream with (k := []) (pkts := [(type, payload)]).
    + exact ready_inbuf0.
    + reflexivity.
    + constructor; [cbn [snd]; lia|constructor].
    + cbn [app]. rewrite app_nil_r. unfold packet. cbn [length].
      rewrite length_app. cbn [length]. pose proof BUF_MAX_big. lia.
    + cbn. lia.
    + rewrite app_nil_r. unfold packet. cbn [length]. lia.
Qed.

(** ** Packet sizes and chunk boundaries *)

(** C2.  The nickname the encoder is called with is the one [main] let
    through, shorter than NICKNAME_MAX, and no step of a run changes it.
    For every such nickname, type and payload, every packet of the standard
    encoder holds [it_len] bytes, its length byte counts the bytes after it,
    the packet is at most 255 bytes and still is with the nickname added,
    and its chunk, the repeated prefix not counted, is at most 253 minus the
    nickname length. *)
Theorem ws_packet_bounds nick type msg :
  nick_ok nick = true ->
  exists its,
    push_icb_msg_ws nick type msg = Some its /\
    its <> [] /\
    Forall (fun it =>
              length (it_data it) = it_len it /\
              nat_of_ascii (hd NUL (it_data it)) + 1 = it_len it /\
              it_len it <= 255 /\
              it_len it - 3 - ws_commonlen type msg <= 253 - strlen nick /\
              it_len it + strlen nick <= 255) its.
Proof.
  intro Hn.
  destruct (push_icb_msg_ws_spec nick type msg Hn)
    as [chunks [H1 [H2 [H3 [H4 _]]]]].
  destruct (ws_commonlen_bound type msg) as [C1 C2].
  destruct (ws_maxlen_eq nick _ Hn C1) as [M1 M2].
  pose proof NICKNAME_MAX_le as HN.
  unfold nick_ok in Hn. apply Nat.ltb_lt in Hn.
  eexists. split; [exact H1|]. split.
  - destruct chunks; [congruence|discriminate].
  - rewrite Forall_map. eapply Forall_impl; [|exact H4]. cbv beta.
    intros ch Hc. unfold ws_packet. cbn [it_data it_len hd length].
    rewrite !length_app, firstn_all, length_firstn, Nat.min_l by exact C2.
    cbn [length]. rewrite uchar_small by lia. rewrite byte_of_val by lia.
    lia.
Qed.

(** C6, as the code has it.  For a public message, or a private one, whose
    text does not fit in one packet, the first chunk ends right after the
    last blank or punctuation character among the offsets 1 to [maxlen - 1]
    of the text; when there is none among them the chunk is cut at
    [maxlen].  The first byte of the text is not looked at. *)
Theorem first_chunk_boundary nick type msg :
  nick_ok nick = true ->
  (type = "b"%char \/ is_privmsg type msg = true) ->
  let c := ws_commonlen type msg in
  let src := skipn c msg in
  let maxlen := ws_maxlen nick c in
  maxlen < length src ->
  exists it rest msglen,
    push_icb_msg_ws nick type msg = Some (it :: rest) /\
    it = ws_packet type msg c src msglen /\
    1 <= msglen <= maxlen /\
    ((exists i, 1 <= i < maxlen /\
                isblank (nth i src NUL) || ispunct (nth i src NUL) = true) ->
       2 <= msglen /\
       isblank (nth (msglen - 1) src NUL) || ispunct (nth (msglen - 1) src NUL) = true /\
       forall j, msglen <= j < maxlen ->
                 isblank (nth j src NUL) || ispunct (nth j src NUL) = false) /\
    ((forall i, 1 <= i < maxlen ->
                isblank (nth i src NUL) || ispunct (nth i src NUL) = false) ->
       msglen = maxlen).
Proof.
  intros Hn Hty c src maxlen Hlen.
  destruct (push_icb_msg_ws_spec nick type msg Hn)
    as [chunks [H1 [_ [H3 [_ [_ H6]]]]]].
  fold c in H1, H6. fold maxlen in H6. fold src in H6.
  destruct (ws_commonlen_bound type msg) as [C1 _]. fold c in C1.
  destruct (ws_maxlen_eq nick c Hn C1) as [_ M2]. fold maxlen in M2.
  assert (Hmax : maxlen <= 255).
  { unfold maxlen, ws_maxlen, ucharZ.
    pose proof (Z.mod_pos_bound
      (253 - (Z.of_nat (uchar (strlen nick)) + 1) - Z.of_nat c) 256). lia. }
  assert (Hsplit : Ascii.eqb type "b" || is_privmsg type msg = true).
  { destruct Hty as [-> | ->]; [reflexivity|apply orb_true_r]. }
  rewrite Hsplit in H6.
  assert (Hm : ws_msglen true src maxlen = ws_scan src (maxlen - 1) maxlen).
  { unfold ws_msglen. apply Nat.ltb_lt in Hlen. rewrite Hlen. reflexivity. }
  rewrite Hm in H6.
  destruct (ws_msglen_bound true src maxlen) as [B1 [B2 _]]; [lia|].
  rewrite Hm in B1, B2.
  destruct chunks as [|ch chunks]; [congruence|]. cbn [hd map] in *.
  exists (ws_packet type msg c ch (length ch)).
  exists (map (fun ch0 => ws_packet type msg c ch0 (length ch0)) chunks).
  exists (ws_scan src (maxlen - 1) maxlen).
  split; [exact H1|]. split.
  { rewrite H6. symmetry. apply ws_packet_chunk. exact B2. }
  destruct (ws_scan_spec src (maxlen - 1) maxlen) as [[E N]|[k [Hk [E [Bk N]]]]]; [lia| |].
  - rewrite E. split; [lia|]. split.
    + intros [i [Hi Bi]]. rewrite N in Bi by lia. discriminate.
    + reflexivity.
  - rewrite E. split; [lia|]. split.
    + intros _. split; [lia|]. split.
      * replace (k + 1 - 1) with k by lia. exact Bk.
      * intros j Hj. apply N. lia.
    + intro Hall. rewrite Hall in Bk by lia. discriminate.
Qed.

(** ** The extended encoder *)

Lemma ext_slots_spec n type :
  forall src,
  ext_slots n type src =
    (concat (map (fun i => NUL :: type :: firstn 254 (skipn (254 * i) src))
                 (seq 0 n)),
     skipn (254 * n) src).
Proof.
  induction n as [|n IH]; intro src.
  - rewrite Nat.mul_0_r. reflexivity.
  - cbn [ext_slots]. rewrite IH. cbv iota beta.
    rewrite skipn_skipn.
    replace (254 * n + 254) with (254 * S n) by lia.
    f_equal. cbn [seq map concat]. rewrite Nat.mul_0_r.
    change (skipn 0 src) with src. cbn [app].
    do 3 f_equal. rewrite <- seq_shift, map_map. f_equal. apply map_ext. intro i.
    rewrite skipn_skipn. do 4 f_equal. lia.
Qed.

Lemma concat_map_length {A B} (f : A -> list B) c l :
  (forall x, In x l -> length (f x) = c) ->
  length (concat (map f l)) = c * length l.
Proof.
  induction l as [|x l IH]; intro H.
  - cbn. lia.
  - cbn [map concat length]. rewrite length_app, IH, H.
    + lia.
    + left. reflexivity.
    + intros y Hy. apply H. right. exact Hy.
Qed.

(** Extended mode away from the slip: when the length with its NUL is no
    multiple of 254, the task is [k] full slots with a zero length byte and
    a last slot whose length byte counts the type and the [r] bytes left. *)
Lemma push_icb_msg_extended_layout type msg :
  (length msg + 1) mod 254 <> 0 ->
  let src := msg ++ [NUL] in
  let k := (length msg + 1) / 254 in
  let r := (length msg + 1) mod 254 in
  it_len (push_icb_msg_extended type msg) = 256 * k + (r + 2) /\
  it_data (push_icb_msg_extended type msg) =
    concat (map (fun i => NUL :: type :: firstn 254 (skipn (254 * i) src))
                (seq 0 k))
    ++ byte_of (r + 1) :: type :: skipn (254 * k) src /\
  length (skipn (254 * k) src) = r /\
  r + 1 < 256.
Proof.
  intros Hr src k r.
  assert (Hlen : length src = length msg + 1)
    by (unfold src; rewrite length_app; reflexivity).
  pose proof (Nat.div_mod_eq (length msg + 1) 254) as Hdm.
  fold k in Hdm. fold r in Hdm, Hr.
  assert (Hr254 : r < 254) by (apply Nat.mod_upper_bound; discriminate).
  assert (Hcnt : (length msg + 1 + 253) / 254 = k + 1).
  { symmetry. apply Nat.div_unique with (r := r - 1); lia. }
  assert (Hrest : length (skipn (254 * k) src) = r)
    by (rewrite length_skipn; lia).
  assert (Hslots : length (concat (map
            (fun i => NUL :: type :: firstn 254 (skipn (254 * i) src)) (seq 0 k)))
          = 256 * k).
  { rewrite concat_map_length with (c := 256); [rewrite length_seq; reflexivity|].
    intros i Hi. apply in_seq in Hi. cbn [length].
    rewrite length_firstn, length_skipn. lia. }
  unfold push_icb_msg_extended. fold src. rewrite Hcnt.
  replace (k + 1 - 1) with k by lia. rewrite ext_slots_spec.
  fold r. rewrite uchar_small by lia. cbn [it_len it_data].
  rewrite (firstn_all2 (n := r)) by lia.
  split; [lia|]. split; [|split; [exact Hrest|lia]].
  set (written := concat _ ++ _).
  assert (Hw : length written = length msg + 1 + (k + 1) * 2).
  { unfold written. rewrite length_app, Hslots. cbn [length]. lia. }
  rewrite firstn_app, Hw, Nat.sub_diag. cbn [firstn]. rewrite app_nil_r.
  apply firstn_all2. lia.
Qed.

(** ** The fuel of the loops

    The loops of the source are modelled with a bound on the number of
    iterations.  The lemmas below show where that bound cannot be what ends
    them. *)

Lemma ws_maxlen_le nick c : ws_maxlen nick c <= 255.
Proof.
  unfold ws_maxlen, ucharZ.
  pose proof (Z.mod_pos_bound
    (253 - (Z.of_nat (uchar (strlen nick)) + 1) - Z.of_nat c) 256). lia.
Qed.

Lemma ws_loop_stuck type split msg c fuel :
  forall src, src <> [] -> ws_loop fuel type split msg c src 0 = None.
Proof.
  induction fuel as [|fuel IH]; intros src Hs; [reflexivity|].
  cbn [ws_loop].
  assert (E : ws_msglen split src 0 = 0).
  { unfold ws_msglen. destruct src as [|x src]; [congruence|].
    cbn [length]. change (0 <? S (length src)) with true. cbv iota.
    destruct split; reflexivity. }
  rewrite E. cbn [skipn].
  destruct src as [|x src]; [congruence|]. cbn [length Nat.eqb].
  rewrite IH by discriminate. reflexivity.
Qed.

(** The encoder fails to return exactly when [maxlen] is 0 and there is
    something to send: the loop then goes round without sending any of it. *)
Lemma push_icb_msg_ws_stuck nick type msg :
  push_icb_msg_ws nick type msg = None <->
  ws_maxlen nick (ws_commonlen type msg) = 0 /\
  skipn (ws_commonlen type msg) msg <> [].
Proof.
  unfold push_icb_msg_ws.
  set (c := ws_commonlen type msg). set (src := skipn c msg).
  set (maxlen := ws_maxlen nick c). split.
  - intro H. destruct (Nat.eq_dec maxlen 0) as [E0|N0].
    + split; [exact E0|]. intro Hs. rewrite Hs in H. cbn in H. discriminate.
    + exfalso. pose proof (ws_maxlen_le nick c) as Hle. fold maxlen in Hle.
      destruct (ws_loop_spec type (Ascii.eqb type "b" || is_privmsg type msg)
                  msg c maxlen ltac:(lia) (S (length src)) src ltac:(lia))
        as [chunks [H1 _]].
      congruence.
  - intros [E0 Hs]. rewrite E0. apply ws_loop_stuck. exact Hs.
Qed.

(** The fuel of the read loop is never used up. *)
Lemma read_loop_fuel fuel :
  forall st,
  length (sk_avail (rs_sock st)) < fuel -> read_loop fuel st <> RdFuel.
Proof.
  induction fuel as [|fuel IH]; intros st Hf; [lia|].
  cbn [read_loop]. destruct (_ && _); [discriminate|].
  unfold sock_read. destruct (sk_avail (rs_sock st)) as [|a r] eqn:Ea.
  - destruct (sk_end (rs_sock st)); discriminate.
  - set (n := (if length (rs_buf st) =? rs_bufsize st - 1
               then 2 * rs_bufsize st else rs_bufsize st)
              - length (rs_buf st) - 1).
    destruct (firstn n (a :: r)) as [|x d] eqn:Ed; [discriminate|].
    apply IH. cbn [rs_sock sk_avail]. rewrite length_skipn.
    destruct n; [discriminate|]. cbn [length] in *. lia.
Qed.

(** More fuel does not change what the search for the last slot finds. *)
Lemma find_lastpkt_fuel fuel :
  forall fuel' b lastpkt,
  length b < lastpkt + 256 * fuel -> fuel <= fuel' ->
  find_lastpkt fuel' b lastpkt = find_lastpkt fuel b lastpkt.
Proof.
  induction fuel as [|fuel IH]; intros fuel' b lastpkt Hb Hf.
  - assert (E : nth_error b lastpkt = None) by (apply nth_error_None; lia).
    destruct fuel'; cbn [find_lastpkt]; [reflexivity|]. rewrite E. reflexivity.
  - destruct fuel' as [|fuel']; [lia|]. cbn [find_lastpkt].
    destruct (nth_error b lastpkt) as [c|]; [|reflexivity].
    destruct (Ascii.eqb c NUL); [|reflexivity].
    destruct (length b <? lastpkt + 256) eqn:E; [reflexivity|].
    apply IH; lia.
Qed.

Lemma compact_step fuel b lastpkt pkt :
  compact (S fuel) b lastpkt pkt =
  if lastpkt <? pkt then Compacted b
  else
    match nth_error b (pkt + 1), nth_error b (lastpkt + 1) with
    | Some t, Some tlast =>
        if negb (Ascii.eqb t tlast) then MessedUp
        else if pkt =? 0 then compact fuel b lastpkt (pkt + 256)
        else
          match nth_error b (pkt - 1) with
          | None => Outside
          | Some prev =>
              let shift := if Ascii.eqb prev NUL then 3 else 2 in
              if length b <? pkt + 2 then Outside
              else
                compact fuel
                  (firstn (pkt + 2 - shift) b ++ skipn (pkt + 2) b)
                  (lastpkt - shift) (pkt - shift + 256)
          end
    | _, _ => Outside
    end.
Proof. reflexivity. Qed.

(** More fuel does not change what the compaction does. *)
Lemma compact_fuel fuel :
  forall fuel' b lastpkt pkt,
  lastpkt < pkt + 256 * fuel -> S fuel <= fuel' ->
  compact fuel' b lastpkt pkt = compact (S fuel) b lastpkt pkt.
Proof.
  induction fuel as [|fuel IH]; intros fuel' b lastpkt pkt Hb Hf;
    (destruct fuel' as [|fuel']; [lia|]).
  - assert (E : (lastpkt <? pkt) = true) by (apply Nat.ltb_lt; lia).
    rewrite !compact_step, E. reflexivity.
  - rewrite (compact_step fuel'), (compact_step (S fuel)).
    destruct (lastpkt <? pkt); [reflexivity|].
    destruct (nth_error b (pkt + 1)) as [t|]; [|reflexivity].
    destruct (nth_error b (lastpkt + 1)) as [tlast|]; [|reflexivity].
    destruct (negb (Ascii.eqb t tlast)); [reflexivity|].
    destruct (pkt =? 0) eqn:E0.
    + apply Nat.eqb_eq in E0. apply IH; lia.
    + destruct (nth_error b (pkt - 1)) as [prev|]; [|reflexivity].
      cbv zeta. destruct (length b <? pkt + 2); [reflexivity|].
      apply IH; [|lia]. destruct (Ascii.eqb prev NUL); lia.
Qed.

(** ** Flushing a queue *)

Lemma firstn_plus {A} (a b : nat) (l : list A) :
  firstn (a + b) l = firstn a l ++ firstn b (skipn a l).
Proof.
  revert l. induction a as [|a IH]; intro l; [reflexivity|].
  destruct l as [|x l]; cbn [Nat.add firstn skipn app].
  - rewrite firstn_nil. reflexivity.
  - rewrite IH. reflexivity.
Qed.

Lemma push_data_spec script :
  forall sink data,
  exists n,
    n <= length data /\
    fd_sink (snd (push_data script sink data)) = sink ++ firstn n data /\
    incl (fd_script (snd (push_data script sink data))) script /\
    (fst (push_data script sink data) = Some n \/
     fst (push_data script sink data) = None /\ In WrError script).
Proof.
  induction script as [|a script IH]; intros sink data.
  - exists 0. destruct data; cbn; rewrite app_nil_r;
      (split; [lia|split; [reflexivity|split; [apply incl_refl|left; reflexivity]]]).
  - destruct data as [|x data].
    + exists 0. cbn. rewrite app_nil_r.
      split; [lia|split; [reflexivity|split; [apply incl_refl|left; reflexivity]]].
    + destruct a as [k| |].
      * cbn [push_data].
        set (nw := Nat.min k (length (x :: data))).
        destruct (IH (sink ++ firstn nw (x :: data)) (skipn nw (x :: data)))
          as [n [Hn [Hs [Hi Hr]]]].
        destruct (push_data script (sink ++ firstn nw (x :: data))
                            (skipn nw (x :: data))) as [r fd'].
        cbn [fst snd] in *. exists (nw + n). rewrite length_skipn in Hn.
        split; [unfold nw in *; lia|]. split.
        -- rewrite Hs, firstn_plus, app_assoc. reflexivity.
        -- split; [apply incl_tl; exact Hi|].
           destruct Hr as [-> | [-> Hin]]; [left; reflexivity|right].
           split; [reflexivity|right; exact Hin].
      * exists 0. cbn [push_data fst snd fd_sink fd_script firstn]. rewrite app_nil_r.
        split; [lia|split; [reflexivity|split; [apply incl_tl, incl_refl|left; reflexivity]]].
      * exists 0. cbn [push_data fst snd fd_sink fd_script firstn]. rewrite app_nil_r.
        split; [lia|]. split; [reflexivity|]. split; [apply incl_tl, incl_refl|].
        right. split; [reflexivity|left; reflexivity].
Qed.

Lemma task_rest_length it :
  task_ok it -> length (task_rest it) = it_len it - it_ndone it.
Proof.
  intros [H1 H2]. unfold task_rest. rewrite length_firstn, length_skipn. lia.
Qed.

Lemma task_rest_advance n it :
  task_rest (task_advance n it) = skipn n (task_rest it).
Proof.
  unfold task_rest, task_advance. cbn [it_len it_ndone it_data].
  rewrite skipn_firstn_comm, skipn_skipn.
  f_equal; [lia|]. f_equal. lia.
Qed.

Lemma task_advance_ok n it :
  task_ok it -> n <= it_len it - it_ndone it -> task_ok (task_advance n it).
Proof.
  intros [H1 H2] Hn. unfold task_ok, task_advance. cbn. lia.
Qed.


Lemma queue_rest_app a b : queue_rest (a ++ b) = queue_rest a ++ queue_rest b.
Proof. unfold queue_rest. rewrite map_app, concat_app. reflexivity. Qed.


Lemma queue_rest_cons it q : queue_rest (it :: q) = task_rest it ++ queue_rest q.
Proof. reflexivity. Qed.

Lemma queue_cbs_cons it q :
  queue_cbs (it :: q) =
  run_cb (task_advance (it_len it - it_ndone it) it) ++ queue_cbs q.
Proof. reflexivity. Qed.

(** One call of [proceed_output]. *)
Lemma proceed_output_spec q :
  Forall task_ok q ->
  forall fd,
  match proceed_output q fd with
  | Flushed q' fd' called =>
      exists done rest,
        q = done ++ rest /\
        called = queue_cbs done /\
        Forall task_ok q' /\
        fd_sink fd' ++ queue_rest q' = fd_sink fd ++ queue_rest q /\
        (rest = [] /\ q' = [] /\ fd_sink fd' = fd_sink fd ++ queue_rest done
         \/ exists it tl n,
              rest = it :: tl /\ q' = task_advance n it :: tl /\
              it_ndone it + n < it_len it /\
              fd_sink fd' =
                fd_sink fd ++ queue_rest done ++ firstn n (task_rest it))
  | WriteFailed _ _ => In WrError (fd_script fd)
  end.
Proof.
  induction 1 as [|it q Hit Hq IH]; intro fd.
  - cbn. exists [], []. cbn. rewrite !app_nil_r. repeat split; auto.
  - cbn [proceed_output].
    destruct (push_data_spec (fd_script fd) (fd_sink fd) (task_rest it))
      as [n [Hn [Hs [Hi Hr]]]].
    destruct (push_data (fd_script fd) (fd_sink fd) (task_rest it)) as [r fd1].
    cbn [fst snd] in *. rewrite (task_rest_length it Hit) in Hn.
    destruct Hr as [-> | [-> Hin]]; [|exact Hin].
    cbv zeta. change (it_ndone (task_advance n it)) with (it_ndone it + n).
    change (it_len (task_advance n it)) with (it_len it).
    destruct (it_ndone it + n <? it_len it) eqn:E.
    + apply Nat.ltb_lt in E. exists [], (it :: q). cbn [app].
      split; [reflexivity|]. split; [reflexivity|]. split.
      { constructor; [apply task_advance_ok; assumption|exact Hq]. }
      split.
      { rewrite !queue_rest_cons, task_rest_advance, Hs.
        rewrite <- !app_assoc. f_equal. rewrite app_assoc, firstn_skipn.
        reflexivity. }
      right. exists it, q, n. repeat split; auto.
    + apply Nat.ltb_ge in E. assert (En : n = it_len it - it_ndone it) by lia.
      assert (Hfull : firstn n (task_rest it) = task_rest it).
      { apply firstn_all2. rewrite (task_rest_length it Hit). lia. }
      rewrite Hfull in Hs.
      specialize (IH fd1). destruct (proceed_output q fd1) as [q' fd' called|q' fd'].
      * destruct IH as [done [rest [H1 [H2 [H3 [H4 H5]]]]]].
        exists (it :: done), rest. subst q. split; [reflexivity|]. split.
        { rewrite queue_cbs_cons. subst called n. reflexivity. }
        split; [exact H3|]. split.
        { rewrite H4, Hs, queue_rest_cons, <- app_assoc. reflexivity. }
        destruct H5 as [[-> [-> H5]] | [it0 [tl [n0 [-> [-> [H6 H7]]]]]]].
        -- left. repeat split; auto. rewrite H5, Hs, queue_rest_cons, <- app_assoc.
           reflexivity.
        -- right. exists it0, tl, n0. repeat split; auto.
           rewrite H7, Hs, queue_rest_cons, <- !app_assoc. reflexivity.
      * apply Hi. exact IH.
Qed.


(** ** What the session keeps *)

Lemma uchar_le n : uchar n <= n.
Proof. unfold uchar. apply Nat.Div0.mod_le. Qed.

Lemma ws_scan_le src i m :
  ws_scan src i m <= Nat.max m (if i =? 0 then 0 else S i).
Proof.
  induction i as [|i IH]; [cbn; lia|].
  cbn [ws_scan Nat.eqb].
  destruct (isblank (nth (S i) src NUL) || ispunct (nth (S i) src NUL)).
  - pose proof (uchar_le (S i + 1)). lia.
  - destruct i; cbn [Nat.eqb] in IH; lia.
Qed.

Lemma ws_msglen_le_len split src maxlen :
  ws_msglen split src maxlen <= length src.
Proof.
  unfold ws_msglen. destruct (maxlen <? length src) eqn:E.
  - apply Nat.ltb_lt in E. destruct split; [|lia].
    pose proof (ws_scan_le src (maxlen - 1) maxlen) as H.
    destruct (maxlen - 1 =? 0) eqn:E0; [lia|].
    apply Nat.eqb_neq in E0. lia.
  - apply uchar_le.
Qed.

Lemma ws_packet_ok type msg c src msglen :
  c <= length msg -> msglen <= length src ->
  task_ok (ws_packet type msg c src msglen).
Proof.
  intros Hc Hm. unfold task_ok, ws_packet. cbn [it_data it_len it_ndone length].
  rewrite !length_app, !length_firstn. cbn [length]. lia.
Qed.

Lemma ws_loop_ok type split msg c maxlen :
  c <= length msg ->
  forall fuel src its,
  ws_loop fuel type split msg c src maxlen = Some its -> Forall task_ok its.
Proof.
  intro Hc. induction fuel as [|fuel IH]; intros src its H; [discriminate|].
  cbn [ws_loop] in H.
  pose proof (ws_packet_ok type msg c src _ Hc (ws_msglen_le_len split src maxlen)) as Hp.
  destruct (length (skipn (ws_msglen split src maxlen) src) =? 0).
  - inversion H. constructor; [exact Hp|constructor].
  - destruct (ws_loop fuel type split msg c
                (skipn (ws_msglen split src maxlen) src) maxlen) as [its'|] eqn:E;
      [|discriminate].
    inversion H. constructor; [exact Hp|]. eapply IH. exact E.
Qed.

Lemma push_icb_msg_ws_ok nick type msg its :
  push_icb_msg_ws nick type msg = Some its -> Forall task_ok its.
Proof.
  unfold push_icb_msg_ws. apply ws_loop_ok. apply ws_commonlen_bound.
Qed.

Lemma push_icb_msg_extended_ok type msg :
  task_ok (push_icb_msg_extended type msg).
Proof.
  unfold push_icb_msg_extended.
  destruct (ext_slots ((length msg + 1 + 253) / 254 - 1) type (msg ++ [NUL]))
    as [out rest].
  unfold task_ok. cbn [it_data it_len it_ndone].
  rewrite length_firstn, length_app, repeat_length. lia.
Qed.

Lemma new_task_ok data : task_ok (new_task data).
Proof. unfold task_ok, new_task. cbn. lia. Qed.

Lemma quiet_refl s : quiet s s.
Proof. split; [reflexivity|split; [auto|reflexivity]]. Qed.

Lemma quiet_trans s1 s2 s3 : quiet s1 s2 -> quiet s2 s3 -> quiet s1 s3.
Proof.
  intros [A1 [A2 A3]] [B1 [B2 B3]].
  split; [congruence|split; [auto|congruence]].
Qed.

Lemma quiet_say text s : quiet s (say text s).
Proof.
  split; [reflexivity|]. split; [|reflexivity].
  intros [H1 H2]. split; [|exact H2].
  cbn. unfold push_stdout_msg. apply Forall_app. split; [exact H1|].
  constructor; [apply new_task_ok|constructor].
Qed.

Lemma quiet_set_state st s : quiet s (set_state st s).
Proof. split; [reflexivity|split; [auto|reflexivity]]. Qed.

Lemma quiet_set_want_exit b s : quiet s (set_want_exit b s).
Proof. split; [reflexivity|split; [auto|reflexivity]]. Qed.

Lemma quiet_set_want_info b s : quiet s (set_want_info b s).
Proof. split; [reflexivity|split; [auto|reflexivity]]. Qed.

Lemma quiet_set_pings_sent n s : quiet s (set_pings_sent n s).
Proof. split; [reflexivity|split; [auto|reflexivity]]. Qed.

Lemma quiet_set_last_cmd_has_nl b s : quiet s (set_last_cmd_has_nl b s).
Proof. split; [reflexivity|split; [auto|reflexivity]]. Qed.

Lemma quiet_save_history type who msg s : quiet s (save_history type who msg s).
Proof.
  unfold save_history. destruct (enable_history s); [|apply quiet_refl].
  split; [reflexivity|split; [auto|reflexivity]].
Qed.

Lemma quiet_push_icb_msg type src s :
  quiet s (final_session (push_icb_msg type src s)).
Proof.
  unfold push_icb_msg. destruct (has_feature ExtPkt s).
  - split; [reflexivity|]. split; [|reflexivity].
    intros [H1 H2]. split; [exact H1|]. cbn.
    apply Forall_app. split; [exact H2|].
    constructor; [apply push_icb_msg_extended_ok|constructor].
  - destruct (push_icb_msg_ws (nick s) type src) as [its|] eqn:E.
    + split; [reflexivity|]. split; [|reflexivity].
      intros [H1 H2]. split; [exact H1|]. cbn.
      apply Forall_app. split; [exact H2|]. eapply push_icb_msg_ws_ok. exact E.
    + apply quiet_refl.
Qed.

Lemma quiet_bind o k s :
  quiet s (final_session o) ->
  (forall s1, quiet s1 (final_session (k s1))) ->
  quiet s (final_session (bind o k)).
Proof.
  intros H1 H2. destruct o as [s1|e s1]; cbn [bind final_session] in *.
  - eapply quiet_trans; [exact H1|apply H2].
  - exact H1.
Qed.

Create HintDb quiet.

#[local] Hint Resolve quiet_refl quiet_say quiet_set_state quiet_set_want_exit
  quiet_set_want_info quiet_set_pings_sent quiet_set_last_cmd_has_nl
  quiet_save_history quiet_push_icb_msg : quiet.

Lemma quiet_proceed_user_input line s :
  quiet s (final_session (proceed_user_input line s)).
Proof.
  unfold proceed_user_input. destruct line as [l|]; [|cbn; auto with quiet].
  destruct (skip_space (cstr l)); [cbn; auto with quiet|].
  destruct (cstr l) as [|c0 [|c1 rest]].
  - eapply quiet_trans; [apply quiet_save_history|apply quiet_push_icb_msg].
  - eapply quiet_trans; [apply quiet_save_history|apply quiet_push_icb_msg].
  - destruct (Ascii.eqb c0 "/").
    + apply quiet_bind.
      * eapply quiet_trans; [|apply quiet_push_icb_msg].
        destruct ((strcspn_blank (c1 :: rest) =? 1) && Ascii.eqb c1 "m");
          auto with quiet.
      * intro s1. cbn. auto with quiet.
    + eapply quiet_trans; [apply quiet_save_history|apply quiet_push_icb_msg].
Qed.

Lemma quiet_proceed_chat_msg ts type author text s :
  quiet s (final_session (proceed_chat_msg ts type author text s)).
Proof.
  unfold proceed_chat_msg.
  destruct (if Ascii.eqb type "c" then _ else _) as [pre post].
  destruct (_ <=? _); cbn [final_session].
  - auto with quiet.
  - eapply quiet_trans; [apply quiet_save_history|apply quiet_say].
Qed.

Lemma quiet_fold_say texts : forall s,
  quiet s (fold_left (fun acc t => say t acc) texts s).
Proof.
  induction texts as [|t texts IH]; intro s; cbn [fold_left].
  - apply quiet_refl.
  - eapply quiet_trans; [apply quiet_say|apply IH].
Qed.

Lemma quiet_dispatch_cmd type outtype msg s :
  quiet s (final_session (dispatch_cmd cmd_handlers type outtype msg s)).
Proof.
  unfold cmd_handlers. cbn [dispatch_cmd].
  repeat (match goal with
          | |- context [if ?b then _ else _] => destruct b
          end; cbn [final_session]); try apply quiet_refl.
  - unfold proceed_cmd_result. cbn [final_session].
    eapply quiet_trans; [apply quiet_set_last_cmd_has_nl|apply quiet_say].
  - unfold proceed_cmd_result_end. cbn [final_session].
    eapply quiet_trans; [|apply quiet_set_state].
    destruct (last_cmd_has_nl s); auto with quiet.
  - unfold proceed_user_list. cbn [final_session]. apply quiet_fold_say.
  - unfold proceed_group_list. cbn [final_session]. apply quiet_fold_say.
Qed.

Lemma proceed_icb_msg_features ts msg s :
  let s' := final_session (proceed_icb_msg ts msg s) in
  (queues_ok s -> queues_ok s') /\
  nick s' = nick s /\
  srv_features s' =
    if refuses_ping msg then Z.land (srv_features s) (Z.lnot Ping)
    else srv_features s.
Proof.
  cbv zeta. unfold refuses_ping.
  assert (Q : forall s', quiet s s' ->
              Ascii.eqb (hd NUL msg) "e" = false ->
              (queues_ok s -> queues_ok s') /\
              nick s' = nick s /\
              srv_features s' =
                if Ascii.eqb (hd NUL msg) "e" && strcmp0 (tl msg) ping_unsupported
                then Z.land (srv_features s) (Z.lnot Ping) else srv_features s).
  { intros s' [Q1 [Q2 Q3]] E. rewrite E. cbn [andb].
    split; [exact Q2|split; [exact Q3|exact Q1]]. }
  unfold proceed_icb_msg. cbv zeta.
  destruct (Ascii.eqb (hd NUL msg) "a") eqn:Ea.
  { apply Ascii.eqb_eq in Ea. apply Q; [|rewrite Ea; reflexivity].
    destruct (negb _); cbn [final_session]; [apply quiet_refl|].
    repeat (eapply quiet_trans; [|first [apply quiet_set_state|apply quiet_say]]).
    apply quiet_refl. }
  destruct (Ascii.eqb (hd NUL msg) "b" || Ascii.eqb (hd NUL msg) "c" ||
            Ascii.eqb (hd NUL msg) "d" || Ascii.eqb (hd NUL msg) "f") eqn:Eb.
  { apply Q.
    - apply quiet_bind.
      + destruct (conn_state_eqb (state s) CommandSent); cbn [final_session];
          [apply quiet_set_state|].
        destruct (negb _); cbn [final_session]; apply quiet_refl.
      + intro s1. destruct (strchr (tl msg) SOH); cbn [final_session];
          [apply quiet_proceed_chat_msg|apply quiet_refl].
    - apply orb_true_iff in Eb. destruct Eb as [Eb|Eb];
        [apply orb_true_iff in Eb; destruct Eb as [Eb|Eb];
         [apply orb_true_iff in Eb; destruct Eb as [Eb|Eb]|]|];
        apply Ascii.eqb_eq in Eb; rewrite Eb; reflexivity. }
  destruct (Ascii.eqb (hd NUL msg) "e") eqn:Ee.
  { cbn [andb].
    set (s1 := if negb (conn_state_eqb (state s) Chat) &&
                  negb (conn_state_eqb (state s) CommandSent)
               then set_want_exit true s else s).
    assert (Q1 : quiet s s1)
      by (unfold s1; destruct (negb (conn_state_eqb (state s) Chat) &&
                               negb (conn_state_eqb (state s) CommandSent));
          [apply quiet_set_want_exit|apply quiet_refl]).
    destruct (strcmp0 (tl msg) ping_unsupported); cbn [final_session].
    - destruct Q1 as [F1 [F2 F3]]. split; [|split].
      + intro H. apply F2 in H. exact H.
      + exact F3.
      + cbn. rewrite F1. reflexivity.
    - pose proof (quiet_trans _ _ _ Q1
        (quiet_proceed_chat_msg ts (hd NUL msg) (hostname s1) (tl msg) s1))
        as [F1 [F2 F3]].
      split; [exact F2|split; [exact F3|exact F1]]. }
  destruct (Ascii.eqb (hd NUL msg) "g") eqn:Eg.
  { apply Q; [|reflexivity].
    destruct (negb _); cbn [final_session]; [apply quiet_refl|].
    eapply quiet_trans; [apply quiet_say|apply quiet_set_want_exit]. }
  destruct (Ascii.eqb (hd NUL msg) "i") eqn:Ei.
  { apply Q; [|reflexivity].
    destruct (negb _); cbn [final_session]; [apply quiet_refl|].
    destruct (strchr (tl msg) SOH); cbn [final_session];
      [apply quiet_dispatch_cmd|apply quiet_refl]. }
  destruct (Ascii.eqb (hd NUL msg) "j") eqn:Ej.
  { apply Q; [|reflexivity].
    destruct (negb _); cbn [final_session]; [apply quiet_refl|].
    destruct (negb _); cbn [final_session]; [apply quiet_refl|].
    apply quiet_bind; [apply quiet_push_icb_msg|].
    intro s1. cbn [final_session]. apply quiet_set_state. }
  destruct (Ascii.eqb (hd NUL msg) "k") eqn:Ek.
  { apply Q; [|reflexivity].
    destruct (negb _); cbn [final_session];
      [apply quiet_refl|apply quiet_proceed_chat_msg]. }
  destruct (Ascii.eqb (hd NUL msg) "l") eqn:El.
  { apply Q; [|reflexivity]. apply quiet_push_icb_msg. }
  destruct (Ascii.eqb (hd NUL msg) "m") eqn:Em.
  { apply Q; [|reflexivity]. apply quiet_refl. }
  destruct (Ascii.eqb (hd NUL msg) "n") eqn:En.
  { apply Q; [|reflexivity].
    destruct (negb _); cbn [final_session]; apply quiet_refl. }
  apply Q; [|reflexivity]. cbn [final_session]. apply quiet_say.
Qed.

(** ** The main loop *)

Lemma follows_refl c : follows c c.
Proof.
  exists []. rewrite app_nil_r. split; [reflexivity|]. split; [auto|].
  split; [reflexivity|left; reflexivity].
Qed.

Lemma follows_trans c1 c2 c3 : follows c1 c2 -> follows c2 c3 -> follows c1 c3.
Proof.
  intros [ms1 [A1 [A2 [An A3]]]] [ms2 [B1 [B2 [Bn B3]]]]. exists (ms1 ++ ms2).
  split; [rewrite B1, A1, app_assoc; reflexivity|]. split; [auto|].
  split; [congruence|].
  rewrite existsb_app.
  destruct A3 as [A3|[A3 A4]], B3 as [B3|[B3 B4]].
  - left. congruence.
  - right. split; [congruence|]. rewrite B4. apply orb_true_r.
  - right. split; [congruence|]. rewrite A4. reflexivity.
  - right. split; [|rewrite A4; reflexivity].
    rewrite B3, A3, <- Z.land_assoc, Z.land_diag. reflexivity.
Qed.

Lemma follows_quiet c s' :
  quiet (cl_session c) s' -> follows c (with_session s' c).
Proof.
  intros [Q1 [Q2 Q3]]. exists []. cbn. rewrite app_nil_r.
  split; [reflexivity|]. split; [exact Q2|]. split; [exact Q3|left; exact Q1].
Qed.

Lemma follows_quiet_mk c s' ib sent shown :
  quiet (cl_session c) s' ->
  follows c (mk_client s' ib sent shown (cl_received c)).
Proof.
  intros [Q1 [Q2 Q3]]. exists []. cbn. rewrite app_nil_r.
  split; [reflexivity|]. split; [exact Q2|]. split; [exact Q3|left; exact Q1].
Qed.

Lemma follows_and_then c r k :
  follows c (end_client r) ->
  (forall c1, follows c1 (end_client (k c1))) ->
  follows c (end_client (and_then r k)).
Proof.
  intros H1 H2. destruct r as [c1|e c1|c1]; cbn [and_then end_client] in *.
  - eapply follows_trans; [exact H1|apply H2].
  - exact H1.
  - exact H1.
Qed.

Lemma follows_lift c o :
  quiet (cl_session c) (final_session o) -> follows c (end_client (lift c o)).
Proof.
  intro H. destruct o as [s|e s]; cbn [lift end_client final_session] in *;
    apply follows_quiet; exact H.
Qed.

Lemma quiet_peer_closed s : quiet s (peer_closed s).
Proof.
  unfold peer_closed.
  repeat (eapply quiet_trans; [|first [apply quiet_set_want_exit|apply quiet_say]]).
  apply quiet_refl.
Qed.

Lemma read_loop_session fuel :
  forall st,
  match read_loop fuel st with
  | RdDone st' => quiet (rs_session st) (rs_session st')
  | RdFatal _ st' => quiet (rs_session st) (rs_session st')
  | RdFuel => True
  end.
Proof.
  induction fuel as [|fuel IH]; intro st; [exact I|].
  cbn [read_loop].
  destruct (_ && _); [apply quiet_refl|].
  destruct (sock_read _ _) as [[d| |] sk'].
  - destruct d as [|x d].
    + cbn [rs_session]. apply quiet_peer_closed.
    + specialize (IH (mk_rd (rs_buf st ++ x :: d)
                        (if length (rs_buf st) =? rs_bufsize st - 1
                         then 2 * rs_bufsize st else rs_bufsize st)
                        (rs_roundread st + length (x :: d)) sk' (rs_session st))).
      exact IH.
  - cbn [rs_session]. apply quiet_refl.
  - cbn [rs_session]. apply quiet_refl.
Qed.

Lemma get_next_icb_msg_session ib sk s :
  quiet s (snd (get_next_icb_msg ib sk s)).
Proof.
  unfold get_next_icb_msg. cbv zeta.
  destruct (match msgend ib with
            | Some e => if e <=? length (buf ib) then Some (skipn e (buf ib)) else None
            | None => Some (buf ib)
            end) as [b0|]; [|apply quiet_refl].
  pose proof (read_loop_session (S (length (sk_avail sk)))
                (mk_rd b0 (bufsize ib) 0 sk s)) as H.
  destruct (read_loop _ _) as [st|e st|]; cbn [rs_session] in H.
  - destruct (_ && _); [exact H|].
    destruct (extract_msg _ _). exact H.
  - exact H.
  - apply quiet_refl.
Qed.

Lemma follows_message c s ib m ts :
  quiet (cl_session c) s ->
  follows c (end_client
    (lift (mk_client s ib (cl_sent c) (cl_shown c) (cl_received c ++ [m]))
          (proceed_icb_msg ts m s))).
Proof.
  intros [Q1 [Q2 Q3]].
  pose proof (proceed_icb_msg_features ts m s) as [F1 [Fn F2]].
  cbv zeta in F1, Fn, F2.
  exists [m]. destruct (proceed_icb_msg ts m s) as [s'|e s'];
    cbn [lift end_client with_session cl_received cl_session final_session existsb] in *;
    (split; [reflexivity|]; split; [auto|]; split; [congruence|]);
    rewrite F2, Q1; destruct (refuses_ping m); auto.
Qed.

Lemma follows_proceed_network fuel ts :
  forall sk c, follows c (end_client (proceed_network fuel ts sk c)).
Proof.
  induction fuel as [|fuel IH]; intros sk c; [apply follows_refl|].
  cbn [proceed_network].
  destruct (want_exit (cl_session c)); [apply follows_refl|].
  pose proof (get_next_icb_msg_session (cl_inbuf c) sk (cl_session c)) as Q.
  destruct (get_next_icb_msg (cl_inbuf c) sk (cl_session c)) as [[[d ib] sk'] s].
  cbn [snd] in Q.
  destruct d as [|m|e|]; cbn [end_client].
  - apply follows_quiet_mk. exact Q.
  - apply follows_and_then; [apply follows_message; exact Q|apply IH].
  - apply follows_quiet_mk. exact Q.
  - apply follows_quiet_mk. exact Q.
Qed.

Lemma follows_flush_net script c : follows c (end_client (flush_net script c)).
Proof.
  unfold flush_net.
  pose proof (fun H => proceed_output_spec (tasks_net (cl_session c)) H
                (mk_fd script (cl_sent c))) as H.
  destruct (proceed_output _ _) as [q fd called|q fd]; cbn [end_client].
  - apply follows_quiet_mk. split; [reflexivity|]. split; [|reflexivity].
    intros [H1 H2]. destruct (H H2) as [dn [rs [_ [_ [H3 _]]]]].
    split; [exact H1|exact H3].
  - apply follows_quiet_mk. apply quiet_refl.
Qed.

Lemma follows_flush_stdout script c :
  follows c (end_client (flush_stdout script c)).
Proof.
  unfold flush_stdout.
  pose proof (fun H => proceed_output_spec (tasks_stdout (cl_session c)) H
                (mk_fd script (cl_shown c))) as H.
  destruct (proceed_output _ _) as [q fd called|q fd]; cbn [end_client].
  - apply follows_quiet_mk. split; [reflexivity|]. split; [|reflexivity].
    intros [H1 H2]. destruct (H H1) as [dn [rs [_ [_ [H3 _]]]]].
    split; [exact H3|exact H2].
  - apply follows_quiet_mk. apply quiet_refl.
Qed.

Lemma quiet_report_info port s : quiet s (report_info port s).
Proof.
  unfold report_info.
  eapply quiet_trans; [|apply quiet_set_want_info].
  repeat (eapply quiet_trans; [|apply quiet_say]).
  destruct port;
    repeat (eapply quiet_trans; [|apply quiet_say]); apply quiet_refl.
Qed.

Lemma quiet_keepalive s : quiet s (final_session (keepalive s)).
Proof.
  unfold keepalive. destruct (has_feature Ping s).
  - apply quiet_bind; [apply quiet_push_icb_msg|].
    intro s1. cbn [final_session]. apply quiet_set_pings_sent.
  - apply quiet_push_icb_msg.
Qed.

Lemma follows_main_pass port i c : follows c (end_client (main_pass port i c)).
Proof.
  unfold main_pass. cbv zeta.
  set (c0 := if in_siginfo i || want_info (cl_session c)
             then with_session (report_info port (cl_session c)) c else c).
  assert (H0 : follows c c0).
  { unfold c0. destruct (_ || _); [|apply follows_refl].
    apply follows_quiet. apply quiet_report_info. }
  eapply follows_trans; [exact H0|].
  apply follows_and_then; [apply follows_flush_net|]. intro c1.
  apply follows_and_then.
  { destruct (in_watchdog i); [|apply follows_refl].
    apply follows_lift. apply quiet_keepalive. }
  intro c2. destruct (in_poll i); cbn [end_client]; try apply follows_refl.
  destruct (conn_state_eqb (state (cl_session c2)) Connecting); cbn [end_client].
  { apply follows_quiet. eapply quiet_trans; [apply quiet_set_state|apply quiet_say]. }
  apply follows_and_then.
  { destruct (in_line i) as [line|]; [|apply follows_refl].
    apply follows_lift. apply quiet_proceed_user_input. }
  intro c3. apply follows_and_then; [|apply follows_flush_stdout].
  destruct (in_net_readable i).
  - eapply follows_trans; [|apply follows_proceed_network].
    apply follows_quiet. apply quiet_set_pings_sent.
  - destruct (in_timed_out i); [|apply follows_refl]. cbn [end_client].
    apply follows_quiet. eapply quiet_trans; [apply quiet_say|apply quiet_set_want_exit].
Qed.

Lemma follows_main_loop port inputs :
  forall c, follows c (end_client (main_loop port inputs c)).
Proof.
  induction inputs as [|i inputs IH]; intro c; [apply follows_refl|].
  cbn [main_loop]. destruct (want_exit (cl_session c)); [apply follows_refl|].
  apply follows_and_then; [apply follows_main_pass|apply IH].
Qed.

(** What the encoders depend on does not change in a run: the nickname is
    the one [main] checked, and extended mode is never switched on. *)
Lemma run_keeps_encoder_inputs port inputs history_on connected nick0
    hostname0 room0 :
  let s := cl_session (end_client (main_loop port inputs
             (initial_client history_on connected nick0 hostname0 room0))) in
  nick s = nick0 /\ has_feature ExtPkt s = false.
Proof.
  cbv zeta.
  destruct (follows_main_loop port inputs
              (initial_client history_on connected nick0 hostname0 room0))
    as [ms [_ [_ [Hn Hf]]]].
  assert (H0 : nick (cl_session
                 (initial_client history_on connected nick0 hostname0 room0)) = nick0
               /\ srv_features (cl_session
                 (initial_client history_on connected nick0 hostname0 room0)) = Ping)
    by (destruct connected; split; reflexivity).
  destruct H0 as [N0 F0]. split; [congruence|].
  unfold has_feature. destruct Hf as [->|[-> _]]; rewrite F0; reflexivity.
Qed.

Lemma ping_cleared f :
  (Z.land (Z.land f (Z.lnot Ping)) Ping =? Ping)%Z = false.
Proof.
  rewrite <- Z.land_assoc. change (Z.land (Z.lnot Ping) Ping) with 0%Z.
  rewrite Z.land_0_r. reflexivity.
Qed.

(** ** The protocol state machine *)

Lemma conn_state_eqb_eq a b : conn_state_eqb a b = true <-> a = b.
Proof. destruct a, b; cbn; split; intro H; try reflexivity; discriminate. Qed.

Lemma conn_state_eqb_neq a b : conn_state_eqb a b = false <-> a <> b.
Proof. destruct a, b; cbn; split; intro H; try reflexivity; try discriminate; congruence. Qed.

Lemma push_icb_msg_queues type src s :
  nick_ok (nick s) = true ->
  exists its,
    push_icb_msg type src s = Ok (set_tasks_net (tasks_net s ++ its) s).
Proof.
  intro Hn. unfold push_icb_msg. destruct (has_feature ExtPkt s).
  - eexists. reflexivity.
  - destruct (push_icb_msg_ws_spec (nick s) type src Hn) as [chunks [H1 _]].
    rewrite H1. eexists. reflexivity.
Qed.

(** C4, as the code has it.  A 'b' message while Connecting ends the
    process as unexpected; an 'a' message while LoginSent leads to Chat; a
    line made of '/' and at least one more character leads to CommandSent;
    an 'i' message with the output tag ec while CommandSent leads back to
    Chat. *)
Theorem state_machine_scenario ts s :
  (forall payload,
     state s = Connecting ->
     proceed_icb_msg ts ("b"%char :: payload) s = Fatal (UnexpectedMsg "b") s) /\
  (forall payload,
     state s = LoginSent ->
     exists s', proceed_icb_msg ts ("a"%char :: payload) s = Ok s' /\
                state s' = Chat) /\
  (forall c rest,
     c <> NUL -> nick_ok (nick s) = true ->
     exists s', proceed_user_input (Some ("/"%char :: c :: rest)) s = Ok s' /\
                state s' = CommandSent) /\
  (forall rest,
     state s = CommandSent ->
     exists s', proceed_icb_msg ts ("i"%char :: lit "ec" ++ SOH :: rest) s = Ok s' /\
                state s' = Chat).
Proof.
  split; [|split; [|split]].
  - intros payload Hs. unfold proceed_icb_msg. cbn [hd tl]. cbn -[strchr].
    rewrite Hs. reflexivity.
  - intros payload Hs. unfold proceed_icb_msg. cbn [hd tl]. cbn -[say].
    rewrite Hs. cbn -[say]. eexists. split; reflexivity.
  - intros c rest Hc Hn. unfold proceed_user_input.
    assert (Ec : Ascii.eqb c NUL = false) by (apply Ascii.eqb_neq; exact Hc).
    cbn [cstr]. change (Ascii.eqb "/" NUL) with false. cbv iota. rewrite Ec.
    cbn [skip_space]. change (isspace "/") with false. cbv iota.
    change (Ascii.eqb "/" "/") with true. cbv iota zeta.
    set (cmd := c :: cstr rest).
    set (s1 := if (strcspn_blank cmd =? 1) && Ascii.eqb c "m"
               then save_history "c" (lit "me")
                      (skipn (strcspn_blank cmd + 2) ("/"%char :: c :: rest)) s
               else s).
    assert (Hn1 : nick_ok (nick s1) = true).
    { unfold s1. destruct (_ && _); [|exact Hn].
      unfold save_history. destruct (enable_history s); exact Hn. }
    destruct (push_icb_msg_queues "h" (mark_args cmd (strcspn_blank cmd)) s1 Hn1)
      as [its H].
    rewrite H. cbn [bind]. eexists. split; reflexivity.
  - intros rest Hs. unfold proceed_icb_msg. cbn [hd tl]. cbn -[strchr dispatch_cmd cmd_handlers].
    rewrite Hs. cbn -[dispatch_cmd cmd_handlers].
    unfold cmd_handlers. cbn. unfold proceed_cmd_result_end.
    eexists. split; reflexivity.
Qed.

Lemma proceed_chat_msg_shown ts type author text s :
  length ts <= 10 ->
  (forall b, length (strvis b) <= 4 * length b) ->
  exists s', proceed_chat_msg ts type author text s = Ok s' /\ state s' = state s.
Proof.
  intros Hts Hvis. unfold proceed_chat_msg.
  destruct (if Ascii.eqb type "c" then _ else _) as [pre post].
  match goal with |- context [if ?b then _ else _] => destruct b eqn:E end.
  - exfalso. apply Nat.leb_le in E. rewrite !length_app in E. cbn [length] in E.
    pose proof (Hvis (cstr author)). pose proof (Hvis (cstr text)).
    unfold strlen in E. lia.
  - eexists. split; [reflexivity|].
    unfold save_history. destruct (enable_history s); reflexivity.
Qed.

(** C8.  A message of type 'b', 'c', 'd' or 'f' received in CommandSent or
    in Chat is never refused as unexpected and leaves the state at Chat;
    with its separator present and a display text that fits, it is shown
    and the session goes on.  In any other state it ends the process as
    unexpected. *)
Theorem chat_msg_after_command ts type payload s :
  In type ["b"; "c"; "d"; "f"]%char ->
  let o := proceed_icb_msg ts (type :: payload) s in
  (state s = CommandSent \/ state s = Chat ->
     is_unexpected o = false /\
     state (final_session o) = Chat /\
     (strchr payload SOH <> None -> length ts <= 10 ->
      (forall b, length (strvis b) <= 4 * length b) ->
      exists s', o = Ok s' /\ state s' = Chat)) /\
  (state s <> CommandSent -> state s <> Chat ->
     o = Fatal (UnexpectedMsg type) s).
Proof.
  intros Hty o.
  assert (Ho : o =
    bind (if conn_state_eqb (state s) CommandSent then Ok (set_state Chat s)
          else if negb (conn_state_eqb (state s) Chat)
               then Fatal (UnexpectedMsg type) s
               else Ok s)
         (fun s1 =>
            match strchr payload SOH with
            | None => Fatal (InvalidMsg type (lit "missing text")) s1
            | Some i =>
                proceed_chat_msg ts type (firstn i payload) (skipn (S i) payload) s1
            end)).
  { unfold o, proceed_icb_msg. cbn [hd tl].
    cbn [In] in Hty.
    destruct Hty as [<-|[<-|[<-|[<-|[]]]]]; reflexivity. }
  rewrite Ho. clear Ho o. split.
  - intros Hs.
    assert (E : exists s1, state s1 = Chat /\
              (if conn_state_eqb (state s) CommandSent then Ok (set_state Chat s)
               else if negb (conn_state_eqb (state s) Chat)
                    then Fatal (UnexpectedMsg type) s else Ok s) = Ok s1).
    { destruct Hs as [Hs|Hs]; rewrite Hs; cbn.
      - exists (set_state Chat s). split; reflexivity.
      - exists s. split; [exact Hs|reflexivity]. }
    destruct E as [s1 [Hs1 ->]]. cbn [bind].
    destruct (strchr payload SOH) as [i|] eqn:Esep.
    + split; [|split].
      * unfold proceed_chat_msg.
        destruct (if Ascii.eqb type "c" then _ else _) as [pre post].
        destruct (_ <=? _); reflexivity.
      * unfold proceed_chat_msg.
        destruct (if Ascii.eqb type "c" then _ else _) as [pre post].
        destruct (_ <=? _); cbn [final_session];
          unfold save_history; destruct (enable_history s1); exact Hs1.
      * intros _ Hts Hvis.
        destruct (proceed_chat_msg_shown ts type (firstn i payload)
                    (skipn (S i) payload) s1 Hts Hvis) as [s' [H1 H2]].
        exists s'. split; [exact H1|congruence].
    + split; [reflexivity|]. split; [exact Hs1|]. intro H. congruence.
  - intros H1 H2.
    apply conn_state_eqb_neq in H1. apply conn_state_eqb_neq in H2.
    rewrite H1, H2. reflexivity.
Qed.

(** C9.  Whatever the state, a ping is answered by [push_icb_msg] with type
    'm' and the ping's payload, and a pong leaves the session as it is.  In
    standard mode the answer is one packet of type 'm' per chunk, the
    chunks making up the payload. *)
Theorem ping_answered_in_every_state ts payload s :
  proceed_icb_msg ts ("l"%char :: payload) s = push_icb_msg "m" payload s /\
  proceed_icb_msg ts ("m"%char :: payload) s = Ok s /\
  (nick_ok (nick s) = true -> has_feature ExtPkt s = false ->
   exists chunks,
     proceed_icb_msg ts ("l"%char :: payload) s =
       Ok (set_tasks_net
             (tasks_net s ++ map (fun ch => new_task (packet "m" ch)) chunks) s) /\
     chunks <> [] /\
     concat chunks = payload).
Proof.
  split; [reflexivity|]. split; [reflexivity|].
  intros Hn Hx. change (proceed_icb_msg ts ("l"%char :: payload) s)
    with (push_icb_msg "m" payload s).
  unfold push_icb_msg. rewrite Hx.
  destruct (push_icb_msg_ws_spec (nick s) "m" payload Hn)
    as [chunks [H1 [H2 [H3 [H4 _]]]]].
  change (ws_commonlen "m" payload) with 0 in *.
  destruct (ws_maxlen_eq (nick s) 0 Hn) as [M1 _]; [lia|].
  exists chunks. rewrite H1. split; [|split; [exact H3|exact H2]].
  do 3 f_equal. apply map_ext_in. intros ch Hin.
  rewrite Forall_forall in H4. specialize (H4 ch Hin).
  unfold ws_packet, new_task, packet. cbn [firstn app length].
  rewrite firstn_all, uchar_small by lia. rewrite length_app. cbn [length].
  f_equal; try lia. f_equal. f_equal. lia.
Qed.

Lemma cstr_app_clean a b :
  cstr a = a -> cstr (a ++ b) = a ++ cstr b.
Proof.
  induction a as [|x a IH]; intro H; [reflexivity|].
  cbn [cstr app] in *. destruct (Ascii.eqb x NUL); [discriminate|].
  inversion H as [H']. rewrite H'. rewrite IH by exact H'. reflexivity.
Qed.

(** C10, as the code has it.  A message whose type byte is none of the
    handled ones and is not NUL queues the line "unsupported message of
    type 'X', ignored" with the type byte for X, and changes nothing else,
    whatever the state. *)
Theorem unsupported_type_ignored ts type payload s :
  ~ In type ["a"; "b"; "c"; "d"; "e"; "f"; "g"; "i"; "j"; "k"; "l"; "m"; "n"]%char ->
  type <> NUL ->
  proceed_icb_msg ts (type :: payload) s =
    Ok (set_tasks_stdout
          (tasks_stdout s ++
           [new_task (lit "unsupported message of type '" ++ type ::
                      lit "', ignored" ++ [NL; NUL])]) s).
Proof.
  intros Hty Hnul. cbn [In] in Hty.
  assert (N : forall c, type <> c -> Ascii.eqb type c = false)
    by (intros c Hc; apply Ascii.eqb_neq; exact Hc).
  unfold proceed_icb_msg. cbn [hd tl].
  rewrite !N by (intro E; apply Hty; subst type; tauto).
  cbn [orb]. unfold say, push_stdout_msg. do 4 f_equal.
  rewrite cstr_app_clean by reflexivity. cbn [cstr]. rewrite (N NUL Hnul).
  rewrite <- app_assoc. reflexivity.
Qed.


(** C5, as the code has it.  The Ping bit is set when the loop is entered.
    The error whose text refuses pings clears it in every state: received
    in Chat or CommandSent it changes nothing else, received in any other
    state it sets want_exit as well and changes nothing besides.  Over any
    stretch of the main loop a cleared bit stays cleared, and a bit that
    went from set to cleared did so on such an error among the messages
    received in between. *)
Theorem ping_bit_history :
  (forall history_on connected nick0 hostname0 room0,
     has_feature Ping
       (cl_session (initial_client history_on connected nick0 hostname0 room0))
     = true) /\
  (forall ts payload s,
     strcmp0 payload ping_unsupported = true ->
     state s = Chat \/ state s = CommandSent ->
     proceed_icb_msg ts ("e"%char :: payload) s =
       Ok (set_srv_features (Z.land (srv_features s) (Z.lnot Ping)) s) /\
     has_feature Ping
       (set_srv_features (Z.land (srv_features s) (Z.lnot Ping)) s) = false) /\
  (forall ts payload s,
     strcmp0 payload ping_unsupported = true ->
     state s <> Chat -> state s <> CommandSent ->
     exists s',
       proceed_icb_msg ts ("e"%char :: payload) s = Ok s' /\
       s' = set_srv_features (Z.land (srv_features s) (Z.lnot Ping))
              (set_want_exit true s) /\
       has_feature Ping s' = false /\
       want_exit s' = true) /\
  (forall port inputs c,
     let c' := end_client (main_loop port inputs c) in
     exists ms,
       cl_received c' = cl_received c ++ ms /\
       (has_feature Ping (cl_session c) = false ->
        has_feature Ping (cl_session c') = false) /\
       (has_feature Ping (cl_session c) = true ->
        has_feature Ping (cl_session c') = false ->
        existsb refuses_ping ms = true)).
Proof.
  split; [|split; [|split]].
  - intros h c n host r. destruct c; reflexivity.
  - intros ts payload s Hp Hs. split.
    + unfold proceed_icb_msg. cbn [hd tl]. cbn -[strcmp0 ping_unsupported Z.land Z.lnot].
      rewrite Hp. destruct Hs as [Hs|Hs]; rewrite Hs; reflexivity.
    + unfold has_feature. cbn [set_srv_features srv_features]. apply ping_cleared.
  - intros ts payload s Hp H1 H2. eexists. split; [|split; [reflexivity|split]].
    + unfold proceed_icb_msg. cbn [hd tl]. cbn -[strcmp0 ping_unsupported Z.land Z.lnot].
      rewrite Hp.
      destruct (state s); try reflexivity; congruence.
    + unfold has_feature. cbn [set_srv_features srv_features set_want_exit].
      apply ping_cleared.
    + reflexivity.
  - intros port inputs c c'.
    destruct (follows_main_loop port inputs c) as [ms [H1 [_ [_ H3]]]].
    fold c' in H1, H3. exists ms. split; [exact H1|]. unfold has_feature. split.
    + intro H. destruct H3 as [->|[-> _]]; [exact H|apply ping_cleared].
    + intros Ha Hb. destruct H3 as [E|[_ E]]; [|exact E].
      rewrite E in Hb. congruence.
Qed.


End Proofs.

(** * Properties of the rest of the program *)

Section DecoderProofs.
Context {P : Platform}.

Lemma packet_length type body : length (packet type body) = length body + 3.
Proof. unfold packet. cbn [length]. rewrite length_app. cbn [length]. lia. Qed.

(** The decoder on the first [k] bytes of a packet, [k] less than its
    length byte: it returns NULL and keeps what it has. *)
Lemma extract_msg_partial type body k size :
  length body <= 253 -> 1 <= k <= length body + 1 ->
  extract_msg (firstn k (packet type body)) size =
    (NoMessage, mk_inbuf (firstn k (packet type body)) None size).
Proof.
  intros Hb Hk. unfold extract_msg.
  assert (L : length (firstn k (packet type body)) = k).
  { rewrite length_firstn, packet_length. lia. }
  destruct k as [|k]; [lia|]. unfold packet in *. cbn [firstn] in *.
  rewrite find_lastpkt_head by (apply byte_of_not_NUL; lia).
  cbn [nth]. rewrite byte_of_val by lia. rewrite L.
  replace (S k <? 0 + (length body + 2)) with true
    by (symmetry; apply Nat.ltb_lt; lia).
  reflexivity.
Qed.


(** X2.  A packet that arrives in two pieces.  While fewer bytes than the length
    byte says have come in, [get_next_icb_msg] returns NULL, keeps them and
    leaves the session as it is; called again when the rest is there, it
    hands out the message. *)
Theorem decoder_waits_for_rest type body k s :
  length body <= 253 -> 1 <= k <= length body + 1 ->
  let pkt := packet type body in
  exists ib1 ib2,
    get_next_icb_msg inbuf0 (mk_sock (firstn k pkt) StillOpen) s =
      (NoMessage, ib1, mk_sock [] StillOpen, s) /\
    buf ib1 = firstn k pkt /\
    get_next_icb_msg ib1 (mk_sock (skipn k pkt) StillOpen) s =
      (Message (type :: body), ib2, mk_sock [] StillOpen, s) /\
    ready ib2 [].
Proof.
  intros Hb Hk pkt.
  assert (L : length (firstn k pkt) = k).
  { unfold pkt. rewrite length_firstn, packet_length. lia. }
  pose proof BUF_MAX_big as HB.
  destruct (read_loop_all (S (length (firstn k pkt))) [] 1024 0 (firstn k pkt) s)
    as [size1 [R1 R2]]; [lia|cbn [length]; lia|cbn [length]; lia|].
  cbn [app] in R1, R2.
  set (ib1 := mk_inbuf (firstn k pkt) None size1).
  assert (G1 : get_next_icb_msg inbuf0 (mk_sock (firstn k pkt) StillOpen) s =
               (NoMessage, ib1, mk_sock [] StillOpen, s)).
  { unfold get_next_icb_msg. cbn [msgend buf bufsize inbuf0 sk_avail].
    rewrite R1. cbn [rs_buf rs_bufsize rs_roundread rs_sock rs_session].
    rewrite L. destruct k as [|k']; [lia|]. cbn [Nat.eqb andb].
    unfold pkt. rewrite extract_msg_partial by lia. reflexivity. }
  assert (Hr1 : ready ib1 (firstn k pkt)) by reflexivity.
  destruct (get_next_packet ib1 (skipn k pkt) s (firstn k pkt) type body [] Hr1)
    as [ib2 [G2 [Hr2 _]]].
  - rewrite firstn_skipn, app_nil_r. reflexivity.
  - lia.
  - rewrite firstn_skipn. unfold pkt. rewrite packet_length. lia.
  - cbn [bufsize ib1]. lia.
  - exists ib1, ib2. split; [exact G1|]. split; [reflexivity|].
    split; [exact G2|exact Hr2].
Qed.

(** X3.  The test [buf + bufread - lastpkt[0] < lastpkt] lets a packet through
    that lacks its last byte: the decoder does not wait, and goes on to
    read [msgend[-1]], which is not among the bytes received. *)
Theorem decoder_reads_past_received type body s :
  length body <= 253 ->
  let pkt := packet type body in
  exists ib,
    get_next_icb_msg inbuf0 (mk_sock (removelast pkt) StillOpen) s =
      (Unreceived, ib, mk_sock [] StillOpen, s) /\
    buf ib = removelast pkt /\
    msgend ib = Some (length (buf ib) + 1).
Proof.
  intros Hb pkt.
  assert (E : removelast pkt = byte_of (length body + 2) :: type :: body).
  { unfold pkt, packet.
    change (byte_of (length body + 2) :: type :: body ++ [NUL])
      with ((byte_of (length body + 2) :: type :: body) ++ [NUL]).
    apply removelast_last. }
  rewrite E. set (b := byte_of (length body + 2) :: type :: body).
  assert (L : length b = length body + 2) by (unfold b; cbn [length]; lia).
  pose proof BUF_MAX_big as HB.
  destruct (read_loop_all (S (length b)) [] 1024 0 b s)
    as [size1 [R1 R2]]; [lia|cbn [length]; lia|cbn [length]; lia|].
  cbn [app] in R1, R2.
  exists (mk_inbuf b (Some (0 + 1 + (length body + 2))) size1).
  split; [|split; [reflexivity|cbn [buf msgend]; f_equal; lia]].
  unfold get_next_icb_msg. cbn [msgend buf bufsize inbuf0 sk_avail].
  rewrite R1. cbn [rs_buf rs_bufsize rs_roundread rs_sock rs_session].
  rewrite L. replace (length body + 2 =? 0) with false
    by (symmetry; apply Nat.eqb_neq; lia).
  cbn [andb]. unfold extract_msg. rewrite L. unfold b.
  rewrite find_lastpkt_head by (apply byte_of_not_NUL; lia).
  cbn [nth]. rewrite byte_of_val by lia.
  replace (length body + 2 <? 0 + (length body + 2)) with false
    by (symmetry; apply Nat.ltb_ge; lia).
  replace (S (length body + 2)) with (S (S (S (length body)))) by lia.
  rewrite compact_single.
  replace (0 + 1 + (length body + 2) - 1) with (S (S (length body))) by lia.
  cbn [nth_error].
  replace (nth_error body (length body)) with (@None ascii)
    by (symmetry; apply nth_error_None; lia).
  reflexivity.
Qed.

(** X1.  The decoder on any run of well-formed packets read in one go: called
    until it returns NULL, it hands out the packets' messages one by one, in
    order, type byte first, and nothing else. *)
Theorem decoder_delivers_stream pkts s :
  Forall (fun p => length (snd p) <= 253) pkts ->
  let stream := concat (map (fun p => packet (fst p) (snd p)) pkts) in
  length stream + 1 < BUF_MAX ->
  receive_all (S (length pkts)) inbuf0 (mk_sock stream StillOpen) s =
    (map (fun p => fst p :: snd p) pkts, NoMessage).
Proof.
  intros Hp stream Hmax.
  apply (receive_all_stream pkts (S (length pkts)) inbuf0 stream s []).
  - exact ready_inbuf0.
  - reflexivity.
  - eapply Forall_impl; [|exact Hp]. cbv beta. intros p H. lia.
  - exact Hmax.
  - unfold inbuf0. cbn [bufsize length]. lia.
  - apply Nat.lt_succ_diag_r.
Qed.

End DecoderProofs.

Section DecoderProofs2.
Context {P : Platform}.

Lemma BUF_MAX_pow : BUF_MAX = 1024 * 2 ^ 10.
Proof. reflexivity. Qed.

Lemma bufsize_step size k :
  k <= 10 -> size = 1024 * 2 ^ k -> size < BUF_MAX ->
  S k <= 10 /\ 2 * size = 1024 * 2 ^ S k.
Proof.
  intros Hk Hs Hlt. split.
  - destruct (Nat.eq_dec k 10) as [->|Hne]; [|lia].
    rewrite BUF_MAX_pow in Hlt. lia.
  - rewrite Nat.pow_succ_r'. lia.
Qed.

Lemma bufsize_le size k : k <= 10 -> size = 1024 * 2 ^ k -> 1024 <= size <= BUF_MAX.
Proof.
  intros Hk ->. rewrite BUF_MAX_pow. split.
  - assert (1 <= 2 ^ k) by (apply Nat.neq_0_lt_0, Nat.pow_nonzero; discriminate). lia.
  - apply Nat.mul_le_mono_l. apply Nat.pow_le_mono_r; [discriminate|exact Hk].
Qed.

(** The read loop keeps the buffer within its allocation. *)
Lemma read_loop_inbuf_ok fuel :
  forall st,
  inbuf_ok (mk_inbuf (rs_buf st) None (rs_bufsize st)) ->
  match read_loop fuel st with
  | RdDone st' | RdFatal _ st' =>
      inbuf_ok (mk_inbuf (rs_buf st') None (rs_bufsize st'))
  | RdFuel => True
  end.
Proof.
  induction fuel as [|fuel IH]; intros st Hok; [exact I|].
  cbn [read_loop].
  destruct ((length (rs_buf st) =? rs_bufsize st - 1) && (BUF_MAX <=? rs_bufsize st))
    eqn:G; [exact Hok|].
  set (size' := if length (rs_buf st) =? rs_bufsize st - 1
                then 2 * rs_bufsize st else rs_bufsize st).
  destruct Hok as [H1 [k [Hk H2]]]. cbn [buf bufsize] in H1, H2.
  assert (Hs : length (rs_buf st) + 2 <= size' /\
               exists k', k' <= 10 /\ size' = 1024 * 2 ^ k').
  { unfold size'. destruct (length (rs_buf st) =? rs_bufsize st - 1) eqn:E1.
    - apply Nat.eqb_eq in E1. cbn [andb] in G. apply Nat.leb_gt in G.
      destruct (bufsize_step _ k Hk H2 G) as [K1 K2].
      split; [lia|]. exists (S k). split; assumption.
    - apply Nat.eqb_neq in E1. split; [lia|]. exists k. split; assumption. }
  destruct Hs as [Hs1 Hs2].
  assert (Keep : inbuf_ok (mk_inbuf (rs_buf st) None size')).
  { split; [cbn [buf bufsize]; lia|exact Hs2]. }
  unfold sock_read. destruct (sk_avail (rs_sock st)) as [|a r] eqn:Ea.
  - destruct (sk_end (rs_sock st)); exact Keep.
  - destruct (firstn (size' - length (rs_buf st) - 1) (a :: r)) as [|d0 d] eqn:Ed.
    + exact Keep.
    + apply IH. cbn [rs_buf rs_bufsize]. split; [|exact Hs2].
      cbn [buf bufsize]. rewrite length_app.
      assert (L : length (d0 :: d) <= size' - length (rs_buf st) - 1).
      { rewrite <- Ed. rewrite length_firstn. lia. }
      lia.
Qed.



Lemma inbuf0_ok : inbuf_ok inbuf0.
Proof. split; [cbn; lia|]. exists 0. split; [lia|reflexivity]. Qed.


Lemma read_loop_too_long fuel :
  forall b size rr avail e s,
  length avail < fuel ->
  inbuf_ok (mk_inbuf b None size) ->
  BUF_MAX <= length b + length avail + 1 ->
  exists st, read_loop fuel (mk_rd b size rr (mk_sock avail e) s) =
             RdFatal TooLongMessage st.
Proof.
  induction fuel as [|fuel IH]; intros b size rr avail e s Hf Hok Hmax; [lia|].
  cbn [read_loop rs_buf rs_bufsize rs_roundread rs_sock rs_session].
  destruct ((length b =? size - 1) && (BUF_MAX <=? size)) eqn:G;
    [eexists; reflexivity|].
  pose proof (read_loop_inbuf_ok 1 (mk_rd b size rr (mk_sock [] StillOpen) s) Hok) as K.
  cbn [read_loop rs_buf rs_bufsize rs_roundread rs_sock rs_session] in K.
  rewrite G in K. cbn [sock_read sk_avail sk_end] in K.
  cbn [rs_buf rs_bufsize] in K.
  set (size' := if length b =? size - 1 then 2 * size else size) in *.
  destruct Hok as [H1 [k [Hk H2]]]. cbn [buf bufsize] in H1, H2.
  destruct (bufsize_le size k Hk H2) as [B1 B2].
  assert (Hs : length b + 2 <= size').
  { unfold size'. destruct (length b =? size - 1) eqn:E1.
    - apply Nat.eqb_eq in E1. lia.
    - apply Nat.eqb_neq in E1. lia. }
  destruct avail as [|a r].
  - exfalso. cbn [length] in Hmax.
    assert (E1 : length b = size - 1) by lia.
    apply Nat.eqb_eq in E1. rewrite E1 in G. cbn [andb] in G.
    apply Nat.leb_gt in G. lia.
  - unfold sock_read. cbn [sk_avail sk_end].
    destruct (size' - length b - 1) as [|n] eqn:En; [lia|].
    cbn [firstn skipn].
    apply IH.
    + rewrite length_skipn. cbn [length] in Hf. lia.
    + split; [|exact (proj2 K)]. cbn [buf bufsize].
      rewrite length_app. cbn [length]. rewrite length_firstn. lia.
    + rewrite length_app, length_skipn. cbn [length] in *.
      rewrite length_firstn. lia.
Qed.

(** X6.  The read loop takes everything the socket holds before any message is
    looked at.  When what the decoder still holds and what the socket has
    ready come to 1 MiB less one byte or more, the process ends with "too
    long message", whatever the bytes are, complete short messages
    included. *)
Theorem too_much_pending_is_fatal ib k avail e s :
  ready ib k -> inbuf_ok ib ->
  BUF_MAX <= length k + length avail + 1 ->
  fst (fst (fst (get_next_icb_msg ib (mk_sock avail e) s))) =
    DecodeFatal TooLongMessage.
Proof.
  intros Hr Hok Hmax. unfold get_next_icb_msg. cbv zeta.
  rewrite (ready_kept ib k Hr). cbn [sk_avail].
  assert (L0 : length k <= length (buf ib)).
  { unfold ready in Hr. destruct (msgend ib) as [m|].
    - destruct Hr as [_ <-]. rewrite length_skipn. lia.
    - subst k. lia. }
  destruct (read_loop_too_long (S (length avail)) k (bufsize ib) 0 avail e s)
    as [st R]; [lia| |exact Hmax|].
  - destruct Hok as [H1 H2]. split; [cbn [buf bufsize]; lia|exact H2].
  - rewrite R. reflexivity.
Qed.

End DecoderProofs2.

Section DecoderProofs3.
Context {P : Platform}.

Lemma last_nth_error {A} (l : list A) (d : A) :
  l <> [] -> nth_error l (length l - 1) = Some (last l d).
Proof.
  induction l as [|x l IH]; intro H; [congruence|].
  destruct l as [|y l]; [reflexivity|].
  replace (length (x :: y :: l) - 1) with (S (length (y :: l) - 1))
    by (cbn [length]; lia).
  change (last (x :: y :: l) d) with (last (y :: l) d).
  rewrite <- IH by discriminate. reflexivity.
Qed.

Lemma firstn_app_cons_removelast {A} (a : list A) (x : A) (r : list A) :
  r <> [] ->
  firstn (length a + length r) (a ++ x :: r) = a ++ x :: removelast r.
Proof.
  intro Hr. rewrite firstn_app.
  replace (length a + length r - length a) with (length r) by lia.
  rewrite firstn_all2 by lia. f_equal.
  destruct (exists_last Hr) as [r' [z ->]].
  rewrite removelast_last, length_app. cbn [length].
  replace (length r' + 1) with (S (length r')) by lia.
  cbn [firstn]. f_equal. rewrite firstn_app, Nat.sub_diag, firstn_all.
  cbn [firstn]. apply app_nil_r.
Qed.

Lemma extract_msg_bare type body rest size :
  length body <= 254 ->
  last (type :: body) NUL <> NUL ->
  extract_msg (bare_packet type body ++ rest) size =
    (Message (type :: body),
     mk_inbuf (firstn (length body + 2 + length rest)
                 (bare_packet type body ++ NUL :: rest))
              (Some (length body + 3)) size).
Proof.
  intros Hb Hlast. unfold extract_msg, bare_packet. cbn [app length].
  rewrite find_lastpkt_head by (apply byte_of_not_NUL; lia).
  cbn [nth]. rewrite byte_of_val by lia.
  replace (S (S (length (body ++ rest))) <? 0 + (length body + 1)) with false
    by (symmetry; apply Nat.ltb_ge; rewrite length_app; lia).
  rewrite compact_single.
  replace (0 + 1 + (length body + 1) - 1) with (S (length body)) by lia.
  cbn [nth_error].
  assert (N : nth_error (type :: body ++ rest) (length body) =
              Some (last (type :: body) NUL)).
  { change (type :: body ++ rest) with ((type :: body) ++ rest).
    rewrite nth_error_app1 by (cbn [length]; lia).
    rewrite <- (last_nth_error (type :: body) NUL) by discriminate.
    f_equal. cbn [length]. lia. }
  rewrite N.
  assert (E : Ascii.eqb (last (type :: body) NUL) NUL = false)
    by (apply Ascii.eqb_neq; exact Hlast).
  rewrite E. cbn [negb].
  replace (0 + 1 + (length body + 1)) with (S (S (length body))) by lia.
  cbn [firstn skipn].
  assert (F : firstn (length body) (body ++ rest) = body).
  { rewrite firstn_app, Nat.sub_diag, firstn_all. cbn [firstn]. apply app_nil_r. }
  assert (S0 : skipn (length body) (body ++ rest) = rest).
  { rewrite skipn_app, Nat.sub_diag, skipn_all. reflexivity. }
  rewrite F, S0. cbn [app length]. rewrite length_app.
  replace (S (S (length body)) + 1 - 2) with (S (length body)) by lia.
  replace (S (S (length body)) + 1) with (length body + 3) by lia.
  replace (length body + 2 + length rest) with (S (S (length body + length rest))) by lia.
  f_equal. f_equal. cbn [firstn].
  rewrite firstn_firstn.
  replace (Nat.min (length body) (length body + length rest)) with (length body) by lia.
  rewrite firstn_app, Nat.sub_diag, firstn_all. cbn [firstn].
  rewrite app_nil_r. reflexivity.
Qed.

(** X4.  A packet that does not end in NUL.  The decoder hands out its message,
    type and body, and to terminate it moves the rest of the buffer up by
    one byte without counting that byte: of what follows the packet in the
    buffer, the last byte is lost.  When nothing follows, [msgend] is left
    one past the bytes received. *)
Theorem unterminated_packet type body rest s :
  length body <= 254 ->
  last (type :: body) NUL <> NUL ->
  length body + length rest + 3 < BUF_MAX ->
  exists ib,
    get_next_icb_msg inbuf0 (mk_sock (bare_packet type body ++ rest) StillOpen) s =
      (Message (type :: body), ib, mk_sock [] StillOpen, s) /\
    (rest <> [] -> ready ib (removelast rest)) /\
    (rest = [] -> msgend ib = Some (length (buf ib) + 1)).
Proof.
  intros Hb Hlast Hmax. set (raw := bare_packet type body).
  assert (Lr : length raw = length body + 2) by (unfold raw, bare_packet; cbn [length]; lia).
  assert (L : length (raw ++ rest) = length body + 2 + length rest)
    by (rewrite length_app; lia).
  destruct (read_loop_all (S (length (raw ++ rest))) [] 1024 0 (raw ++ rest) s)
    as [size1 [R1 R2]]; [lia|cbn [length]; lia|cbn [length]; lia|].
  cbn [app] in R1, R2.
  eexists. split; [|split].
  - unfold get_next_icb_msg. cbn [msgend buf bufsize inbuf0 sk_avail].
    rewrite R1.
    cbn [rs_buf rs_bufsize rs_roundread rs_sock rs_session].
    replace (length (raw ++ rest) =? 0) with false
      by (symmetry; apply Nat.eqb_neq; lia).
    cbn [andb]. unfold raw. rewrite extract_msg_bare by assumption. reflexivity.
  - intro Hr. unfold ready. cbn [msgend buf]. fold raw.
    replace (length body + 2 + length rest) with (length raw + length rest) by lia.
    rewrite firstn_app_cons_removelast by exact Hr.
    assert (Lrest : 1 <= length rest) by (destruct rest; [congruence|cbn [length]; lia]).
    split.
    + rewrite length_app. cbn [length].
      destruct (exists_last Hr) as [r' [z ->]]. rewrite removelast_last.
      rewrite length_app in Lrest. cbn [length] in *. lia.
    + rewrite skipn_app.
      replace (length body + 3 - length raw) with 1 by lia.
      rewrite skipn_all2 by lia. reflexivity.
  - intros ->. cbn [msgend buf]. fold raw. cbn [length].
    rewrite length_firstn. rewrite length_app. cbn [length]. f_equal. lia.
Qed.

End DecoderProofs3.

Section StateProofs.
Context {P : Platform}.

Lemma proceed_chat_msg_expected ts type author text s :
  is_unexpected (proceed_chat_msg ts type author text s) = false.
Proof.
  unfold proceed_chat_msg.
  destruct (if Ascii.eqb type "c" then _ else _) as [pre post].
  destruct (_ <=? _); reflexivity.
Qed.

Lemma push_icb_msg_expected type src s :
  is_unexpected (push_icb_msg type src s) = false.
Proof.
  unfold push_icb_msg. destruct (has_feature ExtPkt s); [reflexivity|].
  destruct (push_icb_msg_ws (nick s) type src); reflexivity.
Qed.

Lemma dispatch_cmd_expected type outtype msg s :
  is_unexpected (dispatch_cmd cmd_handlers type outtype msg s) = false.
Proof.
  unfold cmd_handlers. cbn [dispatch_cmd].
  repeat (match goal with
          | |- context [if ?b then _ else _] => destruct b
          end); reflexivity.
Qed.

Ltac refusal :=
  let H := fresh "H" in
  split; [reflexivity | intro H; try discriminate H; reflexivity].

(** X7.  When [proceed_icb_msg] refuses a message as unexpected: exactly when
    its type is not one the current state takes.  The refusal comes before
    anything is queued or changed. *)
Theorem message_refused_exactly ts msg s :
  let type := hd NUL msg in
  is_unexpected (proceed_icb_msg ts msg s) = negb (expected_in type (state s)) /\
  (expected_in type (state s) = false ->
   proceed_icb_msg ts msg s = Fatal (UnexpectedMsg type) s).
Proof.
  cbv zeta. unfold proceed_icb_msg, expected_in. cbv zeta.
  destruct (Ascii.eqb (hd NUL msg) "a").
  { destruct (conn_state_eqb (state s) LoginSent); cbn [negb]; refusal. }
  destruct (Ascii.eqb (hd NUL msg) "b" || Ascii.eqb (hd NUL msg) "c" ||
            Ascii.eqb (hd NUL msg) "d" || Ascii.eqb (hd NUL msg) "f").
  { destruct (conn_state_eqb (state s) CommandSent); cbn [negb orb bind].
    - split; [|intro H; discriminate].
      destruct (strchr (tl msg) SOH);
        [apply proceed_chat_msg_expected|reflexivity].
    - destruct (conn_state_eqb (state s) Chat); cbn [negb bind]; [|refusal].
      split; [|intro H; discriminate].
      destruct (strchr (tl msg) SOH);
        [apply proceed_chat_msg_expected|reflexivity]. }
  destruct (Ascii.eqb (hd NUL msg) "e").
  { split; [|intro H; discriminate].
    destruct (strcmp0 (tl msg) ping_unsupported); [reflexivity|].
    apply proceed_chat_msg_expected. }
  destruct (Ascii.eqb (hd NUL msg) "g").
  { destruct (conn_state_eqb (state s) Chat); cbn [negb]; refusal. }
  destruct (Ascii.eqb (hd NUL msg) "i").
  { destruct (conn_state_eqb (state s) CommandSent); cbn [negb]; [|refusal].
    split; [|intro H; discriminate].
    destruct (strchr (tl msg) SOH); [apply dispatch_cmd_expected|reflexivity]. }
  destruct (Ascii.eqb (hd NUL msg) "j").
  { destruct (conn_state_eqb (state s) Connected); cbn [negb]; [|refusal].
    split; [|intro H; discriminate].
    destruct (negb (strcmp0 _ _)); [reflexivity|].
    pose proof (push_icb_msg_expected "a"
      (cstr (cstr (nick s) ++ SOH :: cstr (nick s) ++ SOH ::
             cstr (room s) ++ SOH :: lit "login" ++ [SOH])) s) as E.
    destruct (push_icb_msg _ _ s); [reflexivity|exact E]. }
  destruct (Ascii.eqb (hd NUL msg) "k").
  { destruct (conn_state_eqb (state s) Chat); cbn [negb]; [|refusal].
    split; [|intro H; discriminate]. apply proceed_chat_msg_expected. }
  destruct (Ascii.eqb (hd NUL msg) "l") eqn:El.
  { apply Ascii.eqb_eq in El. rewrite El. cbn [Ascii.eqb Bool.eqb negb].
    split; [apply push_icb_msg_expected|intro H; discriminate]. }
  destruct (Ascii.eqb (hd NUL msg) "m") eqn:Em.
  { apply Ascii.eqb_eq in Em. rewrite Em. cbn [Ascii.eqb Bool.eqb negb].
    split; [reflexivity|intro H; discriminate]. }
  destruct (Ascii.eqb (hd NUL msg) "n").
  { destruct (conn_state_eqb (state s) Chat); cbn [negb]; refusal. }
  split; [reflexivity|intro H; discriminate].
Qed.


Lemma cstr_clean a : ~ In NUL a -> cstr a = a.
Proof.
  induction a as [|x a IH]; intro H; [reflexivity|]. cbn [cstr].
  destruct (Ascii.eqb x NUL) eqn:E.
  - apply Ascii.eqb_eq in E. subst x. exfalso. apply H. left. reflexivity.
  - rewrite IH; [reflexivity|]. intro K. apply H. right. exact K.
Qed.

Lemma cstr_no_NUL a : ~ In NUL (cstr a).
Proof.
  induction a as [|x a IH]; [intros []|]. cbn [cstr].
  destruct (Ascii.eqb x NUL) eqn:E; [intros []|].
  apply Ascii.eqb_neq in E. intros [K|K]; [congruence|exact (IH K)].
Qed.

Lemma strchr_field a c rest :
  ~ In NUL a -> ~ In c a -> c <> NUL ->
  strchr (a ++ c :: rest) c = Some (length a).
Proof.
  intros H0 Hc Hn. induction a as [|x a IH]; cbn [app strchr length].
  - apply Ascii.eqb_neq in Hn. rewrite Hn, Ascii.eqb_refl. reflexivity.
  - assert (E0 : Ascii.eqb x NUL = false).
    { apply Ascii.eqb_neq. intro E. apply H0. left. congruence. }
    assert (Ec : Ascii.eqb x c = false).
    { apply Ascii.eqb_neq. intro E. apply Hc. left. congruence. }
    rewrite E0, Ec, IH; [reflexivity| |].
    + intro K. apply H0. right. exact K.
    + intro K. apply Hc. right. exact K.
Qed.

Lemma bytes_eqb_eq a : forall b, bytes_eqb a b = true <-> a = b.
Proof.
  induction a as [|x a IH]; intros [|y b]; cbn [bytes_eqb];
    try (split; [discriminate|discriminate]); [split; reflexivity|].
  rewrite andb_true_iff, Ascii.eqb_eq, IH. split.
  - intros [-> ->]. reflexivity.
  - intro H. inversion H. split; reflexivity.
Qed.

Lemma strcmp0_clean a b :
  ~ In NUL a -> ~ In NUL b -> strcmp0 a b = true <-> a = b.
Proof.
  intros Ha Hb. unfold strcmp0. rewrite !cstr_clean by assumption.
  apply bytes_eqb_eq.
Qed.

Lemma strcmp0_other a b :
  ~ In NUL a -> ~ In NUL b -> a <> b -> strcmp0 a b = false.
Proof.
  intros Ha Hb Hne. destruct (strcmp0 a b) eqn:E; [|reflexivity].
  apply strcmp0_clean in E; [congruence|assumption|assumption].
Qed.

Lemma firstn_length_app {A} (a b : list A) : firstn (length a) (a ++ b) = a.
Proof. rewrite firstn_app, Nat.sub_diag, firstn_all. cbn [firstn]. apply app_nil_r. Qed.

Lemma skipn_S_length_app {A} (a : list A) x b : skipn (S (length a)) (a ++ x :: b) = b.
Proof.
  rewrite skipn_app. rewrite skipn_all2 by lia.
  replace (S (length a) - length a) with 1 by lia. reflexivity.
Qed.

Ltac no_NUL_lit :=
  let K := fresh "K" in
  cbn; intro K; repeat (destruct K as [K|K]; [discriminate K|]); exact K.

(** X10.  The result of a command, as the 'i' case takes it apart: the output
    tag before the separator selects the handler.  The tags listed with a
    NULL handler are passed over and leave the session as it is; a tag that
    is not in [cmd_handlers] ends the process as an invalid message; co and
    ec go to their handlers with the text after the separator. *)
Theorem command_output_dispatch ts tag rest s :
  state s = CommandSent -> ~ In NUL tag -> ~ In SOH tag ->
  let o := proceed_icb_msg ts ("i"%char :: tag ++ SOH :: rest) s in
  (In tag ignored_tags -> o = Ok s) /\
  (~ In tag known_tags ->
   o = Fatal (InvalidMsg "i" (lit "unsupported output type")) s) /\
  (tag = lit "co" -> o = proceed_cmd_result rest s) /\
  (tag = lit "ec" -> o = proceed_cmd_result_end rest s).
Proof.
  intros Hs H0 H1 o.
  assert (Ho : o = dispatch_cmd cmd_handlers "i" tag rest s).
  { unfold o, proceed_icb_msg. cbn [hd tl]. 
    change (Ascii.eqb "i" "a") with false.
    change (Ascii.eqb "i" "b" || Ascii.eqb "i" "c" || Ascii.eqb "i" "d" ||
            Ascii.eqb "i" "f") with false.
    change (Ascii.eqb "i" "e") with false. change (Ascii.eqb "i" "g") with false.
    change (Ascii.eqb "i" "i") with true. cbv iota.
    rewrite Hs. cbn [conn_state_eqb negb].
    rewrite strchr_field by (try assumption; discriminate).
    rewrite firstn_length_app, skipn_S_length_app. reflexivity. }
  rewrite Ho. clear Ho o. unfold cmd_handlers, ignored_tags, known_tags.
  split; [|split; [|split]].
  - intro H. cbn [In] in H.
    destruct H as [<-|[<-|[<-|[<-|[]]]]]; reflexivity.
  - intro H. cbn [In] in H. cbn [dispatch_cmd].
    rewrite !strcmp0_other; try assumption; try no_NUL_lit;
      try reflexivity; intro E; apply H; rewrite E; tauto.
  - intros ->. reflexivity.
  - intros ->. reflexivity.
Qed.

(** X11.  The text of a command result and its end: 'i' with tag co queues the
    text, 'i' with tag ec after it queues a line break unless the text
    ended in one, takes the flag back and returns the state to Chat. *)
Theorem command_output_ends_line ts text s :
  state s = CommandSent ->
  exists s2,
    bind (proceed_icb_msg ts ("i"%char :: lit "co" ++ SOH :: text) s)
         (proceed_icb_msg ts ("i"%char :: lit "ec" ++ [SOH])) = Ok s2 /\
    tasks_stdout s2 =
      tasks_stdout s ++ new_task (cstr (strvis text) ++ [NUL]) ::
      (if Ascii.eqb (last text NUL) NL then [] else [new_task [NL; NUL]]) /\
    state s2 = Chat /\
    last_cmd_has_nl s2 = false /\
    tasks_net s2 = tasks_net s.
Proof.
  intro Hs.
  assert (E1 : proceed_icb_msg ts ("i"%char :: lit "co" ++ SOH :: text) s =
               proceed_cmd_result text s).
  { unfold proceed_icb_msg. cbn [hd tl]. cbn -[dispatch_cmd cmd_handlers].
    rewrite Hs. cbn. reflexivity. }
  rewrite E1. unfold proceed_cmd_result. cbn [bind].
  set (s1 := say (strvis text) (set_last_cmd_has_nl (Ascii.eqb (last text NUL) NL) s)).
  assert (E2 : proceed_icb_msg ts ("i"%char :: lit "ec" ++ [SOH]) s1 =
               proceed_cmd_result_end [] s1).
  { unfold proceed_icb_msg. cbn [hd tl]. cbn -[dispatch_cmd cmd_handlers].
    rewrite Hs. cbn. reflexivity. }
  rewrite E2. unfold proceed_cmd_result_end. eexists. split; [reflexivity|].
  unfold s1. cbn [last_cmd_has_nl say set_last_cmd_has_nl set_tasks_stdout].
  destruct (Ascii.eqb (last text NUL) NL); cbn; unfold push_stdout_msg;
    repeat split; try reflexivity.
  rewrite <- app_assoc. reflexivity.
Qed.


(** A message that fits in one packet is queued as one packet. *)
Lemma push_icb_msg_ws_single nick0 type msg :
  nick_ok nick0 = true -> is_privmsg type msg = false ->
  length msg <= 252 - strlen nick0 ->
  push_icb_msg_ws nick0 type msg = Some [new_task (packet type msg)].
Proof.
  intros Hn Hp Hl. unfold push_icb_msg_ws.
  assert (C0 : ws_commonlen type msg = 0) by (unfold ws_commonlen; rewrite Hp; reflexivity).
  rewrite C0, Hp. cbn [skipn].
  destruct (ws_maxlen_eq nick0 0 Hn) as [M1 M2]; [lia|]. rewrite M1.
  cbn [ws_loop]. unfold ws_msglen.
  replace (252 - strlen nick0 - 0 <? length msg) with false
    by (symmetry; apply Nat.ltb_ge; lia).
  rewrite uchar_small by lia. rewrite skipn_all. cbn [length Nat.eqb].
  f_equal. f_equal. unfold ws_packet, new_task, packet. cbn [firstn app].
  rewrite firstn_all, uchar_small by lia. cbn [length]. rewrite length_app.
  cbn [length]. f_equal; [lia|]. f_equal. f_equal. lia.
Qed.

Lemma cstr_cstr a : cstr (cstr a) = cstr a.
Proof. apply cstr_clean, cstr_no_NUL. Qed.

Lemma login_text_clean nick0 room0 : cstr (login_text nick0 room0) = login_text nick0 room0.
Proof.
  apply cstr_clean. unfold login_text. intro K.
  repeat (apply in_app_or in K; destruct K as [K|K];
          [exact (cstr_no_NUL _ K)|]; destruct K as [K|K]; [discriminate K|]).
  cbn in K. repeat (destruct K as [K|K]; [discriminate K|]). exact K.
Qed.

Lemma login_text_length nick0 room0 :
  length (login_text nick0 room0) = 2 * strlen nick0 + strlen room0 + 9.
Proof.
  unfold login_text, strlen. repeat (rewrite length_app; cbn [length]).
  change (length (lit "login")) with 5. lia.
Qed.

Lemma push_login_packet s :
  has_feature ExtPkt s = false -> nick_ok (nick s) = true ->
  3 * strlen (nick s) + strlen (room s) <= 243 ->
  push_icb_msg "a" (cstr (login_text (nick s) (room s))) s =
    Ok (set_tasks_net
          (tasks_net s ++
           [new_task (packet "a" (login_text (nick s) (room s)))]) s).
Proof.
  intros Hx Hn Hl. unfold push_icb_msg. rewrite Hx, login_text_clean.
  rewrite push_icb_msg_ws_single; [reflexivity|exact Hn|reflexivity|].
  rewrite login_text_length. lia.
Qed.

Lemma proceed_protocol_message ts msg s :
  state s = Connected ->
  proceed_icb_msg ts ("j"%char :: msg) s =
    if negb (strcmp0 (match strchr msg SOH with
                      | Some i => firstn i msg
                      | None => msg
                      end) (lit "1"))
    then Fatal UnsupportedVersion s
    else bind (push_icb_msg "a" (cstr (login_text (nick s) (room s))) s)
              (fun s1 => Ok (set_state LoginSent s1)).
Proof.
  intro Hs. unfold proceed_icb_msg. cbn [hd tl].
  change (Ascii.eqb "j" "a") with false.
  change (Ascii.eqb "j" "b" || Ascii.eqb "j" "c" || Ascii.eqb "j" "d" ||
          Ascii.eqb "j" "f") with false.
  change (Ascii.eqb "j" "e") with false. change (Ascii.eqb "j" "g") with false.
  change (Ascii.eqb "j" "i") with false. change (Ascii.eqb "j" "j") with true.
  cbv iota. rewrite Hs. cbn [conn_state_eqb negb]. reflexivity.
Qed.

(** X8.  The protocol message.  Received in Connected with version 1, whatever
    host and server names follow, it queues the login request (the nickname
    twice, the room and the word login, each followed by the separator) as
    one packet of type 'a' when that fits beside the nickname, and the state
    becomes LoginSent.  Any other version ends the process. *)
Theorem protocol_message_logs_in ts s :
  state s = Connected -> has_feature ExtPkt s = false ->
  nick_ok (nick s) = true ->
  3 * strlen (nick s) + strlen (room s) <= 243 ->
  let s' := set_state LoginSent
              (set_tasks_net
                 (tasks_net s ++
                  [new_task (packet "a" (login_text (nick s) (room s)))]) s) in
  proceed_icb_msg ts (lit "j1") s = Ok s' /\
  (forall rest, proceed_icb_msg ts (lit "j1" ++ SOH :: rest) s = Ok s') /\
  (forall version rest,
     ~ In NUL version -> ~ In SOH version -> version <> lit "1" ->
     proceed_icb_msg ts ("j"%char :: version ++ SOH :: rest) s =
       Fatal UnsupportedVersion s).
Proof.
  intros Hs Hx Hn Hl s'.
  pose proof (push_login_packet s Hx Hn Hl) as Hp.
  pose proof (fun msg => proceed_protocol_message ts msg s Hs) as J.
  split; [|split].
  - change (lit "j1") with ("j"%char :: lit "1"). rewrite J, Hp. reflexivity.
  - intro rest. change (lit "j1" ++ SOH :: rest) with ("j"%char :: lit "1" ++ SOH :: rest).
    rewrite J, Hp. reflexivity.
  - intros version rest H0 H1 Hv. rewrite J.
    rewrite strchr_field by (try assumption; discriminate).
    rewrite firstn_length_app.
    rewrite strcmp0_other; [reflexivity|exact H0|no_NUL_lit|exact Hv].
Qed.

(** X9.  A command typed before the login is complete.  [proceed_user_input]
    sets the state to CommandSent whatever it was, so the server's replies
    to the handshake, 'j' and 'a', are then refused as unexpected and end
    the process. *)
Theorem early_command_breaks_login ts c rest payload s :
  c <> NUL -> nick_ok (nick s) = true ->
  exists s1,
    proceed_user_input (Some ("/"%char :: c :: rest)) s = Ok s1 /\
    proceed_icb_msg ts ("a"%char :: payload) s1 = Fatal (UnexpectedMsg "a") s1 /\
    proceed_icb_msg ts ("j"%char :: payload) s1 = Fatal (UnexpectedMsg "j") s1.
Proof.
  intros Hc Hn. unfold proceed_user_input.
  assert (Ec : Ascii.eqb c NUL = false) by (apply Ascii.eqb_neq; exact Hc).
  cbn [cstr]. change (Ascii.eqb "/" NUL) with false. cbv iota. rewrite Ec.
  cbn [skip_space]. change (isspace "/") with false. cbv iota.
  change (Ascii.eqb "/" "/") with true. cbv iota zeta.
  set (cmd := c :: cstr rest).
  set (s0 := if (strcspn_blank cmd =? 1) && Ascii.eqb c "m"
             then save_history "c" (lit "me")
                    (skipn (strcspn_blank cmd + 2) ("/"%char :: c :: rest)) s
             else s).
  assert (Hn0 : nick_ok (nick s0) = true).
  { unfold s0. destruct (_ && _); [|exact Hn].
    unfold save_history. destruct (enable_history s); exact Hn. }
  destruct (push_icb_msg_queues "h" (mark_args cmd (strcspn_blank cmd)) s0 Hn0)
    as [its H].
  rewrite H. cbn [bind]. eexists. split; [reflexivity|].
  split; reflexivity.
Qed.

End StateProofs.

Section InputProofs.
Context {P : Platform}.





Lemma name_byte_spec c :
  name_byte c = true ->
  Ascii.eqb c NUL = false /\
  Ascii.eqb c NUL || Ascii.eqb c " " || Ascii.eqb c "009" = false.
Proof.
  unfold name_byte. intro H. apply negb_true_iff in H. split; [|exact H].
  destruct (Ascii.eqb c NUL); [discriminate|reflexivity].
Qed.

Lemma cstr_name name rest :
  forallb name_byte name = true -> cstr (name ++ rest) = name ++ cstr rest.
Proof.
  induction name as [|x name IH]; intro H; [reflexivity|].
  cbn [forallb] in H. apply andb_true_iff in H. destruct H as [Hx H].
  destruct (name_byte_spec x Hx) as [E _].
  cbn [app cstr]. rewrite E, IH by exact H. reflexivity.
Qed.

Lemma strcspn_blank_name name sep rest :
  forallb name_byte name = true -> In sep [" "; "009"]%char ->
  strcspn_blank (name ++ sep :: rest) = length name.
Proof.
  intros H Hsep. induction name as [|x name IH]; cbn [app strcspn_blank length].
  - cbn [In] in Hsep. destruct Hsep as [<-|[<-|[]]]; reflexivity.
  - cbn [forallb] in H. apply andb_true_iff in H. destruct H as [Hx H].
    destruct (name_byte_spec x Hx) as [_ E]. rewrite E, IH by exact H. reflexivity.
Qed.

Lemma strcspn_blank_end name :
  forallb name_byte name = true -> strcspn_blank name = length name.
Proof.
  intros H. induction name as [|x name IH]; [reflexivity|].
  cbn [forallb] in H. apply andb_true_iff in H. destruct H as [Hx H].
  destruct (name_byte_spec x Hx) as [_ E].
  cbn [strcspn_blank length]. rewrite E, IH by exact H. reflexivity.
Qed.

(** X13.  A command line: '/', the name of the command, a blank or tab, the
    arguments.  The message sent is of type 'h': the name, the separator
    \001 in place of the first blank, and the arguments as typed.  The
    command m stores its arguments in the history as a private message by
    "me"; no other command is stored.  The state becomes CommandSent. *)
Theorem command_line_encoding name sep args s :
  name <> [] -> forallb name_byte name = true ->
  In sep [" "; "009"]%char -> ~ In NUL args ->
  proceed_user_input (Some ("/"%char :: name ++ sep :: args)) s =
    bind (push_icb_msg "h" (name ++ SOH :: args)
            (if bytes_eqb name (lit "m")
             then save_history "c" (lit "me") args s else s))
         (fun s2 => Ok (set_state CommandSent s2)).
Proof.
  intros Hne Hname Hsep Hargs. unfold proceed_user_input.
  cbn [cstr]. change (Ascii.eqb "/" NUL) with false. cbv iota.
  rewrite cstr_name by exact Hname.
  assert (Es : cstr (sep :: args) = sep :: args).
  { apply cstr_clean. intros [K|K]; [|exact (Hargs K)].
    cbn [In] in Hsep. destruct Hsep as [<-|[<-|[]]]; discriminate K. }
  rewrite Es. cbn [skip_space]. change (isspace "/") with false. cbv iota.
  destruct name as [|c1 name']; [congruence|]. cbn [app].
  change (Ascii.eqb "/" "/") with true. cbv iota zeta.
  change (c1 :: name' ++ sep :: args) with ((c1 :: name') ++ sep :: args).
  rewrite strcspn_blank_name by assumption.
  assert (M : mark_args ((c1 :: name') ++ sep :: args) (length (c1 :: name')) =
              (c1 :: name') ++ SOH :: args).
  { unfold mark_args. rewrite skipn_app, Nat.sub_diag, skipn_all.
    change ([] ++ skipn 0 (sep :: args)) with (sep :: args). cbv iota.
    rewrite firstn_length_app. reflexivity. }
  rewrite M.
  assert (K : skipn (length (c1 :: name') + 2)
                ("/"%char :: (c1 :: name') ++ sep :: args) = args).
  { replace (length (c1 :: name') + 2) with (S (S (length (c1 :: name')))) by lia.
    cbn [skipn]. apply skipn_S_length_app. }
  rewrite K.
  assert (B : (length (c1 :: name') =? 1) && Ascii.eqb c1 "m" =
              bytes_eqb (c1 :: name') (lit "m")).
  { cbn [length bytes_eqb lit list_ascii_of_string].
    destruct name'; cbn [length Nat.eqb]; [rewrite andb_true_r; reflexivity|].
    rewrite andb_false_r. reflexivity. }
  rewrite B. reflexivity.
Qed.

End InputProofs.

Section RunProofs.
Context {P : Platform}.

Lemma advances_refl s : advances s s.
Proof. unfold advances. repeat split; auto. Qed.

Lemma advances_trans s1 s2 s3 : advances s1 s2 -> advances s2 s3 -> advances s1 s3.
Proof.
  intros [A1 [A2 [A3 [A4 [A5 A6]]]]] [B1 [B2 [B3 [B4 [B5 B6]]]]].
  unfold advances. repeat split; try congruence; try lia. auto.
Qed.

Lemma advances_say text s : advances s (say text s).
Proof. unfold advances. cbn. repeat split; auto. Qed.

Lemma advances_exit s : advances s (set_want_exit true s).
Proof. unfold advances. cbn. repeat split; auto. Qed.

Lemma advances_set_want_info b s : advances s (set_want_info b s).
Proof. unfold advances. cbn. repeat split; auto. Qed.

Lemma advances_set_last_cmd_has_nl b s : advances s (set_last_cmd_has_nl b s).
Proof. unfold advances. cbn. repeat split; auto. Qed.

Lemma advances_set_srv_features f s : advances s (set_srv_features f s).
Proof. unfold advances. cbn. repeat split; auto. Qed.

Lemma advances_set_tasks_net q s : advances s (set_tasks_net q s).
Proof. unfold advances. cbn. repeat split; auto. Qed.

Lemma advances_set_tasks_stdout q s : advances s (set_tasks_stdout q s).
Proof. unfold advances. cbn. repeat split; auto. Qed.

Lemma advances_set_state st s :
  phase (state s) <= phase st -> advances s (set_state st s).
Proof. intro H. unfold advances. cbn. repeat split; auto. Qed.

Lemma phase_le_3 st : phase st <= 3.
Proof. destruct st; cbn; lia. Qed.

Lemma advances_save_history type who msg s : advances s (save_history type who msg s).
Proof.
  unfold save_history. destruct (enable_history s) eqn:E; [|apply advances_refl].
  unfold advances. cbn. repeat split; auto.
Qed.

Lemma advances_push_icb_msg type src s :
  advances s (final_session (push_icb_msg type src s)).
Proof.
  unfold push_icb_msg. destruct (has_feature ExtPkt s); cbn [final_session].
  - apply advances_set_tasks_net.
  - destruct (push_icb_msg_ws (nick s) type src); cbn [final_session];
      [apply advances_set_tasks_net|apply advances_refl].
Qed.

Lemma push_icb_msg_state type src s :
  state (final_session (push_icb_msg type src s)) = state s.
Proof.
  unfold push_icb_msg. destruct (has_feature ExtPkt s); [reflexivity|].
  destruct (push_icb_msg_ws (nick s) type src); reflexivity.
Qed.

Lemma advances_bind o k s :
  advances s (final_session o) ->
  (forall s1, advances s1 (final_session (k s1))) ->
  advances s (final_session (bind o k)).
Proof.
  intros H1 H2. destruct o as [s1|e s1]; cbn [bind final_session] in *.
  - eapply advances_trans; [exact H1|apply H2].
  - exact H1.
Qed.

Create HintDb advances.

#[local] Hint Resolve advances_refl advances_say advances_exit
  advances_set_want_info advances_set_last_cmd_has_nl advances_set_srv_features
  advances_set_tasks_net advances_set_tasks_stdout advances_save_history
  advances_push_icb_msg phase_le_3 : advances.

Lemma advances_proceed_user_input line s :
  advances s (final_session (proceed_user_input line s)).
Proof.
  unfold proceed_user_input. destruct line as [l|]; [|cbn; auto with advances].
  destruct (skip_space (cstr l)); [cbn; auto with advances|].
  destruct (cstr l) as [|c0 [|c1 rest]].
  - eapply advances_trans; [apply advances_save_history|apply advances_push_icb_msg].
  - eapply advances_trans; [apply advances_save_history|apply advances_push_icb_msg].
  - destruct (Ascii.eqb c0 "/").
    + apply advances_bind.
      * eapply advances_trans; [|apply advances_push_icb_msg].
        destruct ((strcspn_blank (c1 :: rest) =? 1) && Ascii.eqb c1 "m");
          auto with advances.
      * intro s1. cbn [final_session]. apply advances_set_state. apply phase_le_3.
    + eapply advances_trans; [apply advances_save_history|apply advances_push_icb_msg].
Qed.

Lemma advances_proceed_chat_msg ts type author text s :
  advances s (final_session (proceed_chat_msg ts type author text s)).
Proof.
  unfold proceed_chat_msg.
  destruct (if Ascii.eqb type "c" then _ else _) as [pre post].
  destruct (_ <=? _); cbn [final_session].
  - auto with advances.
  - eapply advances_trans; [apply advances_save_history|apply advances_say].
Qed.

Lemma advances_fold_say texts : forall s,
  advances s (fold_left (fun acc t => say t acc) texts s).
Proof.
  induction texts as [|t texts IH]; intro s; cbn [fold_left].
  - apply advances_refl.
  - eapply advances_trans; [apply advances_say|apply IH].
Qed.

Lemma advances_dispatch_cmd type outtype msg s :
  advances s (final_session (dispatch_cmd cmd_handlers type outtype msg s)).
Proof.
  unfold cmd_handlers. cbn [dispatch_cmd].
  repeat (match goal with
          | |- context [if ?b then _ else _] => destruct b
          end; cbn [final_session]); try apply advances_refl.
  - unfold proceed_cmd_result. cbn [final_session].
    eapply advances_trans; [apply advances_set_last_cmd_has_nl|apply advances_say].
  - unfold proceed_cmd_result_end. cbn [final_session].
    eapply advances_trans; [|apply advances_set_state; apply phase_le_3].
    destruct (last_cmd_has_nl s); auto with advances.
  - unfold proceed_user_list. cbn [final_session]. apply advances_fold_say.
  - unfold proceed_group_list. cbn [final_session]. apply advances_fold_say.
Qed.

Lemma advances_proceed_icb_msg ts msg s :
  advances s (final_session (proceed_icb_msg ts msg s)).
Proof.
  unfold proceed_icb_msg. cbv zeta.
  destruct (Ascii.eqb (hd NUL msg) "a").
  { destruct (conn_state_eqb (state s) LoginSent) eqn:E; cbn [negb final_session];
      [|apply advances_refl].
    apply conn_state_eqb_eq in E.
    eapply advances_trans; [|apply advances_set_state; apply phase_le_3].
    repeat (eapply advances_trans; [|apply advances_say]). apply advances_refl. }
  destruct (Ascii.eqb (hd NUL msg) "b" || Ascii.eqb (hd NUL msg) "c" ||
            Ascii.eqb (hd NUL msg) "d" || Ascii.eqb (hd NUL msg) "f").
  { apply advances_bind.
    - destruct (conn_state_eqb (state s) CommandSent); cbn [final_session];
        [apply advances_set_state; apply phase_le_3|].
      destruct (negb _); cbn [final_session]; apply advances_refl.
    - intro s1. destruct (strchr (tl msg) SOH); cbn [final_session];
        [apply advances_proceed_chat_msg|apply advances_refl]. }
  destruct (Ascii.eqb (hd NUL msg) "e").
  { set (s1 := if negb (conn_state_eqb (state s) Chat) &&
                  negb (conn_state_eqb (state s) CommandSent)
               then set_want_exit true s else s).
    assert (Q1 : advances s s1)
      by (unfold s1; destruct (negb (conn_state_eqb (state s) Chat) &&
                               negb (conn_state_eqb (state s) CommandSent));
          auto with advances).
    destruct (strcmp0 (tl msg) ping_unsupported); cbn [final_session].
    - eapply advances_trans; [exact Q1|apply advances_set_srv_features].
    - eapply advances_trans; [exact Q1|apply advances_proceed_chat_msg]. }
  destruct (Ascii.eqb (hd NUL msg) "g").
  { destruct (negb _); cbn [final_session]; [apply advances_refl|].
    eapply advances_trans; [apply advances_say|apply advances_exit]. }
  destruct (Ascii.eqb (hd NUL msg) "i").
  { destruct (negb _); cbn [final_session]; [apply advances_refl|].
    destruct (strchr (tl msg) SOH); cbn [final_session];
      [apply advances_dispatch_cmd|apply advances_refl]. }
  destruct (Ascii.eqb (hd NUL msg) "j").
  { destruct (conn_state_eqb (state s) Connected) eqn:E; cbn [negb final_session];
      [|apply advances_refl].
    apply conn_state_eqb_eq in E.
    destruct (negb _); cbn [final_session]; [apply advances_refl|].
    pose proof (advances_push_icb_msg "a"
      (cstr (cstr (nick s) ++ SOH :: cstr (nick s) ++ SOH ::
             cstr (room s) ++ SOH :: lit "login" ++ [SOH])) s) as A.
    pose proof (push_icb_msg_state "a"
      (cstr (cstr (nick s) ++ SOH :: cstr (nick s) ++ SOH ::
             cstr (room s) ++ SOH :: lit "login" ++ [SOH])) s) as B.
    destruct (push_icb_msg _ _ s) as [s1|e s1]; cbn [bind final_session] in *;
      [|exact A].
    eapply advances_trans; [exact A|]. apply advances_set_state.
    rewrite B, E. cbn. lia. }
  destruct (Ascii.eqb (hd NUL msg) "k").
  { destruct (negb _); cbn [final_session];
      [apply advances_refl|apply advances_proceed_chat_msg]. }
  destruct (Ascii.eqb (hd NUL msg) "l").
  { apply advances_push_icb_msg. }
  destruct (Ascii.eqb (hd NUL msg) "m").
  { apply advances_refl. }
  destruct (Ascii.eqb (hd NUL msg) "n").
  { destruct (negb _); cbn [final_session]; apply advances_refl. }
  cbn [final_session]. apply advances_say.
Qed.


Lemma advances_peer_closed s : advances s (peer_closed s).
Proof.
  unfold peer_closed.
  eapply advances_trans; [|apply advances_exit].
  repeat (eapply advances_trans; [|apply advances_say]). apply advances_refl.
Qed.

Lemma read_loop_advances fuel :
  forall st,
  match read_loop fuel st with
  | RdDone st' | RdFatal _ st' => advances (rs_session st) (rs_session st')
  | RdFuel => True
  end.
Proof.
  induction fuel as [|fuel IH]; intro st; [exact I|].
  cbn [read_loop].
  destruct (_ && _); [apply advances_refl|].
  destruct (sock_read _ _) as [[d| |] sk'].
  - destruct d as [|x d].
    + cbn [rs_session]. apply advances_peer_closed.
    + specialize (IH (mk_rd (rs_buf st ++ x :: d)
                        (if length (rs_buf st) =? rs_bufsize st - 1
                         then 2 * rs_bufsize st else rs_bufsize st)
                        (rs_roundread st + length (x :: d)) sk' (rs_session st))).
      exact IH.
  - cbn [rs_session]. apply advances_refl.
  - cbn [rs_session]. apply advances_refl.
Qed.

Lemma get_next_icb_msg_advances ib sk s :
  advances s (snd (get_next_icb_msg ib sk s)).
Proof.
  unfold get_next_icb_msg. cbv zeta.
  destruct (match msgend ib with
            | Some e => if e <=? length (buf ib) then Some (skipn e (buf ib)) else None
            | None => Some (buf ib)
            end) as [b0|]; [|apply advances_refl].
  pose proof (read_loop_advances (S (length (sk_avail sk)))
                (mk_rd b0 (bufsize ib) 0 sk s)) as H.
  destruct (read_loop _ _) as [st|e st|]; cbn [rs_session] in H.
  - destruct (_ && _); [exact H|].
    destruct (extract_msg _ _). exact H.
  - exact H.
  - apply advances_refl.
Qed.

Lemma advances_report_info port s : advances s (report_info port s).
Proof.
  unfold report_info.
  eapply advances_trans; [|apply advances_set_want_info].
  repeat (eapply advances_trans; [|apply advances_say]).
  destruct port;
    repeat (eapply advances_trans; [|apply advances_say]); apply advances_refl.
Qed.

(** The sessions of the clients a stretch of the message loop leads to. *)
Lemma proceed_network_advances fuel ts :
  forall sk c,
  advances (cl_session c) (cl_session (end_client (proceed_network fuel ts sk c))).
Proof.
  induction fuel as [|fuel IH]; intros sk c; [apply advances_refl|].
  cbn [proceed_network].
  destruct (want_exit (cl_session c)); [apply advances_refl|].
  pose proof (get_next_icb_msg_advances (cl_inbuf c) sk (cl_session c)) as Q.
  destruct (get_next_icb_msg (cl_inbuf c) sk (cl_session c)) as [[[d ib] sk'] s].
  cbn [snd] in Q.
  destruct d as [|m|e|]; cbn [end_client cl_session]; try exact Q.
  pose proof (advances_proceed_icb_msg ts m s) as M.
  destruct (proceed_icb_msg ts m s) as [s'|e s'];
    cbn [lift and_then end_client with_session cl_session final_session] in *.
  - eapply advances_trans; [exact Q|]. eapply advances_trans; [exact M|].
    exact (IH sk' (mk_client s' ib (cl_sent c) (cl_shown c) (cl_received c ++ [m]))).
  - eapply advances_trans; [exact Q|exact M].
Qed.

Lemma onward_refl c : onward c c.
Proof. unfold onward. repeat split; auto. Qed.

Lemma onward_trans c1 c2 c3 : onward c1 c2 -> onward c2 c3 -> onward c1 c3.
Proof.
  intros [A1 [A2 [A3 [A4 [A5 A6]]]]] [B1 [B2 [B3 [B4 [B5 B6]]]]].
  unfold onward. repeat split; try congruence; try lia; auto.
Qed.

(** A step that leaves the server features alone. *)
Lemma onward_steady c c' :
  advances (cl_session c) (cl_session c') ->
  srv_features (cl_session c') = srv_features (cl_session c) ->
  onward c c'.
Proof.
  intros [A1 [A2 [A3 [A4 [A5 A6]]]]] F. unfold onward.
  repeat split; auto. unfold ping_inv, has_feature. rewrite F, A6. auto.
Qed.

(** A step taken with no ping outstanding. *)
Lemma onward_no_pings c c' :
  advances (cl_session c) (cl_session c') ->
  pings_sent (cl_session c) = 0 ->
  onward c c'.
Proof.
  intros [A1 [A2 [A3 [A4 [A5 A6]]]]] F. unfold onward.
  repeat split; auto. unfold ping_inv. intros _ _. congruence.
Qed.

Lemma onward_and_then c r k :
  onward c (end_client r) ->
  (forall c1, onward c1 (end_client (k c1))) ->
  onward c (end_client (and_then r k)).
Proof.
  intros H1 H2. destruct r as [c1|e c1|c1]; cbn [and_then end_client] in *.
  - eapply onward_trans; [exact H1|apply H2].
  - exact H1.
  - exact H1.
Qed.

Lemma onward_lift c o :
  advances (cl_session c) (final_session o) ->
  quiet (cl_session c) (final_session o) ->
  onward c (end_client (lift c o)).
Proof.
  intros A [Q _]. destruct o as [s|e s];
    cbn [lift end_client final_session] in *;
    apply onward_steady; cbn [with_session cl_session]; assumption.
Qed.

Lemma onward_flush_net script c : onward c (end_client (flush_net script c)).
Proof.
  unfold flush_net. destruct (proceed_output _ _) as [q fd called|q fd];
    cbn [end_client]; apply onward_steady; cbn [cl_session];
    auto with advances.
Qed.

Lemma onward_flush_stdout script c : onward c (end_client (flush_stdout script c)).
Proof.
  unfold flush_stdout. destruct (proceed_output _ _) as [q fd called|q fd];
    cbn [end_client]; apply onward_steady; cbn [cl_session];
    auto with advances.
Qed.

Lemma onward_keepalive c :
  onward c (end_client (lift c (keepalive (cl_session c)))).
Proof.
  pose proof (quiet_keepalive (cl_session c)) as [Q _].
  unfold keepalive in *. destruct (has_feature Ping (cl_session c)) eqn:E.
  - pose proof (advances_push_icb_msg "l" [] (cl_session c)) as A.
    destruct (push_icb_msg "l" [] (cl_session c)) as [s1|e s1];
      cbn [bind lift end_client final_session with_session] in *.
    + destruct A as [A1 [A2 [A3 [A4 [A5 A6]]]]]. unfold onward.
      cbn [cl_session set_pings_sent want_exit state hostname room enable_history].
      repeat split; auto.
      unfold ping_inv, has_feature in *.
      cbn [cl_session with_session srv_features set_pings_sent] in Q |- *.
      rewrite Q, E. intros _ K. discriminate K.
    + apply onward_steady; cbn [cl_session]; assumption.
  - apply onward_lift; [apply advances_push_icb_msg|apply quiet_push_icb_msg].
Qed.

Lemma onward_main_pass port i c : onward c (end_client (main_pass port i c)).
Proof.
  unfold main_pass. cbv zeta.
  set (c0 := if in_siginfo i || want_info (cl_session c)
             then with_session (report_info port (cl_session c)) c else c).
  assert (H0 : onward c c0).
  { unfold c0. destruct (_ || _); [|apply onward_refl].
    apply onward_steady; cbn [with_session cl_session];
      [apply advances_report_info|apply quiet_report_info]. }
  eapply onward_trans; [exact H0|].
  apply onward_and_then; [apply onward_flush_net|]. intro c1.
  apply onward_and_then.
  { destruct (in_watchdog i); [apply onward_keepalive|apply onward_refl]. }
  intro c2. destruct (in_poll i); cbn [end_client]; try apply onward_refl.
  destruct (conn_state_eqb (state (cl_session c2)) Connecting) eqn:Ec;
    cbn [end_client].
  { apply conn_state_eqb_eq in Ec.
    apply onward_steady; cbn [with_session cl_session]; [|reflexivity].
    eapply advances_trans; [|apply advances_say].
    apply advances_set_state. rewrite Ec. cbn. lia. }
  apply onward_and_then.
  { destruct (in_line i) as [line|]; [|apply onward_refl].
    apply onward_lift;
      [apply advances_proceed_user_input|apply quiet_proceed_user_input]. }
  intro c3. apply onward_and_then; [|apply onward_flush_stdout].
  destruct (in_net_readable i).
  - set (c4 := with_session (set_pings_sent 0 (cl_session c3)) c3).
    apply onward_trans with (c2 := c4).
    + unfold onward, c4. cbn. repeat split; auto.
    + apply onward_no_pings; [apply proceed_network_advances|reflexivity].
  - destruct (in_timed_out i); [|apply onward_refl]. cbn [end_client].
    apply onward_steady; cbn [with_session cl_session]; [|reflexivity].
    eapply advances_trans; [apply advances_say|apply advances_exit].
Qed.

Lemma onward_main_loop port inputs :
  forall c, onward c (end_client (main_loop port inputs c)).
Proof.
  induction inputs as [|i inputs IH]; intro c; [apply onward_refl|].
  cbn [main_loop]. destruct (want_exit (cl_session c)); [apply onward_refl|].
  apply onward_and_then; [apply onward_main_pass|apply IH].
Qed.

(** X14.  What a run never takes back.  Over any stretch of the main loop,
    however it ends: [want_exit], once set, stays set; the state never
    returns to an earlier stage of the connection (Connecting, Connected,
    LoginSent, then Chat or CommandSent); host name, room and the history
    switch stay as [main] set them. *)
Theorem session_never_goes_back port inputs c :
  let s := cl_session c in
  let s' := cl_session (end_client (main_loop port inputs c)) in
  (want_exit s = true -> want_exit s' = true) /\
  phase (state s) <= phase (state s') /\
  hostname s' = hostname s /\
  room s' = room s /\
  enable_history s' = enable_history s.
Proof.
  cbv zeta. destruct (onward_main_loop port inputs c) as [A1 [A2 [A3 [A4 [A5 _]]]]].
  repeat split; assumption.
Qed.


End RunProofs.

Section HistoryProofs.
Import HistoryFiles.

Lemma strlcat_fits dst src size :
  length dst + length src < size -> strlcat dst src size = dst ++ src.
Proof.
  intro H. unfold strlcat.
  replace (size <=? length dst) with false by (symmetry; apply Nat.leb_gt; lia).
  rewrite firstn_all2 by lia. reflexivity.
Qed.


Lemma firstn_repeat_le {A} (x : A) k n : k <= n -> firstn k (repeat x n) = repeat x k.
Proof.
  revert n. induction k as [|k IH]; intros n H; [reflexivity|].
  destruct n as [|n]; [lia|]. cbn [repeat firstn]. rewrite IH by lia. reflexivity.
Qed.

(** X16.  A record of the history.  [save_history] builds the line: the date,
    the name, a colon and a blank, the message, a line feed; the three
    [strlcat] cut nothing off.  The buffer is sized for a date of 20 bytes,
    which is what strftime writes for a four-digit year: the task is then
    exactly as long as the line.  For each byte the date is shorter, a NUL
    of the zeroed buffer goes into the record before the line feed. *)
Theorem history_record_layout date who msg :
  ~ In NUL date -> length date <= 20 ->
  history_task date who msg =
    Some {| it_len := 20 + strlen who + 2 + strlen msg + 1;
            it_ndone := 0;
            it_cb := None;
            it_data := date ++ cstr who ++ lit ": " ++ cstr msg ++
                       repeat NUL (20 - length date) ++ [NL] |}.
Proof.
  intros H0 Hd. unfold history_task, datelen, strlen.
  rewrite (cstr_clean date H0).
  set (w := cstr who). set (m := cstr msg).
  replace (20 + length w + 2 + length m + 1 <=? length date) with false
    by (symmetry; apply Nat.leb_gt; lia).
  rewrite (strlcat_fits date w) by lia.
  rewrite (strlcat_fits (date ++ w) (lit ": "))
    by (rewrite length_app; cbn [lit list_ascii_of_string length]; lia).
  rewrite (strlcat_fits ((date ++ w) ++ lit ": ") m)
    by (rewrite !length_app; cbn [lit list_ascii_of_string length]; lia).
  set (text := ((date ++ w) ++ lit ": ") ++ m).
  assert (L : length text = length date + length w + 2 + length m).
  { unfold text. rewrite !length_app. cbn [lit list_ascii_of_string length]. lia. }
  f_equal. f_equal.
  rewrite firstn_app, firstn_all2 by lia.
  rewrite firstn_repeat_le by lia.
  replace (20 + length w + 2 + length m + 1 - 1 - length text)
    with (20 - length date) by lia.
  unfold text. rewrite <- !app_assoc. reflexivity.
Qed.


(** X17.  Which messages share a history file: all that are not private go to
    the file of the room, whoever wrote them; private ones go to one file
    for each name. *)
Theorem save_path_separates home host room0 t1 w1 t2 w2 :
  get_save_path_for home host room0 t1 w1 =
  get_save_path_for home host room0 t2 w2 <->
  (t1 <> "c"%char /\ t2 <> "c"%char) \/
  (t1 = "c"%char /\ t2 = "c"%char /\ cstr w1 = cstr w2).
Proof.
  unfold get_save_path_for.
  destruct (Ascii.eqb_spec t1 "c") as [E1|E1];
    destruct (Ascii.eqb_spec t2 "c") as [E2|E2]; cbn [negb].
  - split.
    + intro H. right. split; [exact E1|]. split; [exact E2|].
      repeat apply app_inv_head in H. apply app_inv_tail in H. exact H.
    + intros [[H _]|[_ [_ H]]]; [congruence|]. rewrite H. reflexivity.
  - split.
    + intro H. repeat apply app_inv_head in H. discriminate H.
    + intros [[H _]|[_ [H _]]]; congruence.
  - split.
    + intro H. repeat apply app_inv_head in H. discriminate H.
    + intros [[_ H]|[H _]]; congruence.
  - split.
    + intros _. left. split; assumption.
    + intros _. reflexivity.
Qed.


Lemma strrchr_spec s c :
  forall i, strrchr s c = Some i -> i < strlen s /\ nth_error s i = Some c.
Proof.
  unfold strlen. induction s as [|x r IH]; intros i H; cbn [strrchr] in H; [discriminate|].
  cbn [cstr]. destruct (Ascii.eqb x NUL); [discriminate|].
  destruct (strrchr r c) as [j|].
  - inversion H; subst. destruct (IH j eq_refl) as [H1 H2].
    cbn [length nth_error]. split; [lia|exact H2].
  - destruct (Ascii.eqb x c) eqn:E; [|discriminate]. inversion H; subst.
    apply Ascii.eqb_eq in E. subst x. cbn [length nth_error]. split; [lia|reflexivity].
Qed.


Lemma strlen_le s : strlen s <= length s.
Proof.
  unfold strlen. induction s as [|x r IH]; [cbn; lia|]. cbn [cstr].
  destruct (Ascii.eqb x NUL); cbn [length]; lia.
Qed.

Lemma cstr_poke_NUL s : forall i,
  i < strlen s -> cstr (poke s i NUL) = firstn i (cstr s).
Proof.
  unfold strlen, poke. induction s as [|x r IH]; intros i H; [cbn in H; lia|].
  cbn [cstr] in *. destruct (Ascii.eqb x NUL) eqn:E; [cbn in H; lia|].
  destruct i as [|i]; cbn [firstn skipn app cstr length] in *.
  - reflexivity.
  - rewrite E. f_equal. apply IH. lia.
Qed.

Lemma poke_back s c : forall i,
  nth_error s i = Some c -> forall x, poke (poke s i x) i c = s.
Proof.
  unfold poke. induction s as [|y r IH]; intros i H x; [destruct i; discriminate|].
  destruct i as [|i]; cbn [nth_error firstn skipn app] in *.
  - inversion H. reflexivity.
  - f_equal. apply IH. exact H.
Qed.


Lemma mkdir_frame p fs :
  fs_denied (snd (mkdir p fs)) = fs_denied fs /\
  incl (fs_dirs fs) (fs_dirs (snd (mkdir p fs))) /\
  (forall q, In q (fs_dirs (snd (mkdir p fs))) -> In q (fs_dirs fs) \/ q = p).
Proof.
  unfold mkdir.
  destruct (mem p (fs_denied fs)); [cbn [snd]; auto using incl_refl|].
  destruct (mem p (fs_dirs fs)); [cbn [snd]; auto using incl_refl|].
  destruct p as [|x p]; [cbn [snd]; auto using incl_refl|].
  destruct (parent_exists (x :: p) (fs_dirs fs)); cbn [snd fs_dirs fs_denied];
    [|auto using incl_refl].
  split; [reflexivity|]. split; [apply incl_tl, incl_refl|].
  intros q [H|H]; [right; congruence|left; exact H].
Qed.

(** What [create_dir_for] leaves behind, whatever it returns: the buffer as
    it was, the directories that existed, and new ones only above the
    file. *)
Lemma create_dir_for_frame fuel :
  forall path fs,
  strlen path < fuel ->
  exists ok fs',
    create_dir_for fuel path fs = Some (ok, fs', path) /\
    fs_denied fs' = fs_denied fs /\
    incl (fs_dirs fs) (fs_dirs fs') /\
    (forall p, In p (fs_dirs fs') -> In p (fs_dirs fs) \/ length p < strlen path).
Proof.
  induction fuel as [|fuel IH]; intros path fs Hf; [lia|].
  cbn [create_dir_for].
  destruct (strrchr path "/") as [i|] eqn:Es.
  2:{ exists false, fs. split; [reflexivity|]. split; [reflexivity|].
      split; [apply incl_refl|]. auto. }
  destruct (strrchr_spec path "/" i Es) as [Hi Hn].
  pose proof (cstr_poke_NUL path i Hi) as Ec.
  pose proof (poke_back path "/" i Hn) as Hb.
  set (path1 := poke path i NUL) in *.
  assert (L1 : strlen path1 = i).
  { unfold strlen. rewrite Ec, length_firstn. unfold strlen in Hi. lia. }
  destruct (mkdir_frame (cstr path1) fs) as [F1 [F2 F3]].
  assert (F3' : forall q, In q (fs_dirs (snd (mkdir (cstr path1) fs))) ->
                In q (fs_dirs fs) \/ length q < strlen path).
  { intros q Hq. destruct (F3 q Hq) as [H|H]; [left; exact H|right].
    subst q. fold (strlen path1). lia. }
  destruct (mkdir (cstr path1) fs) as [[| | |] fs1]; cbn [snd] in *.
  - exists true, fs1. rewrite (Hb NUL : poke path1 i "/" = path). auto.
  - exists true, fs1. rewrite (Hb NUL : poke path1 i "/" = path). auto.
  - destruct (IH path1 fs1) as [ok2 [fs2 [R1 [R2 [R3 R4]]]]]; [lia|].
    rewrite R1.
    assert (R4' : forall q, In q (fs_dirs fs2) ->
                  In q (fs_dirs fs) \/ length q < strlen path).
    { intros q Hq. destruct (R4 q Hq) as [H|H]; [apply F3'; exact H|right; lia]. }
    destruct ok2.
    + destruct (mkdir_frame (cstr path1) fs2) as [G1 [G2 G3]].
      destruct (mkdir (cstr path1) fs2) as [a fs3]; cbn [snd] in *.
      eexists. exists fs3. rewrite (Hb NUL : poke path1 i "/" = path).
      split; [reflexivity|]. split; [congruence|].
      split; [eapply incl_tran; [exact F2|eapply incl_tran; [exact R3|exact G2]]|].
      intros q Hq. destruct (G3 q Hq) as [H|H]; [apply R4'; exact H|right].
      subst q. fold (strlen path1). lia.
    + exists false, fs2. rewrite (Hb NUL : poke path1 i "/" = path).
      split; [reflexivity|]. split; [congruence|].
      split; [eapply incl_tran; [exact F2|exact R3]|exact R4'].
  - exists false, fs1. rewrite (Hb NUL : poke path1 i "/" = path). auto.
Qed.

















End HistoryProofs.

Section HistoryProofs2.
Import HistoryFiles.

Lemma same_path_new path : strcmp0 (cstr path) path = true.
Proof. unfold strcmp0. rewrite cstr_cstr. apply bytes_eqb_eq. reflexivity. Qed.

Lemma same_path_iff path hf :
  same_path path hf = true <-> cstr (hf_path hf) = cstr path.
Proof. unfold same_path, strcmp0. apply bytes_eqb_eq. Qed.

Lemma not_listed path files :
  existsb (same_path path) files = false ->
  ~ In (cstr path) (map path_of files).
Proof.
  intros H K. apply in_map_iff in K. destruct K as [hf [K1 K2]].
  assert (E : existsb (same_path path) files = true).
  { apply existsb_exists. exists hf. split; [exact K2|].
    apply same_path_iff. exact K1. }
  congruence.
Qed.

Lemma get_history_file_keeps path files fs :
  match get_history_file path files fs with
  | (found, files', fs') =>
      (found = false -> files' = files) /\
      (unique_paths files -> unique_paths files') /\
      (Forall hf_sound files -> Forall hf_sound files')
  end.
Proof.
  unfold get_history_file.
  destruct (existsb (same_path path) files) eqn:E.
  - split; [|split]; auto.
  - pose proof (strlen_le (cstr path)) as Hl.
    destruct (create_dir_for_frame (S (length (cstr path))) (cstr path) fs)
      as [ok [fs' [R1 _]]]; [lia|].
    rewrite R1. destruct ok.
    + split; [|split].
      * intro K. discriminate K.
      * intro U. unfold unique_paths in *. cbn [map]. unfold path_of at 1.
        cbn [hf_path]. constructor; [|exact U]. rewrite cstr_cstr.
        apply not_listed. exact E.
      * intro S. constructor; [|exact S].
        unfold hf_sound. cbn. repeat split. constructor.
    + split; [|split]; auto.
Qed.

(** X19.  [get_history_file] as a lookup that inserts.  When it returns a file,
    the list holds one for the path, and asking again returns it from the
    list as it is, without touching the file system; when it returns NULL
    the list is as before.  A path that is listed is found with nothing
    changed.  For a path that is not, the file returned is a new one at the
    head of the list: it has the path, no task, no descriptor (-1), no
    error, and the counters at zero.  Paths stay unique in the list. *)
Theorem get_history_file_lookup path files fs :
  match get_history_file path files fs with
  | (found, files', fs') =>
      (found = true ->
       existsb (same_path path) files' = true /\
       get_history_file path files' fs' = (true, files', fs')) /\
      (found = false -> files' = files) /\
      (unique_paths files -> unique_paths files') /\
      (Forall hf_sound files -> Forall hf_sound files') /\
      (existsb (same_path path) files = true ->
       found = true /\ files' = files /\ fs' = fs) /\
      (existsb (same_path path) files = false -> found = true ->
       files' =
         {| hf_tasks := []; hf_path := cstr path; hf_ntasks := 0;
            hf_fd := None; hf_permerr := false; hf_last_access := 0 |}
         :: files)
  end.
Proof.
  pose proof (get_history_file_keeps path files fs) as K.
  unfold get_history_file in *.
  destruct (existsb (same_path path) files) eqn:E.
  - cbv beta iota in K. destruct K as [K1 [K2 K3]].
    split; [|split; [exact K1|split; [exact K2|split; [exact K3|split]]]].
    + intros _. split; [exact E|]. rewrite E. reflexivity.
    + intros _. repeat split.
    + intro Q. discriminate Q.
  - pose proof (strlen_le (cstr path)) as Hl.
    destruct (create_dir_for_frame (S (length (cstr path))) (cstr path) fs)
      as [ok [fs' [R1 _]]]; [lia|].
    rewrite R1 in *. destruct ok; cbv beta iota in K; destruct K as [K1 [K2 K3]].
    + split; [|split; [exact K1|split; [exact K2|split; [exact K3|split]]]].
      * intros _.
        assert (E' : existsb (same_path path)
                  ({| hf_tasks := []; hf_path := cstr path; hf_ntasks := 0;
                      hf_fd := None; hf_permerr := false; hf_last_access := 0 |}
                   :: files) = true).
        { cbn [existsb]. unfold same_path at 1. cbn [hf_path].
          rewrite same_path_new. reflexivity. }
        split; [exact E'|]. rewrite E'. reflexivity.
      * intro Q. discriminate Q.
      * intros _ _. reflexivity.
    + split; [|split; [exact K1|split; [exact K2|split; [exact K3|split]]]].
      * intro Q. discriminate Q.
      * intro Q. discriminate Q.
      * intros _ Q. discriminate Q.
Qed.

Lemma write_task_spec script :
  forall it out,
  task_ok it ->
  match write_task script it out with
  | (e, it', out', script') =>
      task_ok it' /\
      out' ++ task_rest it' = out ++ task_rest it /\
      (e = WroteAll -> task_rest it' = []) /\
      (e = WriteError -> In WrError script) /\
      (exists used, script = used ++ script')
  end.
Proof.
  induction script as [|a script IH]; intros it out Hok; cbn [write_task].
  - split; [exact Hok|]. split; [reflexivity|].
    split; [intro K; discriminate K|]. split; [intro K; discriminate K|].
    exists []. reflexivity.
  - destruct a as [n| |].
    + set (nw := Nat.min n (it_len it - it_ndone it)).
      pose proof (task_advance_ok nw it) as Hadv.
      pose proof (task_rest_advance nw it) as Hrest.
      pose proof (task_rest_length it) as Hlen.
      destruct Hok as [K1 K2].
      assert (Hok' : task_ok (task_advance nw it)).
      { split; [exact K1|]. cbn [task_advance it_ndone it_len]. unfold nw. lia. }
      destruct (it_ndone (task_advance nw it) <? it_len (task_advance nw it)) eqn:E.
      * specialize (IH (task_advance nw it) (out ++ firstn nw (task_rest it)) Hok').
        destruct (write_task script (task_advance nw it)
                    (out ++ firstn nw (task_rest it))) as [[[e it'] out'] script'].
        destruct IH as [I1 [I2 [I3 [I4 [used I5]]]]].
        split; [exact I1|]. split.
        { rewrite I2, Hrest, <- app_assoc, firstn_skipn. reflexivity. }
        split; [exact I3|]. split; [intro K; right; apply I4; exact K|].
        exists (WrRoom n :: used). rewrite I5. reflexivity.
      * split; [exact Hok'|]. split.
        { rewrite Hrest, <- app_assoc, firstn_skipn. reflexivity. }
        split.
        { intros _. apply Nat.ltb_ge in E. rewrite Hrest.
          apply skipn_all2. rewrite (task_rest_length it (conj K1 K2)).
          cbn [task_advance it_ndone it_len] in E. unfold nw in *. lia. }
        split; [intro K; discriminate K|]. exists [WrRoom n]. reflexivity.
    + split; [exact Hok|]. split; [reflexivity|].
      split; [intro K; discriminate K|]. split; [intro K; discriminate K|].
      exists [WrAgain]. reflexivity.
    + split; [exact Hok|]. split; [reflexivity|].
      split; [intro K; discriminate K|]. split; [intros _; left; reflexivity|].
      exists [WrError]. reflexivity.
Qed.


Lemma write_tasks_spec q :
  forall script out,
  Forall task_ok q ->
  match write_tasks script q out with
  | (e, q', out', script') =>
      Forall task_ok q' /\
      out' ++ queue_rest q' = out ++ queue_rest q /\
      (e = WroteAll <-> q' = []) /\
      (e = WriteError -> In WrError script) /\
      (exists used, script = used ++ script')
  end.
Proof.
  induction q as [|it q IH]; intros script out Hq; cbn [write_tasks].
  - split; [constructor|]. split; [reflexivity|]. split; [split; reflexivity|].
    split; [intro K; discriminate K|]. exists []. reflexivity.
  - inversion Hq as [|? ? Hit Hq']; subst.
    pose proof (write_task_spec script it out Hit) as T.
    destruct (write_task script it out) as [[[e it'] out'] script'].
    destruct T as [T1 [T2 [T3 [T4 [used T5]]]]].
    rewrite (queue_rest_cons it q).
    destruct e.
    + specialize (IH script' out' Hq').
      destruct (write_tasks script' q out') as [[[e2 q2] out2] script2].
      destruct IH as [I1 [I2 [I3 [I4 [used2 I5]]]]].
      split; [exact I1|]. split.
      { rewrite I2. rewrite (T3 eq_refl), app_nil_r in T2. rewrite T2.
        rewrite <- app_assoc. reflexivity. }
      split; [exact I3|]. split.
      { intro K. rewrite T5. apply in_or_app. right. apply I4. exact K. }
      exists (used ++ used2). rewrite T5, I5, app_assoc. reflexivity.
    + split; [constructor; assumption|]. split.
      { rewrite (queue_rest_cons it' q), app_assoc, T2, <- app_assoc. reflexivity. }
      split; [split; intro K; discriminate K|]. split; [intro K; discriminate K|].
      exists used. exact T5.
    + split; [constructor; assumption|]. split.
      { rewrite (queue_rest_cons it' q), app_assoc, T2, <- app_assoc. reflexivity. }
      split; [split; intro K; discriminate K|].
      split; [intros _; apply T4; reflexivity|].
      exists used. exact T5.
Qed.

(** One file in [proceed_history], when its open(2), if one is needed,
    succeeds. *)
Lemma proceed_history_file_spec now hf os :
  hf_sound hf ->
  (hf_fd hf = None -> mem (cstr (hf_path hf)) (os_refused os) = false) ->
  (0 < now)%Z ->
  match proceed_history_file now hf os with
  | (kept, os') =>
      os_refused os' = os_refused os /\
      (exists out,
         os_log os' = os_log os ++ [(cstr (hf_path hf), out)] /\
         out ++ queue_rest (match kept with
                            | Some hf' => hf_tasks hf'
                            | None => []
                            end) = queue_rest (hf_tasks hf)) /\
      match kept with
      | Some hf' =>
          hf_path hf' = hf_path hf /\ hf_sound hf' /\ hf_tasks hf' <> []
      | None =>
          os_fds os' =
            match hf_fd hf with
            | Some _ => os_fds os
            | None => (os_next os, cstr (hf_path hf)) :: os_fds os
            end
      end
  end.
Proof.
  intros [S1 [S2 [S3 S4]]] Hopen Hnow. unfold proceed_history_file. rewrite S3.
  assert (R : exists hf1 os1,
            reopen hf os = (hf1, os1) /\
            hf_tasks hf1 = hf_tasks hf /\ hf_path hf1 = hf_path hf /\
            hf_ntasks hf1 = hf_ntasks hf /\ hf_permerr hf1 = false /\
            hf_last_access hf1 = hf_last_access hf /\
            os_refused os1 = os_refused os /\ os_log os1 = os_log os /\
            os_fds os1 = match hf_fd hf with
                         | Some _ => os_fds os
                         | None => (os_next os, cstr (hf_path hf)) :: os_fds os
                         end).
  { unfold reopen. destruct (hf_fd hf) as [fd|].
    - exists hf, os. repeat split; auto.
    - unfold os_open. rewrite (Hopen eq_refl).
      eexists. eexists. split; [reflexivity|]. cbn. repeat split; auto. }
  destruct R as [hf1 [os1 [-> [R1 [R2 [R3 [R4 [R5 [R6 [R7 R8]]]]]]]]]].
  rewrite R1, R2, R3, R4, R5.
  pose proof (write_tasks_spec (hf_tasks hf) (os_script os1) [] S4) as W.
  destruct (write_tasks (os_script os1) (hf_tasks hf) []) as [[[e q] out] script].
  destruct W as [W1 [W2 [W3 [W4 W5]]]]. cbn [app] in W2.
  destruct e.
  - rewrite S1. replace (0 <? now)%Z with true by (symmetry; apply Z.ltb_lt; exact Hnow).
    cbn [logged with_script os_refused os_log os_fds].
    split; [exact R6|]. split; [|exact R8].
    exists out. rewrite R7. split; [reflexivity|].
    rewrite (proj1 W3 eq_refl) in W2. exact W2.
  - cbn [logged with_script os_refused os_log os_fds hf_tasks hf_path].
    split; [exact R6|]. split.
    + exists out. rewrite R7. split; [reflexivity|exact W2].
    + split; [reflexivity|]. split.
      * unfold hf_sound. cbn. repeat split; assumption.
      * intro K. apply W3 in K. discriminate K.
  - destruct (hf_fd hf1) as [fd|];
      cbn [os_close logged with_script os_refused os_log os_fds hf_tasks hf_path].
    + split; [exact R6|]. split.
      * exists out. rewrite R7. split; [reflexivity|exact W2].
      * split; [reflexivity|]. split.
        -- unfold hf_sound. cbn. repeat split; assumption.
        -- intro K. apply W3 in K. discriminate K.
    + split; [exact R6|]. split.
      * exists out. rewrite R7. split; [reflexivity|exact W2].
      * split; [reflexivity|]. split.
        -- unfold hf_sound. cbn. repeat split; assumption.
        -- intro K. apply W3 in K. discriminate K.
Qed.

End HistoryProofs2.

Section HistoryProofs3.
Import HistoryFiles.

Lemma same_path_eqb path hf :
  same_path path hf = bytes_eqb (path_of hf) (cstr path).
Proof. reflexivity. Qed.

Lemma pending_cons path hf files :
  pending path (hf :: files) =
    (if same_path path hf then queue_rest (hf_tasks hf) else []) ++
    pending path files.
Proof.
  unfold pending. cbn [filter]. destruct (same_path path hf).
  - cbn [map concat]. apply queue_rest_app.
  - reflexivity.
Qed.

Lemma pending_none path files :
  ~ In (cstr path) (map path_of files) -> pending path files = [].
Proof.
  induction files as [|hf files IH]; intro H; [reflexivity|].
  rewrite pending_cons. cbn [map In] in H.
  destruct (same_path path hf) eqn:E.
  - exfalso. apply H. left. apply same_path_iff in E. exact E.
  - rewrite IH; [reflexivity|]. intro K. apply H. right. exact K.
Qed.

Lemma appended_cons path p out entries :
  appended path ((p, out) :: entries) =
    (if bytes_eqb p (cstr path) then out else []) ++ appended path entries.
Proof.
  unfold appended. cbn [filter fst]. destruct (bytes_eqb p (cstr path)); reflexivity.
Qed.

Lemma appended_app path a b :
  appended path (a ++ b) = appended path a ++ appended path b.
Proof. unfold appended. rewrite filter_app, map_app, concat_app. reflexivity. Qed.

Lemma appended_none path entries L :
  Forall (fun e => In (fst e) L) entries -> ~ In (cstr path) L ->
  appended path entries = [].
Proof.
  induction 1 as [|[p out] entries Hp _ IH]; intro H; [reflexivity|].
  rewrite appended_cons, IH by exact H. cbn [fst] in Hp.
  destruct (bytes_eqb p (cstr path)) eqn:E; [|reflexivity].
  apply bytes_eqb_eq in E. subst p. contradiction.
Qed.

(** [proceed_history] on files that open: what it keeps and what it
    writes. *)
Lemma proceed_history_spec now files :
  forall os,
  unique_paths files -> Forall hf_sound files ->
  os_refused os = [] -> (0 < now)%Z ->
  match proceed_history now files os with
  | (files', os') =>
      os_refused os' = [] /\
      unique_paths files' /\
      Forall hf_sound files' /\
      Forall (fun hf => hf_tasks hf <> []) files' /\
      incl (map path_of files') (map path_of files) /\
      exists entries,
        os_log os' = os_log os ++ entries /\
        Forall (fun e => In (fst e) (map path_of files)) entries /\
        forall path,
          appended path entries ++ pending path files' = pending path files
  end.
Proof.
  induction files as [|hf files IH]; intros os U S R Hnow; cbn [proceed_history].
  - split; [exact R|]. split; [exact U|]. split; [constructor|].
    split; [constructor|]. split; [apply incl_refl|].
    exists []. rewrite app_nil_r. split; [reflexivity|]. split; [constructor|].
    reflexivity.
  - inversion S as [|? ? Shf S']; subst.
    unfold unique_paths in U. cbn [map] in U.
    inversion U as [|? ? Unew U']; subst.
    pose proof (proceed_history_file_spec now hf os Shf) as F.
    destruct (proceed_history_file now hf os) as [kept os1].
    destruct F as [F1 [[out [F2 F3]] F4]];
      [intros _; rewrite R; reflexivity|exact Hnow|].
    specialize (IH os1 U' S' (eq_trans F1 R) Hnow).
    destruct (proceed_history now files os1) as [files' os2].
    destruct IH as [I1 [I2 [I3 [I4 [I5 [entries [I6 [I7 I8]]]]]]]].
    assert (Hnone : forall path, same_path path hf = true ->
              appended path entries = [] /\ pending path files' = [] /\
              pending path files = []).
    { intros path E. apply same_path_iff in E.
      assert (N : ~ In (cstr path) (map path_of files))
        by (rewrite <- E; exact Unew).
      split; [exact (appended_none path entries _ I7 N)|].
      split; [|apply pending_none; exact N].
      apply pending_none. intro K. apply N. apply I5. exact K. }
    assert (Conserve : forall path tasks',
              out ++ queue_rest tasks' = queue_rest (hf_tasks hf) ->
              appended path ((path_of hf, out) :: entries) ++
              ((if same_path path hf then queue_rest tasks' else []) ++
               pending path files') =
              (if same_path path hf then queue_rest (hf_tasks hf) else []) ++
              pending path files).
    { intros path tasks' C. rewrite appended_cons, <- same_path_eqb.
      destruct (same_path path hf) eqn:E.
      - destruct (Hnone path E) as [N1 [N2 N3]]. rewrite N1, N2, N3, !app_nil_r.
        exact C.
      - cbn [app]. apply I8. }
    split; [exact I1|].
    assert (Log : os_log os2 = os_log os ++ (path_of hf, out) :: entries).
    { rewrite I6, F2, <- app_assoc. reflexivity. }
    assert (Ent : Forall (fun e => In (fst e) (map path_of (hf :: files)))
                    ((path_of hf, out) :: entries)).
    { constructor; [left; reflexivity|].
      eapply Forall_impl; [|exact I7]. intros e K. right. exact K. }
    destruct kept as [hf'|].
    + destruct F4 as [P1 [P2 P3]].
      assert (Pp : path_of hf' = path_of hf) by (unfold path_of; rewrite P1; reflexivity).
      split.
      { unfold unique_paths. cbn [map]. constructor; [|exact I2].
        rewrite Pp. intro K. apply Unew. apply I5. exact K. }
      split; [constructor; assumption|]. split; [constructor; assumption|].
      split.
      { cbn [map]. rewrite Pp. intros x [K|K]; [left; exact K|right; apply I5; exact K]. }
      exists ((path_of hf, out) :: entries). split; [exact Log|]. split; [exact Ent|].
      intro path. rewrite !pending_cons.
      replace (same_path path hf') with (same_path path hf)
        by (rewrite !same_path_eqb, Pp; reflexivity).
      apply Conserve. exact F3.
    + split; [exact I2|]. split; [exact I3|]. split; [exact I4|].
      split; [intros x K; right; apply I5; exact K|].
      exists ((path_of hf, out) :: entries). split; [exact Log|]. split; [exact Ent|].
      intro path. rewrite pending_cons.
      pose proof (Conserve path [] F3) as C.
      replace (queue_rest []) with (@nil ascii) in C by reflexivity.
      destruct (same_path path hf); exact C.
Qed.


(** X20.  The bytes of the history are conserved by [proceed_history].  With
    unique paths, files as the program keeps them and no open(2) refused:
    for every path, what has been appended to it followed by what is still
    queued for it is the same before and after the call, whatever the
    kernel takes of each write and wherever it says EAGAIN or fails. *)
Theorem history_bytes_conserved now files os path :
  unique_paths files -> Forall hf_sound files ->
  os_refused os = [] -> (0 < now)%Z ->
  appended path (os_log (snd (proceed_history now files os))) ++
  pending path (fst (proceed_history now files os)) =
  appended path (os_log os) ++ pending path files.
Proof.
  intros U S R Hnow.
  pose proof (proceed_history_spec now files os U S R Hnow) as H.
  destruct (proceed_history now files os) as [files' os'].
  destruct H as [_ [_ [_ [_ [_ [entries [H1 [_ H2]]]]]]]].
  cbn [fst snd]. rewrite H1, appended_app, <- app_assoc, H2. reflexivity.
Qed.

Lemma proceed_history_file_sound now hf os :
  hf_sound hf -> (0 < now)%Z ->
  match fst (proceed_history_file now hf os) with
  | Some hf' => path_of hf' = path_of hf /\ hf_sound hf' /\ hf_tasks hf' <> []
  | None => True
  end.
Proof.
  intros S Hnow.
  destruct (hf_fd hf) as [fd|] eqn:Efd.
  - pose proof (proceed_history_file_spec now hf os S) as F.
    destruct (proceed_history_file now hf os) as [kept os1]. cbn [fst].
    destruct F as [_ [_ F]]; [intro K; congruence|exact Hnow|].
    destruct kept as [hf'|]; [|exact I].
    destruct F as [F1 F2]. split; [unfold path_of; rewrite F1; reflexivity|exact F2].
  - destruct (mem (cstr (hf_path hf)) (os_refused os)) eqn:Er.
    + destruct S as [S1 [S2 [S3 S4]]].
      unfold proceed_history_file, reopen, os_open. rewrite S3, Efd, Er.
      cbn [write_tasks hf_last_access]. rewrite S1.
      replace (0 <? now)%Z with true by (symmetry; apply Z.ltb_lt; exact Hnow).
      exact I.
    + pose proof (proceed_history_file_spec now hf os S) as F.
      destruct (proceed_history_file now hf os) as [kept os1]. cbn [fst].
      destruct F as [_ [_ F]]; [intros _; exact Er|exact Hnow|].
      destruct kept as [hf'|]; [|exact I].
      destruct F as [F1 F2]. split; [unfold path_of; rewrite F1; reflexivity|exact F2].
Qed.

Lemma proceed_history_sound now files :
  forall os,
  unique_paths files -> Forall hf_sound files -> (0 < now)%Z ->
  let files' := fst (proceed_history now files os) in
  unique_paths files' /\ Forall hf_sound files' /\
  Forall (fun hf => hf_tasks hf <> []) files' /\
  incl (map path_of files') (map path_of files).
Proof.
  induction files as [|hf files IH]; intros os U S Hnow; cbn [proceed_history].
  - cbn [fst]. split; [exact U|]. split; [constructor|]. split; [constructor|].
    apply incl_refl.
  - inversion S as [|? ? Shf S']; subst.
    unfold unique_paths in U. cbn [map] in U.
    inversion U as [|? ? Unew U']; subst.
    pose proof (proceed_history_file_sound now hf os Shf Hnow) as F.
    destruct (proceed_history_file now hf os) as [kept os1]. cbn [fst] in F.
    specialize (IH os1 U' S' Hnow).
    destruct (proceed_history now files os1) as [files' os2].
    cbn [fst] in *. destruct IH as [I1 [I2 [I3 I4]]].
    destruct kept as [hf'|].
    + destruct F as [F1 [F2 F3]]. split.
      { unfold unique_paths. cbn [map]. constructor; [|exact I1].
        rewrite F1. intro K. apply Unew. apply I4. exact K. }
      split; [constructor; assumption|]. split; [constructor; assumption|].
      cbn [map]. rewrite F1.
      intros x [K|K]; [left; exact K|right; apply I4; exact K].
    + split; [exact I1|]. split; [exact I2|]. split; [exact I3|].
      intros x K. right. apply I4. exact K.
Qed.

Lemma history_task_ok date who msg it :
  history_task date who msg = Some it -> task_ok it.
Proof.
  unfold history_task. cbv zeta.
  set (datasz := datelen + strlen who + 2 + strlen msg + 1).
  assert (D : 1 <= datasz) by (unfold datasz; lia).
  clearbody datasz.
  destruct (datasz <=? length (cstr date)); [discriminate|].
  intro H. injection H as <-. unfold task_ok. cbn [it_data it_len it_ndone].
  split; [|lia].
  rewrite length_app, length_firstn, length_app, repeat_length.
  cbn [length]. lia.
Qed.

Lemma queue_on_paths path it files :
  map path_of (queue_on path it files) = map path_of files.
Proof.
  induction files as [|hf files IH]; [reflexivity|]. cbn [queue_on].
  destruct (same_path path hf); cbn [map]; [reflexivity|]. rewrite IH. reflexivity.
Qed.

Lemma queue_on_sound path it files :
  task_ok it -> Forall hf_sound files -> Forall hf_sound (queue_on path it files).
Proof.
  intros Hit. induction 1 as [|hf files Hhf Hfs IH]; [constructor|]. cbn [queue_on].
  destruct (same_path path hf); constructor; try assumption.
  destruct Hhf as [S1 [S2 [S3 S4]]]. unfold hf_sound. cbn.
  repeat split; try assumption. apply Forall_app. split; [exact S4|].
  constructor; [exact Hit|constructor].
Qed.

(** X21.  What holds of the history files between any two calls.  Both
    [save_history] and [proceed_history] (with the clock after the epoch)
    keep the paths of the list unique and every file in it without
    permanent error, with [hf_ntasks] and [hf_last_access] at 0 and
    well-formed tasks; and after [proceed_history] every file still listed
    has a task queued.  So the test of [hf_permerr] never finds it set, and
    [update_pollfds], which looks at [hf_ntasks], never asks to write to a
    history file. *)
Theorem history_files_stay_sound :
  (forall enabled home host room0 date type who msg files fs files' fs',
     save_history enabled home host room0 date type who msg files fs =
       Some (files', fs') ->
     unique_paths files -> Forall hf_sound files ->
     unique_paths files' /\ Forall hf_sound files') /\
  (forall now files os,
     (0 < now)%Z ->
     unique_paths files -> Forall hf_sound files ->
     let files' := fst (proceed_history now files os) in
     unique_paths files' /\ Forall hf_sound files' /\
     Forall (fun hf => hf_tasks hf <> []) files').
Proof.
  split.
  - intros enabled home host room0 date type who msg files fs files' fs' H U S.
    unfold save_history in H. destruct (negb enabled).
    { inversion H; subst. split; assumption. }
    pose proof (get_history_file_keeps
                  (get_save_path_for home host room0 type who) files fs) as G.
    destruct (get_history_file _ files fs) as [[found files1] fs1].
    destruct G as [G2 [G3 G4]].
    destruct found.
    + destruct (history_task date who msg) as [it|] eqn:E; [|discriminate].
      inversion H; subst. split.
      * unfold unique_paths. rewrite queue_on_paths. exact (G3 U).
      * apply queue_on_sound; [eapply history_task_ok; exact E|exact (G4 S)].
    + inversion H; subst. split; [exact (G3 U)|exact (G4 S)].
  - intros now files os Hnow U S files'.
    destruct (proceed_history_sound now files os U S Hnow) as [H1 [H2 [H3 _]]].
    split; [exact H1|]. split; [exact H2|exact H3].
Qed.

End HistoryProofs3.

Section HistoryProofs4.
Import HistoryFiles.

(** X22.  A history file that cannot be opened.  [proceed_history] drops every
    record queued for it, unwritten, and (the clock being after the epoch)
    removes the file from the list, the mark of the permanent error with
    it: nothing is appended to any path and no descriptor is opened. *)
Theorem history_open_failure_loses_records now hf os :
  hf_sound hf -> hf_fd hf = None ->
  mem (path_of hf) (os_refused os) = true -> (0 < now)%Z ->
  exists os',
    proceed_history now [hf] os = ([], os') /\
    os_fds os' = os_fds os /\
    forall path, appended path (os_log os') = appended path (os_log os).
Proof.
  intros [S1 [S2 [S3 S4]]] Efd Er Hnow. unfold path_of in Er.
  cbn [proceed_history]. unfold proceed_history_file, reopen, os_open.
  rewrite S3, Efd, Er. cbn [write_tasks hf_last_access hf_path]. rewrite S1.
  replace (0 <? now)%Z with true by (symmetry; apply Z.ltb_lt; exact Hnow).
  eexists. split; [reflexivity|]. split; [reflexivity|].
  intro path. cbn [logged with_script os_log]. rewrite appended_app.
  rewrite appended_cons. unfold appended at 3. cbn [filter map concat].
  destruct (bytes_eqb _ _); rewrite !app_nil_r; reflexivity.
Qed.









End HistoryProofs4.

Section StartupProofs.
Context {P : Platform}.

Lemma strchr_none a c : ~ In c a -> strchr a c = None.
Proof.
  induction a as [|x a IH]; intro H; [reflexivity|]. cbn [strchr].
  destruct (Ascii.eqb x NUL); [reflexivity|].
  destruct (Ascii.eqb_spec x c) as [E|E]; [exfalso; apply H; left; exact E|].
  rewrite IH; [reflexivity|]. intro K. apply H. right. exact K.
Qed.

Lemma strchr_not_before a c i :
  strchr a c = Some i -> ~ In c (firstn i a) /\ ~ In NUL (firstn i a).
Proof.
  revert i. induction a as [|x a IH]; intros i H; cbn [strchr] in H; [discriminate|].
  destruct (Ascii.eqb_spec x NUL) as [E0|E0]; [discriminate|].
  destruct (Ascii.eqb_spec x c) as [E|E].
  - inversion H; subst. cbn [firstn]. split; intros [].
  - destruct (strchr a c) as [j|]; [|discriminate]. inversion H; subst.
    destruct (IH j eq_refl) as [I1 I2]. cbn [firstn].
    split; intros [K|K]; try congruence; tauto.
Qed.

Lemma strlen_clean a : ~ In NUL a -> strlen a = length a.
Proof. intro H. unfold strlen. rewrite cstr_clean by exact H. reflexivity. Qed.

(** X24.  The argument [nick@host:port] taken apart.  A name without '@', a
    non-empty host without ':' and a port come back as they were written,
    unless the name has NICKNAME_MAX bytes or more, which ends in [usage];
    nothing after '@' ends in [usage] too, while without '@' an empty host
    is let through.  Whatever was accepted, the nickname is shorter than
    NICKNAME_MAX and the host name holds no ':'. *)
Theorem target_taken_apart login room0 :
  (forall nick0 host port,
     ~ In NUL nick0 -> ~ In "@"%char nick0 ->
     host <> [] -> ~ In NUL host -> ~ In ":"%char host ->
     ~ In NUL port ->
     parse_target [nick0 ++ "@"%char :: host ++ ":"%char :: port; room0] login =
       if NICKNAME_MAX <=? length nick0 then inr TooLongNickname
       else inl (mk_target nick0 host (Some port) (cstr room0))) /\
  (forall nick0,
     ~ In NUL nick0 -> ~ In "@"%char nick0 ->
     parse_target [nick0 ++ ["@"%char]; room0] login = inr InvalidHostname) /\
  (forall port,
     ~ In NUL port -> ~ In "@"%char port ->
     parse_target [":"%char :: port; room0] login =
       match login with
       | Some name =>
           if nick_ok name then
             inl (mk_target (cstr name) [] (Some port) (cstr room0))
           else inr TooLongNickname
       | None => inr NoLoginName
       end) /\
  (forall args t,
     parse_target args login = inl t ->
     nick_ok (tg_nick t) = true /\ ~ In ":"%char (tg_hostname t)).
Proof.
  split; [|split; [|split]].
  - intros nick0 host port N0 N1 Hne H0 H1 P0. unfold parse_target.
    assert (Ht : ~ In NUL (host ++ ":"%char :: port)).
    { intro K. apply in_app_or in K. destruct K as [K|[K|K]];
        [exact (H0 K)|discriminate K|exact (P0 K)]. }
    assert (Hc : cstr (nick0 ++ "@"%char :: host ++ ":"%char :: port) =
                 nick0 ++ "@"%char :: host ++ ":"%char :: port).
    { apply cstr_clean. intro K. apply in_app_or in K.
      destruct K as [K|[K|K]]; [exact (N0 K)|discriminate K|exact (Ht K)]. }
    rewrite Hc. cbv zeta.
    rewrite strchr_field by (try assumption; discriminate).
    rewrite skipn_S_length_app, firstn_length_app.
    destruct host as [|h0 host']; [congruence|].
    change ((h0 :: host') ++ ":"%char :: port)
      with (h0 :: (host' ++ ":"%char :: port)).
    cbv iota beta.
    destruct (NICKNAME_MAX <=? length nick0); [reflexivity|].
    change (h0 :: (host' ++ ":"%char :: port))
      with ((h0 :: host') ++ ":"%char :: port).
    rewrite strchr_field by (try assumption; discriminate).
    rewrite skipn_S_length_app, firstn_length_app. reflexivity.
  - intros nick0 N0 N1. unfold parse_target.
    assert (Hc : cstr (nick0 ++ ["@"%char]) = nick0 ++ ["@"%char]).
    { apply cstr_clean. intro K. apply in_app_or in K.
      destruct K as [K|[K|[]]]; [exact (N0 K)|discriminate K]. }
    rewrite Hc. cbv zeta.
    rewrite strchr_field by (try assumption; discriminate).
    rewrite skipn_S_length_app. reflexivity.
  - intros port P0 P1. unfold parse_target.
    assert (Hc : cstr (":"%char :: port) = ":"%char :: port).
    { apply cstr_clean. intros [K|K]; [discriminate K|exact (P0 K)]. }
    rewrite Hc. cbv zeta.
    rewrite (strchr_none (":"%char :: port) "@")
      by (intros [K|K]; [discriminate K|exact (P1 K)]).
    destruct login as [name|]; [|reflexivity].
    unfold nick_ok, strlen. rewrite Nat.ltb_antisym.
    destruct (NICKNAME_MAX <=? length (cstr name)); reflexivity.
  - intros args t H. unfold parse_target in H.
    destruct args as [|arg0 [|arg1 [|]]]; try discriminate H.
    cbv zeta in H.
    set (named := match strchr (cstr arg0) "@" with
                  | Some i => match skipn (S i) (cstr arg0) with
                              | [] => inr InvalidHostname
                              | a :: l => inl (firstn i (cstr arg0), a :: l)
                              end
                  | None => match login with
                            | Some name => inl (cstr name, cstr arg0)
                            | None => inr NoLoginName
                            end
                  end) in H.
    assert (K : forall nick0 host, named = inl (nick0, host) ->
                ~ In NUL nick0 /\ ~ In NUL host).
    { intros nick0 host E. unfold named in E.
      destruct (strchr (cstr arg0) "@") as [i|] eqn:Ei.
      - destruct (skipn (S i) (cstr arg0)) as [|a l] eqn:Es; [discriminate E|].
        inversion E; subst. split.
        + exact (proj2 (strchr_not_before _ _ _ Ei)).
        + rewrite <- Es. intro K. apply (cstr_no_NUL arg0).
          rewrite <- (firstn_skipn (S i) (cstr arg0)). apply in_or_app. right. exact K.
      - destruct login as [name|]; [|discriminate E].
        inversion E; subst. split; apply cstr_no_NUL. }
    destruct named as [[nick0 host]|e]; [|discriminate H].
    destruct (K nick0 host eq_refl) as [K1 K2].
    destruct (NICKNAME_MAX <=? length nick0) eqn:El; [discriminate H|].
    apply Nat.leb_gt in El.
    assert (Hn : nick_ok nick0 = true).
    { unfold nick_ok. rewrite strlen_clean by exact K1. apply Nat.ltb_lt. exact El. }
    destruct (strchr host ":") as [j|] eqn:Ej; inversion H; subst; cbn [tg_nick tg_hostname].
    + split; [exact Hn|]. exact (proj1 (strchr_not_before _ _ _ Ej)).
    + split; [exact Hn|]. intro C.
      assert (Some0 : strchr host ":" <> None).
      { clear - C K2. induction host as [|x host IH]; [destruct C|].
        cbn [strchr].
        destruct (Ascii.eqb_spec x NUL) as [E0|E0];
          [exfalso; apply K2; left; exact E0|].
        destruct (Ascii.eqb_spec x ":") as [E|E]; [discriminate|].
        destruct C as [C|C]; [congruence|].
        destruct (strchr host ":") eqn:Eh; [discriminate|].
        exfalso. apply IH; [intro Q; apply K2; right; exact Q|exact C|reflexivity]. }
      congruence.
Qed.

End StartupProofs.

Section ConnectProofs.

Lemma connect_loop_open res : forall s,
  match connect_loop res s [] with
  | Linked _ fd open => open = [fd]
  | Unresolved => False
  | NoConnection open => open = []
  end.
Proof.
  induction res as [|p res IH]; intro s; cbn [connect_loop]; [reflexivity|].
  destruct (ai_socket p) as [fd|]; [|apply IH].
  destruct (ai_connect p); [reflexivity|reflexivity|apply IH].
Qed.

(** X25.  [icb_connect] takes the first address of the list for which a socket
    could be made and connect(2) either succeeded or is in progress, and
    passes over the others, closing their sockets.  It leaves the state
    at Connected or Connecting accordingly, with the announcement queued,
    which is the session the main loop starts from; the one socket open is
    the one it returns.  With no such address the process ends, nothing open
    and nothing queued. *)
Theorem icb_connect_first_usable res history_on nick0 hostname0 room0 :
  match find usable res with
  | Some p =>
      exists fd,
        ai_socket p = Some fd /\
        icb_connect (Some res)
          (initial_session history_on nick0 hostname0 room0) =
          Linked (cl_session
                    (initial_client history_on
                       (match ai_connect p with ConnDone => true | _ => false end)
                       nick0 hostname0 room0))
                 fd [fd]
  | None =>
      icb_connect (Some res)
        (initial_session history_on nick0 hostname0 room0) = NoConnection []
  end.
Proof.
  unfold icb_connect.
  induction res as [|p res IH]; cbn [find connect_loop]; [reflexivity|].
  unfold usable at 1.
  destruct (ai_socket p) as [fd|] eqn:Es; [|exact IH].
  destruct (ai_connect p) eqn:Ec.
  - exists fd. split; [exact Es|]. rewrite Ec. reflexivity.
  - exists fd. split; [exact Es|]. rewrite Ec. reflexivity.
  - exact IH.
Qed.

Lemma cstr_app_no_NUL a r : ~ In NUL a -> cstr (a ++ r) = a ++ cstr r.
Proof.
  induction a as [|x a IH]; intro H; [reflexivity|].
  cbn [app cstr]. destruct (Ascii.eqb_spec x NUL) as [E|E];
    [exfalso; apply H; left; exact E|].
  rewrite IH; [reflexivity|]. intro K. apply H. right. exact K.
Qed.

Lemma cstr_rest b : cstr (skipn (strlen b) b) = [].
Proof.
  unfold strlen. induction b as [|x b IH]; [reflexivity|]. cbn [cstr].
  destruct (Ascii.eqb x NUL) eqn:E; cbn [length skipn cstr].
  - rewrite E. reflexivity.
  - exact IH.
Qed.

Lemma blank_clean (l : bytes) : ~ In NUL (map (fun _ => " "%char) l).
Proof. induction l as [|x l IH]; [intros []|]. intros [K|K]; [discriminate K|exact (IH K)]. Qed.

Lemma blank_repeat (l : bytes) : map (fun _ => " "%char) l = repeat " "%char (length l).
Proof. induction l as [|x l IH]; [reflexivity|]. cbn [map length repeat]. rewrite IH. reflexivity. Qed.

(** X26.  The line being typed is put aside and given back.  With no copy held,
    [prepare_stdout] shows a line of blanks of the same length with the
    cursor at its start; [restore_rl] after it shows the line again, with
    point and mark as they were, and drops the copy.  A second
    [prepare_stdout] with no [restore_rl] in between is the internal
    error. *)
Theorem typed_line_survives_output r :
  o_rl_buf r = None ->
  exists r1 r2,
    prepare_stdout r = Some r1 /\
    cstr (rl_line_buffer r1) = repeat " "%char (strlen (rl_line_buffer r)) /\
    rl_point r1 = 0 /\ rl_mark r1 = 0 /\
    prepare_stdout r1 = None /\
    restore_rl r1 = Some r2 /\
    cstr (rl_line_buffer r2) = cstr (rl_line_buffer r) /\
    rl_point r2 = rl_point r /\ rl_mark r2 = rl_mark r /\
    o_rl_buf r2 = None /\
    rl_shown r2 =
      rl_shown r ++ [(repeat " "%char (strlen (rl_line_buffer r)), 0);
                     (cstr (rl_line_buffer r), rl_point r)].
Proof.
  intro H. unfold prepare_stdout. rewrite H.
  eexists. eexists. split; [reflexivity|].
  cbn [rl_line_buffer rl_point rl_mark o_rl_buf o_rl_point o_rl_mark rl_shown
       restore_rl prepare_stdout].
  rewrite cstr_cstr.
  split.
  { rewrite cstr_app_no_NUL by apply blank_clean.
    fold (strlen (rl_line_buffer r)). rewrite cstr_rest, app_nil_r.
    apply blank_repeat. }
  do 4 (split; [reflexivity|]).
  split.
  { cbn [rl_line_buffer].
    rewrite cstr_app_no_NUL by apply cstr_no_NUL. cbn [cstr].
    rewrite Ascii.eqb_refl. apply app_nil_r. }
  do 3 (split; [reflexivity|]).
  cbn [rl_shown].
  rewrite <- app_assoc. cbn [app]. rewrite blank_repeat. reflexivity.
Qed.

End ConnectProofs.

Section HandshakeProofs.
Context {P : Platform}.

Lemma get_next_drained_ready ib s :
  ready ib [] -> 1 <= bufsize ib ->
  exists ib',
    get_next_icb_msg ib (mk_sock [] StillOpen) s =
      (NoMessage, ib', mk_sock [] StillOpen, s) /\
    ready ib' [] /\ 1 <= bufsize ib'.
Proof.
  intros Hr Hsz. pose proof BUF_MAX_big as HB.
  unfold get_next_icb_msg. cbv zeta.
  rewrite (ready_kept ib [] Hr). cbn [sk_avail].
  destruct (read_loop_all 1 [] (bufsize ib) 0 [] s) as [size' [H1 H2]];
    cbn [length]; try lia.
  cbn [length] in H1. rewrite H1.
  cbn [rs_buf rs_bufsize rs_roundread rs_sock rs_session app length Nat.eqb andb].
  eexists. split; [reflexivity|]. split; [reflexivity|].
  cbn [bufsize]. cbn [app length] in H2. lia.
Qed.

Lemma proceed_output_blocked q sink :
  exists q' called, proceed_output q (mk_fd [] sink) = Flushed q' (mk_fd [] sink) called.
Proof.
  induction q as [|it q IH]; cbn [proceed_output]; [eexists; eexists; reflexivity|].
  cbn [fd_script fd_sink].
  assert (E : push_data [] sink (task_rest it) = (Some 0, mk_fd [] sink))
    by (destruct (task_rest it); reflexivity).
  rewrite E. destruct (_ <? _); [eexists; eexists; reflexivity|].
  destruct IH as [q' [called IH]]. rewrite IH. eexists; eexists; reflexivity.
Qed.

Lemma flush_stdout_blocked c :
  exists q,
    flush_stdout [] c =
      Continue (mk_client (set_tasks_stdout q (cl_session c)) (cl_inbuf c)
                          (cl_sent c) (cl_shown c) (cl_received c)).
Proof.
  unfold flush_stdout. cbv zeta.
  destruct (proceed_output_blocked (tasks_stdout (cl_session c)) (cl_shown c))
    as [q [called H]].
  rewrite H. exists q. reflexivity.
Qed.

Lemma push_data_whole n sink data :
  length data <= n ->
  push_data [WrRoom n] sink data = (Some (length data), mk_fd (match data with [] => [WrRoom n] | _ => [] end) (sink ++ data)).
Proof.
  intro H. destruct data as [|x data]; [cbn [push_data length]; rewrite app_nil_r; reflexivity|].
  cbn [push_data].
  assert (M : Nat.min n (length (x :: data)) = length (x :: data)) by lia.
  rewrite M, firstn_all, skipn_all. cbn [push_data option_map].
  rewrite Nat.add_0_r. reflexivity.
Qed.

(** One pass in which a whole packet arrives and is handled. *)
Lemma net_pass_message port type body c s' :
  at_rest c -> tasks_net (cl_session c) = [] ->
  conn_state_eqb (state (cl_session c)) Connecting = false ->
  length body <= 253 ->
  proceed_icb_msg (lit "[12:00:00]") (type :: body)
    (set_pings_sent 0 (set_tasks_net [] (cl_session c))) = Ok s' ->
  want_exit s' = false -> want_info s' = false ->
  exists c' q,
    main_pass port (net_pass (mk_sock (packet type body) StillOpen)) c = Continue c' /\
    at_rest c' /\
    cl_session c' = set_tasks_stdout q s' /\
    cl_sent c' = cl_sent c /\
    cl_received c' = cl_received c ++ [type :: body].
Proof.
  intros [R1 [R2 [R3 R4]]] Hq Hst Hb Hm He Hi.
  pose proof BUF_MAX_big as HB.
  unfold main_pass. cbv zeta.
  cbn [in_siginfo in_net_write in_watchdog in_poll in_line in_net_readable
       in_socket in_timed_out in_clock in_stdout_write net_pass orb].
  rewrite R2. unfold flush_net. cbv zeta. rewrite Hq.
  cbn [proceed_output and_then fd_sink cl_session].
  cbn [state set_tasks_net]. rewrite Hst.
  cbn [with_session cl_session cl_inbuf cl_sent cl_shown cl_received sk_avail].
  set (s := set_pings_sent 0 (set_tasks_net [] (cl_session c))) in *.
  assert (L : length (packet type body) = length body + 3) by apply packet_length.
  destruct (get_next_packet (cl_inbuf c) (packet type body) s [] type body []
              R3) as [ib1 [G1 [G2 G3]]].
  { cbn [app]. rewrite app_nil_r. reflexivity. }
  { lia. }
  { cbn [app]. rewrite L. lia. }
  { cbn [length]. lia. }
  destruct (get_next_drained_ready ib1 s' G2) as [ib2 [D1 [D2 D3]]].
  { cbn [length] in G3. lia. }
  rewrite L.
  replace (S (length (buf (cl_inbuf c)) + (length body + 3)))
    with (S (S (length (buf (cl_inbuf c)) + (length body + 2)))) by lia.
  unfold with_session.
  cbn [proceed_network cl_session cl_inbuf cl_sent cl_shown cl_received].
  assert (W : want_exit s = false) by exact R1.
  rewrite W, G1, Hm.
  cbn [lift and_then with_session cl_session cl_inbuf cl_sent cl_shown cl_received].
  rewrite He, D1.
  cbn [and_then].
  match goal with |- context [flush_stdout [] ?c1] =>
    destruct (flush_stdout_blocked c1) as [q F]; rewrite F end.
  cbn [cl_session cl_inbuf cl_sent cl_shown cl_received].
  eexists. exists q. split; [reflexivity|].
  cbn [cl_session cl_inbuf cl_sent cl_shown cl_received].
  split; [|split; [reflexivity|split; reflexivity]].
  split; [exact He|]. split; [exact Hi|]. split; assumption.
Qed.

(** One pass in which the socket takes the one packet that is queued. *)
Lemma write_pass_sends port n pkt c :
  at_rest c -> tasks_net (cl_session c) = [new_task pkt] ->
  conn_state_eqb (state (cl_session c)) Connecting = false ->
  length pkt <= n ->
  exists c' q,
    main_pass port (write_pass n) c = Continue c' /\
    at_rest c' /\
    cl_session c' = set_tasks_stdout q (set_tasks_net [] (cl_session c)) /\
    cl_sent c' = cl_sent c ++ pkt /\
    cl_received c' = cl_received c.
Proof.
  intros [R1 [R2 [R3 R4]]] Hq Hst Hn.
  unfold main_pass. cbv zeta.
  cbn [in_siginfo in_net_write in_watchdog in_poll in_line in_net_readable
       in_socket in_timed_out in_clock in_stdout_write write_pass orb].
  rewrite R2. unfold flush_net. cbv zeta. rewrite Hq.
  cbn [proceed_output fd_script fd_sink].
  assert (T : task_rest (new_task pkt) = pkt).
  { unfold task_rest, new_task. cbn [it_len it_ndone it_data skipn].
    rewrite Nat.sub_0_r. apply firstn_all. }
  rewrite T, (push_data_whole n (cl_sent c) pkt Hn).
  unfold task_advance at 1 2. cbn [it_len it_ndone new_task].
  rewrite Nat.ltb_irrefl.
  cbn [proceed_output run_cb task_advance it_cb new_task app and_then fd_sink
       cl_session].
  cbn [state set_tasks_net]. rewrite Hst.
  cbn [and_then].
  match goal with |- context [flush_stdout [] ?c1] =>
    destruct (flush_stdout_blocked c1) as [q F]; rewrite F end.
  cbn [cl_session cl_inbuf cl_sent cl_shown cl_received].
  eexists. exists q. split; [reflexivity|].
  cbn [cl_session cl_inbuf cl_sent cl_shown cl_received].
  split; [|split; [reflexivity|split; reflexivity]].
  split; [exact R1|]. split; [exact R2|]. split; assumption.
Qed.

(** X27.  Logging in, from the connection to the chat.  A client that starts
    connected, with a nickname short enough, meets the protocol packet of
    version 1, a socket that takes the login packet, and the login
    confirmation, in three passes of the main loop.  It ends in Chat, having
    sent exactly the one login packet (nickname twice, room, the word login)
    and handed the two messages to [proceed_icb_msg], with nothing left to
    send. *)
Theorem login_reaches_chat port history_on nick0 hostname0 room0 rest1 rest2 n :
  nick_ok nick0 = true ->
  3 * strlen nick0 + strlen room0 <= 243 ->
  length rest1 <= 251 -> length rest2 <= 253 ->
  length (login_text nick0 room0) + 3 <= n ->
  exists c,
    main_loop port
      [net_pass (mk_sock (packet "j" (lit "1" ++ SOH :: rest1)) StillOpen);
       write_pass n;
       net_pass (mk_sock (packet "a" rest2) StillOpen)]
      (initial_client history_on true nick0 hostname0 room0) = Continue c /\
    state (cl_session c) = Chat /\
    tasks_net (cl_session c) = [] /\
    cl_sent c = packet "a" (login_text nick0 room0) /\
    cl_received c = [ "j"%char :: lit "1" ++ SOH :: rest1; "a"%char :: rest2 ].
Proof.
  intros Hn Hl H1 H2 Hroom.
  set (c0 := initial_client history_on true nick0 hostname0 room0).
  assert (A0 : at_rest c0).
  { split; [reflexivity|]. split; [reflexivity|]. split; [exact ready_inbuf0|].
    unfold c0, initial_client. cbn [cl_inbuf inbuf0 bufsize]. lia. }
  set (s0 := set_pings_sent 0 (set_tasks_net [] (cl_session c0))).
  assert (J : proceed_icb_msg (lit "[12:00:00]")
                ("j"%char :: lit "1" ++ SOH :: rest1) s0 =
              Ok (set_state LoginSent
                    (set_tasks_net
                       [new_task (packet "a" (login_text nick0 room0))] s0))).
  { rewrite (proceed_protocol_message _ _ s0 eq_refl).
    rewrite (push_login_packet s0 eq_refl Hn Hl). reflexivity. }
  destruct (net_pass_message port "j" (lit "1" ++ SOH :: rest1) c0
              (set_state LoginSent
                 (set_tasks_net
                    [new_task (packet "a" (login_text nick0 room0))] s0)) A0
              eq_refl eq_refl) as [c1 [q1 [P1 [A1 [S1 [T1 V1]]]]]];
    [cbn [lit list_ascii_of_string app length]; lia|exact J|reflexivity|reflexivity|].
  destruct (write_pass_sends port n (packet "a" (login_text nick0 room0)) c1 A1)
    as [c2 [q2 [P2 [A2 [S2 [T2 V2]]]]]].
  { rewrite S1. reflexivity. }
  { rewrite S1. reflexivity. }
  { rewrite packet_length. lia. }
  destruct (net_pass_message port "a" rest2 c2
              (set_state Chat
                 (say [NL] (say nick0 (say (lit " as ")
                   (say room0 (say (lit "Logged in to room ")
                      (set_pings_sent 0 (set_tasks_net [] (cl_session c2)))))))))
              A2) as [c3 [q3 [P3 [A3 [S3 [T3 V3]]]]]].
  { rewrite S2. reflexivity. }
  { rewrite S2, S1. reflexivity. }
  { exact H2. }
  { unfold proceed_icb_msg. cbn [hd tl]. change (Ascii.eqb "a" "a") with true.
    cbv iota. rewrite S2, S1. reflexivity. }
  { rewrite S2, S1. reflexivity. }
  { rewrite S2, S1. reflexivity. }
  exists c3.
  split.
  { cbn [main_loop]. destruct A0 as [W0 _]. destruct A1 as [W1 _].
    destruct A2 as [W2 _]. rewrite W0, P1. cbn [and_then].
    rewrite W1, P2. cbn [and_then]. rewrite W2, P3. reflexivity. }
  split; [rewrite S3; reflexivity|].
  split; [rewrite S3, S2; reflexivity|].
  split; [rewrite T3, T2, T1; reflexivity|].
  rewrite V3, V2, V1. reflexivity.
Qed.

End HandshakeProofs.

Section PollProofs.
Import HistoryFiles.

(** X28.  What [update_pollfds] asks poll(2) for.  The array never shrinks and
    has room for the three streams and every history file.  The terminal is
    read unless the connection is still being made; standard output and the
    socket are waited on for writing exactly while something is queued for
    them, and the socket always for reading.  For the history files, as
    [save_history] and [proceed_history] keep them, no event is asked, even
    with records waiting, and what is left of a longer array names
    descriptor 0 with no event. *)
Theorem history_files_never_polled npfd sock s files :
  Forall hf_sound files ->
  let pfds := snd (update_pollfds npfd sock s files) in
  fst (update_pollfds npfd sock s files) = Nat.max npfd (3 + length files) /\
  length pfds = Nat.max npfd (3 + length files) /\
  firstn 3 pfds =
    [ mk_pollfd sock true (nonempty (tasks_net s));
      mk_pollfd 1 false (nonempty (tasks_stdout s));
      mk_pollfd 0 (negb (conn_state_eqb (state s) Connecting)) false ] /\
  map pfd_fd (firstn (length files) (skipn 3 pfds)) =
    map (fun hf => fd_number (hf_fd hf)) files /\
  Forall (fun p => pfd_in p = false /\ pfd_out p = false) (skipn 3 pfds) /\
  Forall (fun p => pfd_fd p = 0%Z) (skipn (3 + length files) pfds).
Proof.
  intros Hs pfds. unfold pfds, update_pollfds, MainFDCount. cbv zeta.
  cbn [fst snd].
  set (n := if npfd <? 3 + length files then 3 + length files else npfd).
  assert (En : n = Nat.max npfd (3 + length files)).
  { unfold n. destruct (npfd <? 3 + length files) eqn:E.
    - apply Nat.ltb_lt in E. lia.
    - apply Nat.ltb_ge in E. lia. }
  set (entry := fun hf => mk_pollfd (fd_number (hf_fd hf)) false
                            (negb (hf_ntasks hf =? 0))).
  split; [exact En|].
  split.
  { cbn [app length]. rewrite length_app, length_map, repeat_length. lia. }
  split; [reflexivity|].
  cbn [app skipn].
  split.
  { rewrite firstn_app, length_map, Nat.sub_diag, firstn_O, app_nil_r.
    rewrite <- (length_map entry files), firstn_all, map_map. reflexivity. }
  split.
  { apply Forall_app. split.
    - apply Forall_map. eapply Forall_impl; [|exact Hs].
      intros hf [_ [H0 _]]. unfold entry. cbn [pfd_in pfd_out].
      rewrite H0. split; reflexivity.
    - apply Forall_forall. intros p Hp. apply repeat_spec in Hp. subst p.
      split; reflexivity. }
  change (3 + length files) with (S (S (S (length files)))). cbn [skipn].
  rewrite skipn_app, length_map.
  replace (length files - length files) with 0 by lia.
  rewrite <- (length_map entry files) at 1. rewrite skipn_all. cbn [app skipn].
  apply Forall_forall. intros p Hp. apply repeat_spec in Hp. subst p. reflexivity.
Qed.

End PollProofs.

(** ** The model evaluated *)

(** [push_icb_msg_extended] at a payload of 253 bytes, which with its NUL
    fills one slot: the function builds a single slot of 256 bytes whose
    length byte is 1, while 255 bytes follow it, and what follows the type
    is all NUL.  No run gets there: [push_icb_msg] calls the function only
    with ExtPkt set, which no step of the program does. *)
Example extended_full_slot_lost :
  let msg := repeat "a"%char 253 in
  let it := push_icb_msg_extended "b" msg in
  it_len it = 256 /\
  length (it_data it) = 256 /\
  nat_of_ascii (hd NUL (it_data it)) = 1 /\
  length (tl (it_data it)) = 255 /\
  it_data it = "001"%char :: "b"%char :: repeat NUL 254.
Proof. vm_compute. repeat split. Qed.

(** The scenario of a 100-byte task and a write that takes 40 bytes. *)
Example partial_write_40_of_100 :
  proceed_output [demo_task] (mk_fd [WrRoom 40; WrAgain] []) =
    Flushed [task_advance 40 demo_task] (mk_fd [] (repeat "x"%char 40)) [] /\
  proceed_output [task_advance 40 demo_task] (mk_fd [WrRoom 100] []) =
    Flushed [] (mk_fd [] (repeat "x"%char 60)) [].
Proof. split; vm_compute; reflexivity. Qed.

(** The handshake: a 'j' packet for protocol 1 received in Connected queues
    one login message and leaves the state at LoginSent. *)
Example handshake_queues_login :
  match @main_pass openbsd None
          (net_pass (mk_sock (packet "j" (lit "1" ++ SOH :: lit "HIDDEN" ++
                                          SOH :: lit "unknown" ++ [SOH]))
                             StillOpen))
          (demo_client Connected) with
  | Continue c =>
      state (cl_session c) = LoginSent /\
      map it_data (tasks_net (cl_session c)) =
        [packet "a" (lit "alice" ++ SOH :: lit "alice" ++ SOH ::
                     lit "lobby" ++ SOH :: lit "login" ++ [SOH])]
  | _ => False
  end.
Proof. vm_compute. split; reflexivity. Qed.

(** A read of zero bytes in Chat: the disconnect is announced, nothing is
    queued for the server, and the loop is left. *)
Example peer_close_ends_session :
  match @main_pass openbsd None (net_pass (mk_sock [] PeerClosed))
          (demo_client Chat) with
  | Continue c =>
      want_exit (cl_session c) = true /\
      tasks_net (cl_session c) = [] /\
      concat (map it_data (tasks_stdout (cl_session c))) =
        lit "Server " ++ NUL :: lit "icb.example.org" ++ NUL ::
        lit " closed connection, exiting..." ++ [NL; NUL] /\
      @main_loop openbsd None [net_pass (mk_sock [] StillOpen)] c = Continue c
  | _ => False
  end.
Proof. vm_compute. repeat split. Qed.

Lemma roundtrip_by_chunks_witness :
  @nick_ok openbsd (lit "alice") = true /\
  exists its msgs,
    @push_icb_msg_ws openbsd (lit "alice") "b" (lit "hello, world") = Some its /\
    decode_wire its (demo_session Chat) = (msgs, NoMessage) /\
    concat (map (@tl ascii) msgs) = lit "hello, world".
Proof.
  split; [reflexivity|].
  destruct (@roundtrip_by_chunks openbsd (lit "alice") "b" (lit "hello, world")
              (demo_session Chat) eq_refl)
    as [[its [msgs [H1 [H2 [_ [_ [_ H6]]]]]]] _].
  { cbn. lia. }
  exists its, msgs. split; [exact H1|]. split; [exact H2|]. apply H6. reflexivity.
Defined.

Lemma roundtrip_counterexample :
  exists its msgs,
    @push_icb_msg_ws openbsd (lit "alice") "h" private_demo = Some its /\
    decode_wire its (demo_session Chat) = (msgs, NoMessage) /\
    Forall (fun m => hd NUL m = "h"%char) msgs /\
    length (concat (map (@tl ascii) msgs)) = 312 /\
    length private_demo = 306 /\
    concat (map (@tl ascii) msgs) <> private_demo.
Proof.
  eexists. eexists. split; [vm_compute; reflexivity|].
  split; [vm_compute; reflexivity|].
  split; [repeat constructor|].
  split; [vm_compute; reflexivity|]. split; [vm_compute; reflexivity|].
  intro H. apply (f_equal (@length ascii)) in H. vm_compute in H. discriminate.
Qed.

Lemma ws_packet_bounds_witness :
  @nick_ok openbsd (lit "alice") = true /\
  exists its,
    @push_icb_msg_ws openbsd (lit "alice") "b" words_demo = Some its /\
    Forall (fun it => it_len it <= 255) its.
Proof.
  split; [reflexivity|].
  destruct (@ws_packet_bounds openbsd (lit "alice") "b" words_demo eq_refl)
    as [its [H1 [_ H2]]].
  exists its. split; [exact H1|].
  eapply Forall_impl; [|exact H2]. cbv beta. intros it H. apply H.
Defined.

Lemma state_machine_scenario_witness :
  @nick_ok openbsd (nick (demo_session Chat)) = true /\
  exists s',
    @proceed_user_input openbsd (Some (lit "/who")) (demo_session Chat) = Ok s' /\
    state s' = CommandSent.
Proof.
  split; [reflexivity|].
  refine (proj1 (proj2 (proj2 (@state_machine_scenario openbsd [] (demo_session Chat))))
            "w"%char (lit "ho") _ eq_refl).
  discriminate.
Defined.

Lemma state_machine_scenario_counterexample :
  exists s',
    @proceed_user_input openbsd (Some (lit "/")) (demo_session Chat) = Ok s' /\
    state s' = Chat /\
    map it_data (tasks_net s') = [packet "b" (lit "/")].
Proof. eexists. split; [vm_compute; reflexivity|]. split; reflexivity. Qed.

Lemma ping_bit_history_witness :
  strcmp0 ping_unsupported ping_unsupported = true /\
  @proceed_icb_msg openbsd [] ("e"%char :: ping_unsupported) (demo_session Chat) =
    Ok (set_srv_features 0 (demo_session Chat)) /\
  (state (demo_session Connected) <> Chat /\
   state (demo_session Connected) <> CommandSent) /\
  exists s',
    @proceed_icb_msg openbsd [] ("e"%char :: ping_unsupported)
      (demo_session Connected) = Ok s' /\
    has_feature Ping s' = false /\ want_exit s' = true.
Proof.
  split; [reflexivity|]. split.
  - exact (proj1 (proj1 (proj2 (@ping_bit_history openbsd)) []
                    ping_unsupported (demo_session Chat) eq_refl
                    (or_introl eq_refl))).
  - assert (H1 : state (demo_session Connected) <> Chat) by discriminate.
    assert (H2 : state (demo_session Connected) <> CommandSent) by discriminate.
    split; [split; assumption|].
    destruct (proj1 (proj2 (proj2 (@ping_bit_history openbsd))) []
                ping_unsupported (demo_session Connected) eq_refl H1 H2)
      as [s' [G1 [_ [G3 G4]]]].
    exists s'. split; [exact G1|]. split; [exact G3|exact G4].
Defined.

Lemma ping_bit_history_counterexample :
  exists s',
    @proceed_icb_msg openbsd [] ("e"%char :: ping_unsupported)
      (demo_session LoginSent) = Ok s' /\
    has_feature Ping s' = false /\
    want_exit (demo_session LoginSent) = false /\
    want_exit s' = true.
Proof. eexists. split; [vm_compute; reflexivity|]. repeat split. Qed.

Lemma first_chunk_boundary_witness :
  @nick_ok openbsd (lit "alice") = true /\
  exists it rest msglen,
    @push_icb_msg_ws openbsd (lit "alice") "b" words_demo = Some (it :: rest) /\
    it = @ws_packet "b" words_demo 0 words_demo msglen /\
    isblank (nth (msglen - 1) words_demo NUL) ||
    ispunct (nth (msglen - 1) words_demo NUL) = true.
Proof.
  split; [reflexivity|].
  destruct (@first_chunk_boundary openbsd (lit "alice") "b" words_demo eq_refl
              (or_introl eq_refl))
    as [it [rest [msglen [H1 [H2 [_ [H4 _]]]]]]].
  { vm_compute. lia. }
  exists it, rest, msglen. split; [exact H1|]. split; [exact H2|].
  apply H4. exists 5. split; [vm_compute; lia|reflexivity].
Defined.

Lemma first_chunk_boundary_counterexample :
  exists it rest,
    @push_icb_msg_ws openbsd (lit "alice") "b" blank_first_demo = Some (it :: rest) /\
    it_len it = 247 + 3 /\
    it_data it = packet "b" (firstn 247 blank_first_demo) /\
    isblank (nth 0 blank_first_demo NUL) = true /\
    nth 246 blank_first_demo NUL = "x"%char /\
    nth 247 blank_first_demo NUL = "x"%char.
Proof.
  eexists. eexists. split; [vm_compute; reflexivity|].
  repeat split; vm_compute; reflexivity.
Qed.


Lemma chat_msg_after_command_witness :
  In "b"%char ["b"; "c"; "d"; "f"]%char /\
  exists s',
    @proceed_icb_msg openbsd [] ("b"%char :: lit "bob" ++ SOH :: lit "hi")
      (demo_session CommandSent) = Ok s' /\
    state s' = Chat.
Proof.
  split; [left; reflexivity|].
  refine (proj2 (proj2 (proj1 (@chat_msg_after_command openbsd [] "b"%char
            (lit "bob" ++ SOH :: lit "hi") (demo_session CommandSent)
            (or_introl eq_refl)) (or_introl eq_refl))) _ _ _).
  - discriminate.
  - cbn. lia.
  - intro b. cbn. lia.
Defined.

Lemma ping_answered_in_every_state_witness :
  @nick_ok openbsd (nick (demo_session Connecting)) = true /\
  has_feature ExtPkt (demo_session Connecting) = false /\
  exists chunks,
    @proceed_icb_msg openbsd [] ("l"%char :: lit "xyz") (demo_session Connecting) =
      Ok (set_tasks_net
            (tasks_net (demo_session Connecting) ++
             map (fun ch => new_task (packet "m" ch)) chunks)
            (demo_session Connecting)) /\
    concat chunks = lit "xyz".
Proof.
  split; [reflexivity|]. split; [reflexivity|].
  destruct (proj2 (proj2 (@ping_answered_in_every_state openbsd []
              (lit "xyz") (demo_session Connecting))) eq_refl eq_refl)
    as [chunks [H1 [_ H3]]].
  exists chunks. split; [exact H1|exact H3].
Defined.

Lemma unsupported_type_ignored_witness :
  "z"%char <> NUL /\
  @proceed_icb_msg openbsd [] ("z"%char :: lit "payload") (demo_session Connecting) =
    Ok (set_tasks_stdout
          [new_task (lit "unsupported message of type 'z', ignored" ++ [NL; NUL])]
          (demo_session Connecting)).
Proof.
  split; [discriminate|].
  refine (@unsupported_type_ignored openbsd [] "z"%char (lit "payload")
            (demo_session Connecting) _ _).
  - intro H. cbn [In] in H.
    repeat (destruct H as [H|H]; [discriminate|]). exact H.
  - discriminate.
Defined.

Lemma unsupported_type_ignored_counterexample :
  exists s',
    @proceed_icb_msg openbsd [] (NUL :: lit "payload") (demo_session Chat) = Ok s' /\
    state s' = Chat /\
    map it_data (tasks_stdout s') = [lit "unsupported message of type '" ++ [NUL]].
Proof. eexists. split; [vm_compute; reflexivity|]. split; reflexivity. Qed.

(** ** The further properties at concrete inputs *)

Lemma decoder_waits_for_rest_witness :
  (length (lit "hi") <= 253 /\ 1 <= 2 <= length (lit "hi") + 1) /\
  exists ib1 ib2,
    get_next_icb_msg inbuf0
      (mk_sock (firstn 2 (packet "b" (lit "hi"))) StillOpen) (demo_session Chat) =
      (NoMessage, ib1, mk_sock [] StillOpen, demo_session Chat) /\
    get_next_icb_msg ib1
      (mk_sock (skipn 2 (packet "b" (lit "hi"))) StillOpen) (demo_session Chat) =
      (Message ("b"%char :: lit "hi"), ib2, mk_sock [] StillOpen, demo_session Chat).
Proof.
  assert (H1 : length (lit "hi") <= 253) by (cbn; lia).
  assert (H2 : 1 <= 2 <= length (lit "hi") + 1) by (cbn; lia).
  split; [split; assumption|].
  destruct (decoder_waits_for_rest "b" (lit "hi") 2 (demo_session Chat) H1 H2)
    as [ib1 [ib2 [G1 [_ [G2 _]]]]].
  exists ib1, ib2. split; [exact G1|exact G2].
Defined.

Lemma decoder_reads_past_received_witness :
  length (lit "hi") <= 253 /\
  exists ib,
    get_next_icb_msg inbuf0
      (mk_sock (removelast (packet "b" (lit "hi"))) StillOpen) (demo_session Chat) =
      (Unreceived, ib, mk_sock [] StillOpen, demo_session Chat).
Proof.
  assert (H1 : length (lit "hi") <= 253) by (cbn; lia).
  split; [exact H1|].
  destruct (decoder_reads_past_received "b" (lit "hi") (demo_session Chat) H1)
    as [ib [G _]].
  exists ib. exact G.
Defined.

Lemma decoder_delivers_stream_witness :
  Forall (fun p => length (snd p) <= 253)
    [("b"%char, lit "bob" ++ SOH :: lit "hi"); ("l"%char, [])] /\
  receive_all 3 inbuf0
    (mk_sock (packet "b" (lit "bob" ++ SOH :: lit "hi") ++ packet "l" [])
             StillOpen) (demo_session Chat) =
    ([ "b"%char :: lit "bob" ++ SOH :: lit "hi"; ["l"%char] ], NoMessage).
Proof.
  assert (H1 : Forall (fun p : ascii * bytes => length (snd p) <= 253)
                 [("b"%char, lit "bob" ++ SOH :: lit "hi"); ("l"%char, [])]).
  { repeat constructor; cbn; lia. }
  split; [exact H1|].
  refine (decoder_delivers_stream _ (demo_session Chat) H1 _).
  pose proof BUF_MAX_big as B.
  assert (L : length (concat (map (fun p : ascii * bytes => packet (fst p) (snd p))
                [("b"%char, lit "bob" ++ SOH :: lit "hi"); ("l"%char, [])])) = 12)
    by reflexivity.
  rewrite L. lia.
Defined.


Lemma too_much_pending_is_fatal_witness :
  (ready inbuf0 [] /\ inbuf_ok inbuf0 /\
   BUF_MAX <= length (@nil ascii) + length (repeat "x"%char (BUF_MAX - 1)) + 1) /\
  fst (fst (fst (get_next_icb_msg inbuf0
                   (mk_sock (repeat "x"%char (BUF_MAX - 1)) StillOpen)
                   (demo_session Chat)))) = DecodeFatal TooLongMessage.
Proof.
  assert (H3 : BUF_MAX <= length (@nil ascii) +
                          length (repeat "x"%char (BUF_MAX - 1)) + 1).
  { rewrite repeat_length. pose proof BUF_MAX_big. cbn [length]. lia. }
  split; [split; [reflexivity|split; [exact inbuf0_ok|exact H3]]|].
  exact (too_much_pending_is_fatal inbuf0 [] _ StillOpen (demo_session Chat)
           ready_inbuf0 inbuf0_ok H3).
Defined.

Lemma unterminated_packet_witness :
  (length (lit "hi") <= 254 /\ last ("b"%char :: lit "hi") NUL <> NUL) /\
  exists ib,
    get_next_icb_msg inbuf0
      (mk_sock (bare_packet "b" (lit "hi") ++ packet "l" []) StillOpen)
      (demo_session Chat) =
      (Message ("b"%char :: lit "hi"), ib, mk_sock [] StillOpen, demo_session Chat) /\
    ready ib (removelast (packet "l" [])).
Proof.
  assert (H1 : length (lit "hi") <= 254) by (cbn; lia).
  assert (H2 : last ("b"%char :: lit "hi") NUL <> NUL) by discriminate.
  split; [split; assumption|].
  destruct (unterminated_packet "b" (lit "hi") (packet "l" []) (demo_session Chat)
              H1 H2) as [ib [G1 [G2 _]]].
  { pose proof BUF_MAX_big as B.
    assert (L : length (lit "hi") + length (packet "l" []) + 3 = 8) by reflexivity.
    rewrite L. lia. }
  exists ib. split; [exact G1|]. apply G2. discriminate.
Defined.

Lemma message_refused_exactly_witness :
  expected_in "a" (state (demo_session Chat)) = false /\
  @proceed_icb_msg openbsd [] (lit "a") (demo_session Chat) =
    Fatal (UnexpectedMsg "a") (demo_session Chat).
Proof.
  split; [reflexivity|].
  exact (proj2 (@message_refused_exactly openbsd [] (lit "a") (demo_session Chat))
           eq_refl).
Defined.

Lemma command_output_dispatch_witness :
  (state (demo_session CommandSent) = CommandSent /\
   ~ In NUL (lit "xx") /\ ~ In SOH (lit "xx") /\ ~ In (lit "xx") known_tags) /\
  @proceed_icb_msg openbsd [] ("i"%char :: lit "xx" ++ SOH :: lit "text")
    (demo_session CommandSent) =
    Fatal (InvalidMsg "i" (lit "unsupported output type"))
          (demo_session CommandSent).
Proof.
  assert (H1 : ~ In NUL (lit "xx")).
  { cbn. intro K. repeat (destruct K as [K|K]; [discriminate K|]). exact K. }
  assert (H2 : ~ In SOH (lit "xx")).
  { cbn. intro K. repeat (destruct K as [K|K]; [discriminate K|]). exact K. }
  assert (H3 : ~ In (lit "xx") known_tags).
  { cbn. intro K. repeat (destruct K as [K|K]; [discriminate K|]). exact K. }
  split; [split; [reflexivity|split; [exact H1|split; [exact H2|exact H3]]]|].
  exact (proj1 (proj2 (@command_output_dispatch openbsd [] (lit "xx") (lit "text")
                         (demo_session CommandSent) eq_refl H1 H2)) H3).
Defined.

Lemma command_output_ends_line_witness :
  state (demo_session CommandSent) = CommandSent /\
  exists s2,
    bind (@proceed_icb_msg openbsd [] ("i"%char :: lit "co" ++ SOH :: lit "done")
            (demo_session CommandSent))
         (@proceed_icb_msg openbsd [] ("i"%char :: lit "ec" ++ [SOH])) = Ok s2 /\
    state s2 = Chat /\
    map it_data (tasks_stdout s2) = [lit "done" ++ [NUL]; [NL; NUL]].
Proof.
  split; [reflexivity|].
  destruct (@command_output_ends_line openbsd [] (lit "done")
              (demo_session CommandSent) eq_refl) as [s2 [H1 [H2 [H3 _]]]].
  exists s2. split; [exact H1|]. split; [exact H3|]. rewrite H2. reflexivity.
Defined.

Lemma protocol_message_logs_in_witness :
  (state (demo_session Connected) = Connected /\
   has_feature ExtPkt (demo_session Connected) = false /\
   @nick_ok openbsd (nick (demo_session Connected)) = true /\
   3 * strlen (nick (demo_session Connected)) +
   strlen (room (demo_session Connected)) <= 243) /\
  @proceed_icb_msg openbsd [] (lit "j1" ++ SOH :: lit "host" ++ SOH :: lit "srv")
    (demo_session Connected) =
    Ok (set_state LoginSent
          (set_tasks_net
             [new_task (packet "a" (login_text (lit "alice") (lit "lobby")))]
             (demo_session Connected))).
Proof.
  assert (H4 : 3 * strlen (nick (demo_session Connected)) +
               strlen (room (demo_session Connected)) <= 243) by (cbn; lia).
  split; [split; [reflexivity|split; [reflexivity|split; [reflexivity|exact H4]]]|].
  exact (proj1 (proj2 (@protocol_message_logs_in openbsd [] (demo_session Connected)
                         eq_refl eq_refl eq_refl H4)) (lit "host" ++ SOH :: lit "srv")).
Defined.

Lemma early_command_breaks_login_witness :
  ("w"%char <> NUL /\ @nick_ok openbsd (nick (demo_session LoginSent)) = true) /\
  exists s1,
    @proceed_user_input openbsd (Some (lit "/who")) (demo_session LoginSent) = Ok s1 /\
    @proceed_icb_msg openbsd [] (lit "a") s1 = Fatal (UnexpectedMsg "a") s1.
Proof.
  assert (H1 : "w"%char <> NUL) by discriminate.
  split; [split; [exact H1|reflexivity]|].
  destruct (@early_command_breaks_login openbsd [] "w"%char (lit "ho") []
              (demo_session LoginSent) H1 eq_refl) as [s1 [G1 [G2 _]]].
  exists s1. split; [exact G1|exact G2].
Defined.


Lemma command_line_encoding_witness :
  (lit "m" <> [] /\ forallb name_byte (lit "m") = true /\
   In " "%char [" "; "009"]%char /\ ~ In NUL (lit "bob hi there")) /\
  @proceed_user_input openbsd (Some (lit "/m bob hi there")) (demo_session Chat) =
    bind (@push_icb_msg openbsd "h" (lit "m" ++ SOH :: lit "bob hi there")
            (save_history "c" (lit "me") (lit "bob hi there") (demo_session Chat)))
         (fun s2 => Ok (set_state CommandSent s2)).
Proof.
  assert (H1 : lit "m" <> []) by discriminate.
  assert (H3 : In " "%char [" "; "009"]%char) by (left; reflexivity).
  assert (H4 : ~ In NUL (lit "bob hi there")).
  { cbn. intro K. repeat (destruct K as [K|K]; [discriminate K|]). exact K. }
  split; [split; [exact H1|split; [reflexivity|split; [exact H3|exact H4]]]|].
  exact (@command_line_encoding openbsd (lit "m") " "%char (lit "bob hi there")
           (demo_session Chat) H1 eq_refl H3 H4).
Defined.

Lemma session_never_goes_back_witness :
  phase (state (cl_session (demo_client Connected))) <=
  phase (state (cl_session (end_client
    (@main_loop openbsd None refused_run (demo_client Connected))))).
Proof.
  exact (proj1 (proj2 (@session_never_goes_back openbsd None refused_run
                         (demo_client Connected)))).
Defined.


Section HistoryWitnesses.
Import HistoryFiles.

Lemma history_record_layout_witness :
  (~ In NUL demo_date /\ length demo_date <= 20) /\
  history_task demo_date (lit "bob") (lit "hi") =
    Some (new_task (lit "2020-01-02 03:04:05 bob: hi" ++ [NL])).
Proof.
  assert (H1 : ~ In NUL demo_date).
  { cbn. intro K. repeat (destruct K as [K|K]; [discriminate K|]). exact K. }
  assert (H2 : length demo_date <= 20) by (cbn; lia).
  split; [split; [exact H1|exact H2]|].
  exact (history_record_layout demo_date (lit "bob") (lit "hi") H1 H2).
Defined.

Lemma save_path_separates_witness :
  get_save_path_for (lit "/home/u") (lit "h") (lit "r") "b" (lit "bob") =
  get_save_path_for (lit "/home/u") (lit "h") (lit "r") "d" (lit "carol").
Proof.
  apply (proj2 (save_path_separates (lit "/home/u") (lit "h") (lit "r")
                  "b" (lit "bob") "d" (lit "carol"))).
  left. split; discriminate.
Defined.


Lemma get_history_file_lookup_witness :
  (unique_paths [demo_file] /\
   existsb (same_path (lit "/home/u/.oicb/logs/h/private-bob.log")) [demo_file]
     = false) /\
  exists fs',
    get_history_file (lit "/home/u/.oicb/logs/h/private-bob.log")
      [demo_file] empty_fs =
      (true,
       mk_hf [] (lit "/home/u/.oicb/logs/h/private-bob.log") 0 None false 0
         :: [demo_file],
       fs') /\
    unique_paths
      (mk_hf [] (lit "/home/u/.oicb/logs/h/private-bob.log") 0 None false 0
         :: [demo_file]).
Proof.
  assert (U : unique_paths [demo_file]).
  { constructor; [intros []|constructor]. }
  assert (E : existsb (same_path (lit "/home/u/.oicb/logs/h/private-bob.log"))
                [demo_file] = false) by reflexivity.
  split; [split; [exact U|exact E]|].
  pose proof (get_history_file_lookup (lit "/home/u/.oicb/logs/h/private-bob.log")
                [demo_file] empty_fs) as H.
  assert (F : fst (fst (get_history_file
                          (lit "/home/u/.oicb/logs/h/private-bob.log")
                          [demo_file] empty_fs)) = true) by reflexivity.
  destruct (get_history_file (lit "/home/u/.oicb/logs/h/private-bob.log")
              [demo_file] empty_fs) as [[found files'] fs'].
  cbn [fst] in F. subst found.
  destruct H as [_ [_ [H3 [_ [_ H6]]]]].
  exists fs'. rewrite (H6 E eq_refl) in *. split; [reflexivity|exact (H3 U)].
Defined.

Lemma demo_file_sound : Forall hf_sound [demo_file].
Proof.
  constructor; [|constructor]. unfold hf_sound, demo_file. cbn.
  repeat split. constructor; [|constructor]. split; [reflexivity|cbn; lia].
Defined.

Lemma history_bytes_conserved_witness :
  (unique_paths [demo_file] /\ Forall hf_sound [demo_file] /\
   os_refused (quiet_os 3) = [] /\ (0 < 1600000000)%Z) /\
  appended (hf_path demo_file)
    (os_log (snd (proceed_history 1600000000 [demo_file] (quiet_os 3)))) ++
  pending (hf_path demo_file)
    (fst (proceed_history 1600000000 [demo_file] (quiet_os 3))) =
  lit "a line" ++ [NL].
Proof.
  assert (U : unique_paths [demo_file]).
  { constructor; [intros []|constructor]. }
  assert (T : (0 < 1600000000)%Z) by lia.
  split; [split; [exact U|split; [exact demo_file_sound|split; [reflexivity|exact T]]]|].
  rewrite (history_bytes_conserved 1600000000 [demo_file] (quiet_os 3)
             (hf_path demo_file) U demo_file_sound eq_refl T).
  reflexivity.
Defined.

Lemma history_files_stay_sound_witness :
  ((0 < 1600000000)%Z /\ unique_paths [demo_file] /\ Forall hf_sound [demo_file]) /\
  Forall hf_sound (fst (proceed_history 1600000000 [demo_file] (quiet_os 3))).
Proof.
  assert (U : unique_paths [demo_file]).
  { constructor; [intros []|constructor]. }
  assert (T : (0 < 1600000000)%Z) by lia.
  split; [split; [exact T|split; [exact U|exact demo_file_sound]]|].
  exact (proj1 (proj2 (proj2 history_files_stay_sound 1600000000%Z [demo_file]
                         (quiet_os 3) T U demo_file_sound))).
Defined.

Lemma history_open_failure_loses_records_witness :
  (hf_sound demo_file /\ hf_fd demo_file = None /\
   mem (path_of demo_file)
     (os_refused (mk_os [path_of demo_file] [] 3 [WrRoom 100] [])) = true /\
   (0 < 1600000000)%Z) /\
  exists os',
    proceed_history 1600000000 [demo_file]
      (mk_os [path_of demo_file] [] 3 [WrRoom 100] []) = ([], os') /\
    os_fds os' = [].
Proof.
  assert (S : hf_sound demo_file).
  { pose proof demo_file_sound as K. inversion K. assumption. }
  assert (T : (0 < 1600000000)%Z) by lia.
  split; [split; [exact S|split; [reflexivity|split; [reflexivity|exact T]]]|].
  destruct (history_open_failure_loses_records 1600000000 demo_file
              (mk_os [path_of demo_file] [] 3 [WrRoom 100] []) S eq_refl eq_refl T)
    as [os' [H1 [H2 _]]].
  exists os'. split; [exact H1|exact H2].
Defined.


End HistoryWitnesses.

Ltac not_in_lit :=
  let K := fresh "K" in
  intro K; cbn in K; repeat (destruct K as [K|K]; [discriminate K|]); exact K.

Lemma target_taken_apart_witness :
  @parse_target openbsd [lit "alice@icb.example.org:7326"; lit "lobby"] None =
    inl (mk_target (lit "alice") (lit "icb.example.org") (Some (lit "7326"))
                   (lit "lobby")).
Proof.
  refine (proj1 (@target_taken_apart openbsd None (lit "lobby"))
            (lit "alice") (lit "icb.example.org") (lit "7326") _ _ _ _ _ _).
  - not_in_lit.
  - not_in_lit.
  - discriminate.
  - not_in_lit.
  - not_in_lit.
  - not_in_lit.
Defined.

Lemma icb_connect_first_usable_witness :
  icb_connect
    (Some [mk_ai None ConnDone; mk_ai (Some 3) ConnFailed;
           mk_ai (Some 4) ConnInProgress; mk_ai (Some 5) ConnDone])
    (initial_session true (lit "alice") (lit "icb.example.org") (lit "lobby")) =
  Linked (cl_session (initial_client true false (lit "alice")
                        (lit "icb.example.org") (lit "lobby"))) 4 [4].
Proof.
  pose proof (icb_connect_first_usable
                [mk_ai None ConnDone; mk_ai (Some 3) ConnFailed;
                 mk_ai (Some 4) ConnInProgress; mk_ai (Some 5) ConnDone]
                true (lit "alice") (lit "icb.example.org") (lit "lobby")) as H.
  cbv beta iota delta [find usable ai_socket ai_connect] in H.
  destruct H as [fd [E H]]. injection E as <-. exact H.
Defined.

Lemma typed_line_survives_output_witness :
  o_rl_buf (mk_rl (lit "hello") 2 0 None 0 0 []) = None /\
  exists r1 r2,
    prepare_stdout (mk_rl (lit "hello") 2 0 None 0 0 []) = Some r1 /\
    cstr (rl_line_buffer r1) = lit "     " /\
    restore_rl r1 = Some r2 /\
    cstr (rl_line_buffer r2) = lit "hello" /\
    rl_point r2 = 2.
Proof.
  split; [reflexivity|].
  destruct (typed_line_survives_output (mk_rl (lit "hello") 2 0 None 0 0 [])
              eq_refl)
    as [r1 [r2 [H1 [H2 [_ [_ [_ [H6 [H7 [H8 _]]]]]]]]]].
  exists r1, r2. split; [exact H1|]. split; [exact H2|]. split; [exact H6|].
  split; [exact H7|exact H8].
Defined.

Lemma login_reaches_chat_witness :
  (@nick_ok openbsd (lit "alice") = true /\
   3 * strlen (lit "alice") + strlen (lit "lobby") <= 243 /\
   length (lit "HIDDEN") <= 251 /\ length (lit "welcome") <= 253 /\
   length (login_text (lit "alice") (lit "lobby")) + 3 <= 100) /\
  exists c,
    @main_loop openbsd None
      [net_pass (mk_sock (packet "j" (lit "1" ++ SOH :: lit "HIDDEN")) StillOpen);
       write_pass 100;
       net_pass (mk_sock (packet "a" (lit "welcome")) StillOpen)]
      (initial_client true true (lit "alice") (lit "icb.example.org")
                      (lit "lobby")) = Continue c /\
    state (cl_session c) = Chat /\
    cl_sent c = packet "a" (login_text (lit "alice") (lit "lobby")).
Proof.
  assert (H1 : @nick_ok openbsd (lit "alice") = true) by reflexivity.
  assert (H2 : 3 * strlen (lit "alice") + strlen (lit "lobby") <= 243)
    by (cbn; lia).
  assert (H3 : length (lit "HIDDEN") <= 251) by (cbn; lia).
  assert (H4 : length (lit "welcome") <= 253) by (cbn; lia).
  assert (H5 : length (login_text (lit "alice") (lit "lobby")) + 3 <= 100)
    by (cbn; lia).
  split; [repeat split; assumption|].
  destruct (@login_reaches_chat openbsd None true (lit "alice")
              (lit "icb.example.org") (lit "lobby") (lit "HIDDEN")
              (lit "welcome") 100 H1 H2 H3 H4 H5)
    as [c [G1 [G2 [_ [G4 _]]]]].
  exists c. split; [exact G1|]. split; [exact G2|exact G4].
Defined.

Lemma history_files_never_polled_witness :
  Forall hf_sound [demo_file] /\
  HistoryFiles.hf_tasks demo_file <> [] /\
  Forall (fun p => pfd_in p = false /\ pfd_out p = false)
    (skipn 3 (snd (update_pollfds 0 5 (demo_session Chat) [demo_file]))).
Proof.
  split; [exact demo_file_sound|]. split; [discriminate|].
  exact (proj1 (proj2 (proj2 (proj2 (proj2
           (history_files_never_polled 0 5 (demo_session Chat) [demo_file]
              demo_file_sound)))))).
Defined.
